(** * The rule-based dialogue manager of crewai-service/main.py

    A shallow embedding of the heuristic core of the service: the
    extraction of a reported roll total, the scan of the recent history for
    the pending roll, the outcome line, the option menus, the classifier of
    new roll requests and the normaliser of option text.

    Texts are Rocq strings.  The character classes of Python ([str.lower],
    [str.strip], [str.splitlines] and the classes [\s], [\d], [\w] of [re])
    are modelled on the ASCII range, where they are given by the tables
    below; a character above 127 is left alone by [lower] and belongs to
    none of the classes (the few non-ASCII characters of the source are
    punctuation inside fixed output sentences, kept as their UTF-8 bytes). *)

From Stdlib Require Import String Ascii List ZArith Lia Bool DecimalString DecimalZ.
Import ListNotations.

Local Open Scope list_scope.
Local Open Scope string_scope.

(** ** Python's text primitives *)

Module Text.

Definition code (c : ascii) : nat := nat_of_ascii c.

Definition between (lo hi : nat) (c : ascii) : bool :=
  (lo <=? code c)%nat && (code c <=? hi)%nat.

(** [str.isspace] and the class [\s]: tab, LF, VT, FF, CR, the four
    separators FS GS RS US, and the blank. *)
Definition is_space (c : ascii) : bool :=
  between 9 13 c || between 28 32 c.

(** The class [\d]. *)
Definition is_digit (c : ascii) : bool := between 48 57 c.

Definition is_upper (c : ascii) : bool := between 65 90 c.
Definition is_lower (c : ascii) : bool := between 97 122 c.

(** The class [\w]: letters, digits and the underscore. *)
Definition is_word (c : ascii) : bool :=
  is_digit c || is_upper c || is_lower c || (code c =? 95)%nat.

(** The line boundaries of [str.splitlines]: LF, VT, FF, CR, FS, GS, RS. *)
Definition is_linebreak (c : ascii) : bool :=
  between 10 13 c || between 28 30 c.

Definition lower_char (c : ascii) : ascii :=
  if is_upper c then ascii_of_nat (code c + 32) else c.

Definition upper_char (c : ascii) : ascii :=
  if is_lower c then ascii_of_nat (code c - 32) else c.

(** [s.lower()] *)
Fixpoint lower (s : string) : string :=
  match s with
  | EmptyString => EmptyString
  | String c s' => String (lower_char c) (lower s')
  end.

(** [s.title()]: a cased character is upper-cased when it follows an
    uncased one, lower-cased otherwise. *)
Fixpoint title_from (prev_cased : bool) (s : string) : string :=
  match s with
  | EmptyString => EmptyString
  | String c s' =>
      let cased := is_upper c || is_lower c in
      String (if prev_cased then lower_char c else upper_char c)
             (title_from cased s')
  end.

Definition title (s : string) : string := title_from false s.

(** [needle in hay] *)
Fixpoint contains (needle hay : string) : bool :=
  prefix needle hay ||
  match hay with
  | EmptyString => false
  | String _ hay' => contains needle hay'
  end.

(** [s.lstrip()], [s.rstrip()], [s.strip()] *)
Fixpoint lstrip (s : string) : string :=
  match s with
  | EmptyString => EmptyString
  | String c s' => if is_space c then lstrip s' else s
  end.

Fixpoint rstrip (s : string) : string :=
  match s with
  | EmptyString => EmptyString
  | String c s' =>
      match rstrip s' with
      | EmptyString => if is_space c then EmptyString else String c EmptyString
      | r => String c r
      end
  end.

Definition strip (s : string) : string := rstrip (lstrip s).

(** [s.splitlines()]: the lines of [s] without their boundaries; CR LF is
    one boundary, and a boundary at the very end opens no further line.
    [cur] is the line being read, in reverse; [after_cr] tells that the
    previous character was a CR that closed a line. *)
Definition rev_string (s : string) : string :=
  string_of_list_ascii (rev (list_ascii_of_string s)).

Fixpoint splitlines_go (cur : string) (after_cr : bool) (s : string)
  : list string :=
  match s with
  | EmptyString =>
      match cur with
      | EmptyString => []
      | _ => [rev_string cur]
      end
  | String c s' =>
      if after_cr && (code c =? 10)%nat then splitlines_go EmptyString false s'
      else if is_linebreak c then
        rev_string cur :: splitlines_go EmptyString (code c =? 13)%nat s'
      else splitlines_go (String c cur) false s'
  end.

Definition splitlines (s : string) : list string :=
  splitlines_go EmptyString false s.

(** [sep.join(parts)] *)
Fixpoint join (sep : string) (parts : list string) : string :=
  match parts with
  | [] => EmptyString
  | [p] => p
  | p :: ps => p ++ sep ++ join sep ps
  end.

(** [body.split(",", 1)] when a comma occurs in [body]: the text before the
    first comma and the text after it. *)
Fixpoint split_comma (s : string) : option (string * string) :=
  match s with
  | EmptyString => None
  | String c s' =>
      if (code c =? 44)%nat then Some (EmptyString, s')
      else match split_comma s' with
           | Some (h, t) => Some (String c h, t)
           | None => None
           end
  end.

(** [int(d)] on what a [\d+] group captures: a non-empty run of ASCII
    digits; anything else is the [ValueError] of Python, [None] here.  The
    bound that recent interpreters put on the number of digits of such a
    text (a setting of the interpreter) is not modelled. *)
Fixpoint digits_value (acc : Z) (s : string) : option Z :=
  match s with
  | EmptyString => Some acc
  | String c s' =>
      if is_digit c then digits_value (10 * acc + Z.of_nat (code c - 48)) s'
      else None
  end.

Definition py_int (s : string) : option Z :=
  match s with
  | EmptyString => None
  | _ => digits_value 0 s
  end.

(** [str(n)], as an f-string renders an integer. *)
Definition py_str (n : Z) : string := NilZero.string_of_int (Z.to_int n).

End Text.

(** ** The fragment of Python's [re] that the service uses

    A backtracking matcher in continuation-passing style: greedy
    repetition, alternatives tried from left to right, the first complete
    match wins.  Repetition is only ever applied to a character class in the
    source, and so it is here. *)

Module Re.
Import Text.

Inductive regex : Type :=
| Eps
| Cls (p : ascii -> bool)      (* one character of a class *)
| Star (p : ascii -> bool)     (* [p*], greedy *)
| Seq (r1 r2 : regex)
| Alt (r1 r2 : regex)          (* [r1|r2] *)
| Grp (r : regex)              (* a capturing group *)
| Bnd                          (* [\b] *)
| Bol                          (* [^] *)
| Eol.                         (* [$], without MULTILINE *)

(** [\b]: exactly one of the two neighbours is a word character. *)
Definition word_before (prev : option ascii) : bool :=
  match prev with Some c => is_word c | None => false end.

Definition word_after (s : string) : bool :=
  match s with String c _ => is_word c | EmptyString => false end.

Definition at_boundary (prev : option ascii) (s : string) : bool :=
  xorb (word_before prev) (word_after s).

(** [$] holds at the end of the text and just before a final newline. *)
Definition at_end (s : string) : bool :=
  match s with
  | EmptyString => true
  | String c EmptyString => (code c =? 10)%nat
  | _ => false
  end.

(** The text that was consumed between [s] and its suffix [s']. *)
Definition consumed (s s' : string) : string :=
  substring 0 (String.length s - String.length s') s.

Section Matcher.
Context {A : Type}.

(** [run r k prev s gs]: match [r] at the front of [s], [prev] being the
    character before it and [gs] the groups closed so far, then go on with
    [k]; [None] makes the matcher backtrack. *)
Fixpoint run (r : regex)
    (k : option ascii -> string -> list string -> option A)
    (prev : option ascii) (s : string) (gs : list string) : option A :=
  match r with
  | Eps => k prev s gs
  | Cls p =>
      match s with
      | String c s' => if p c then k (Some c) s' gs else None
      | EmptyString => None
      end
  | Star p =>
      (fix loop (prev : option ascii) (s : string) : option A :=
         match s with
         | String c s' =>
             if p c then
               match loop (Some c) s' with
               | Some x => Some x
               | None => k prev s gs
               end
             else k prev s gs
         | EmptyString => k prev s gs
         end) prev s
  | Seq r1 r2 => run r1 (run r2 k) prev s gs
  | Alt r1 r2 =>
      match run r1 k prev s gs with
      | Some x => Some x
      | None => run r2 k prev s gs
      end
  | Grp r' =>
      run r' (fun prev' s' gs' => k prev' s' (gs' ++ [consumed s s'])%list) prev s gs
  | Bnd => if at_boundary prev s then k prev s gs else None
  | Bol => match prev with None => k prev s gs | Some _ => None end
  | Eol => if at_end s then k prev s gs else None
  end.

End Matcher.

(** What [run] computes, as a relation: [matches r prev s gs prev' s' gs']
    when [r] can match the front of [s] and leave [s'], the groups going
    from [gs] to [gs']. *)
Inductive matches : regex -> option ascii -> string -> list string ->
                    option ascii -> string -> list string -> Prop :=
| M_Eps prev s gs : matches Eps prev s gs prev s gs
| M_Cls p prev c s gs :
    p c = true -> matches (Cls p) prev (String c s) gs (Some c) s gs
| M_Star_stop p prev s gs : matches (Star p) prev s gs prev s gs
| M_Star_step p prev c s gs prev' s' :
    p c = true ->
    matches (Star p) (Some c) s gs prev' s' gs ->
    matches (Star p) prev (String c s) gs prev' s' gs
| M_Seq r1 r2 prev s gs prev1 s1 gs1 prev2 s2 gs2 :
    matches r1 prev s gs prev1 s1 gs1 ->
    matches r2 prev1 s1 gs1 prev2 s2 gs2 ->
    matches (Seq r1 r2) prev s gs prev2 s2 gs2
| M_Alt_left r1 r2 prev s gs prev' s' gs' :
    matches r1 prev s gs prev' s' gs' ->
    matches (Alt r1 r2) prev s gs prev' s' gs'
| M_Alt_right r1 r2 prev s gs prev' s' gs' :
    matches r2 prev s gs prev' s' gs' ->
    matches (Alt r1 r2) prev s gs prev' s' gs'
| M_Grp r prev s gs prev' s' gs' :
    matches r prev s gs prev' s' gs' ->
    matches (Grp r) prev s gs prev' s' (gs' ++ [consumed s s'])%list
| M_Bnd prev s gs :
    at_boundary prev s = true -> matches Bnd prev s gs prev s gs
| M_Bol s gs : matches Bol None s gs None s gs
| M_Eol prev s gs : at_end s = true -> matches Eol prev s gs prev s gs.

(** [re.match(r, s)]: the groups of the match of [r] at the start of [s]. *)
Definition rmatch (r : regex) (s : string) : option (list string) :=
  run r (fun _ _ gs => Some gs) None s [].

(** [re.search(r, s)]: the groups of the leftmost match of [r] in [s]. *)
Fixpoint search_from (r : regex) (prev : option ascii) (s : string)
  : option (list string) :=
  match run r (fun _ _ gs => Some gs) prev s [] with
  | Some gs => Some gs
  | None =>
      match s with
      | String c s' => search_from r (Some c) s'
      | EmptyString => None
      end
  end.

Definition search (r : regex) (s : string) : option (list string) :=
  search_from r None s.

(** [m.group(n)], for a group [n >= 1] that took part in the match. *)
Definition group (n : nat) (gs : list string) : string :=
  nth (n - 1) gs EmptyString.

(** Pattern syntax. *)
Definition chr (c : ascii) : regex := Cls (Ascii.eqb c).

Fixpoint lit (s : string) : regex :=
  match s with
  | EmptyString => Eps
  | String c s' => Seq (chr c) (lit s')
  end.

(** A literal under [re.IGNORECASE]. *)
Fixpoint lit_i (s : string) : regex :=
  match s with
  | EmptyString => Eps
  | String c s' =>
      Seq (Cls (fun x => Ascii.eqb (lower_char c) (lower_char x))) (lit_i s')
  end.

Definition plus (p : ascii -> bool) : regex := Seq (Cls p) (Star p).

Fixpoint seqs (rs : list regex) : regex :=
  match rs with
  | [] => Eps
  | [r] => r
  | r :: rs' => Seq r (seqs rs')
  end.

Definition not_digit (c : ascii) : bool := negb (is_digit c).

(** [.], without DOTALL: any character but the newline. *)
Definition dot (c : ascii) : bool := negb (code c =? 10)%nat.

(** ** Notions used to state what the patterns capture *)

(** Every character of [s] is in the class [p]. *)
Fixpoint all_chars (p : ascii -> bool) (s : string) : bool :=
  match s with
  | EmptyString => true
  | String c s' => p c && all_chars p s'
  end.

(** No capturing group occurs in [r]. *)
Fixpoint groupless (r : regex) : bool :=
  match r with
  | Grp _ => false
  | Seq r1 r2 | Alt r1 r2 => groupless r1 && groupless r2
  | _ => true
  end.

(** The patterns that end in [(\d+)\b] and have no other group. *)
Inductive number_pattern : regex -> Prop :=
| NP_end : number_pattern (Seq (Grp (plus is_digit)) Bnd)
| NP_seq pre r :
    groupless pre = true -> number_pattern r -> number_pattern (Seq pre r).

End Re.

(** ** The service: data model *)

Module Dm.
Import Text Re.

(** [class RollRequest(BaseModel)] *)
Record RollRequest : Type := mkRollRequest {
  rr_type : string;
  rr_formula : option string;
  rr_purpose : option string;
  rr_dc : option Z;
  rr_ac : option Z;
  rr_advantage : option bool;
  rr_disadvantage : option bool
}.

(** [class NarrationSegment(BaseModel)] *)
Record NarrationSegment : Type := mkNarrationSegment {
  ns_type : string;
  ns_text : string;
  ns_character : option string;
  ns_voice_category : option string
}.

(** [class DMResponse(BaseModel)] *)
Record DMResponse : Type := mkDMResponse {
  text : string;
  narration_segments : option (list NarrationSegment);
  roll_requests : option (list RollRequest)
}.

(** An entry of [req.history]: a dict read with [.get("role")] and
    [.get("content")], either of which may be absent. *)
Record Turn : Type := mkTurn {
  role : option string;
  content : option string
}.

(** [x or ""] on an optional text. *)
Definition or_empty (x : option string) : string :=
  match x with Some s => s | None => EmptyString end.

(** Truth value of an optional text: [None] and the empty text are false. *)
Definition truthy (x : option string) : bool :=
  match x with
  | Some s => negb (s =? EmptyString)
  | None => false
  end.

(** [x is None] *)
Definition is_none {X : Type} (x : option X) : bool :=
  match x with Some _ => false | None => true end.

(** [x == "lit"] on an optional text. *)
Definition is_str (x : option string) (lit : string) : bool :=
  match x with Some s => s =? lit | None => false end.

(** ** RollResultExtractor (main.py, lines 207-224) *)

(** [\bi\s*rolled\s*(\d+)\b] *)
Definition re_i_rolled : regex :=
  seqs [Bnd; chr "i"; Star is_space; lit "rolled"; Star is_space;
        Grp (plus is_digit); Bnd].

(** [rolled[^\d]*(\d+)\b] *)
Definition re_rolled : regex :=
  seqs [lit "rolled"; Star not_digit; Grp (plus is_digit); Bnd].

(** [\btotal\s*[:=]\s*(\d+)\b] *)
Definition re_total : regex :=
  seqs [Bnd; lit "total"; Star is_space;
        Cls (fun c => Ascii.eqb c ":" || Ascii.eqb c "=");
        Star is_space; Grp (plus is_digit); Bnd].

Definition roll_patterns : list regex := [re_i_rolled; re_rolled; re_total].

(** The [for pattern in ...] loop: the first pattern that matches and whose
    group parses as an integer gives the result. *)
Fixpoint first_total (patterns : list regex) (m : string) : option Z :=
  match patterns with
  | [] => None
  | p :: ps =>
      match search p m with
      | Some gs =>
          match py_int (group 1 gs) with
          | Some v => Some v
          | None => first_total ps m
          end
      | None => first_total ps m
      end
  end.

Definition extract_roll_total (message : string) : option Z :=
  first_total roll_patterns (lower message).

(** ** PendingRollResolver (main.py, lines 226-294) *)

(** [\b(?:dc|difficulty\s*class)\s*(\d+)\b] *)
Definition re_dc : regex :=
  seqs [Bnd;
        Alt (lit "dc") (seqs [lit "difficulty"; Star is_space; lit "class"]);
        Star is_space; Grp (plus is_digit); Bnd].

(** [\b(?:ac)\s*(\d+)\b] *)
Definition re_ac : regex :=
  seqs [Bnd; lit "ac"; Star is_space; Grp (plus is_digit); Bnd].

(** The four variables of the scan. *)
Record Scan : Type := mkScan {
  last_kind : option string;
  last_skill : option string;
  last_dc : option Z;
  last_ac : option Z
}.

Definition scan_init : Scan := mkScan None None None None.

Definition set_kind (k : string) (st : Scan) : Scan :=
  mkScan (Some k) (last_skill st) (last_dc st) (last_ac st).
Definition set_skill (s : string) (st : Scan) : Scan :=
  mkScan (last_kind st) (Some s) (last_dc st) (last_ac st).
Definition set_dc (v : Z) (st : Scan) : Scan :=
  mkScan (last_kind st) (last_skill st) (Some v) (last_ac st).
Definition set_ac (v : Z) (st : Scan) : Scan :=
  mkScan (last_kind st) (last_skill st) (last_dc st) (Some v).

(** [m = re.search(r, content)], then [int(m.group(1))] under
    [try ... except: pass]: the number a turn mentions, if any. *)
Definition mention (r : regex) (content : string) : option Z :=
  match search r content with
  | Some gs => py_int (group 1 gs)
  | None => None
  end.

Definition skill_list : list string :=
  ["stealth"; "perception"; "investigation"; "athletics"; "acrobatics";
   "insight"; "persuasion"; "deception"; "intimidation"; "survival";
   "arcana"; "history"; "religion"; "nature"; "medicine"; "performance";
   "sleight of hand"; "animal handling"].

Definition saves : list string :=
  ["strength"; "dexterity"; "constitution"; "intelligence"; "wisdom";
   "charisma"].

(** [for s in skill_list: if ...: last_kind = "check"; last_skill = s; break] *)
Fixpoint skill_loop (skills : list string) (content : string) (st : Scan)
  : Scan :=
  match skills with
  | [] => st
  | s :: rest =>
      if contains (s ++ " check") content
         || contains ("roll " ++ s) content
         || contains ("roll for " ++ s) content
      then set_skill s (set_kind "check" st)
      else skill_loop rest content st
  end.

(** [for abil in saves: if ...: last_kind = "save"; last_skill = abil; break] *)
Fixpoint save_loop (abils : list string) (content : string) (st : Scan)
  : Scan :=
  match abils with
  | [] => st
  | abil :: rest =>
      if contains (abil ++ " saving throw") content
      then set_skill abil (set_kind "save" st)
      else save_loop rest content st
  end.

(** How the body of the [for h in ...] loop is left. *)
Inductive flow : Type := Continue | Break.

(** The body of the loop over the history, on one entry. *)
Definition scan_turn (h : Turn) (st : Scan) : Scan * flow :=
  if negb (is_str (role h) "assistant") then (st, Continue)
  else
    let content := lower (or_empty (content h)) in
    let st := match mention re_dc content with
              | Some v => set_dc v st
              | None => st
              end in
    let st := match mention re_ac content with
              | Some v => set_ac v st
              | None => st
              end in
    if existsb (fun kw => contains kw content) ["initiative"; "roll initiative"]
    then (set_kind "initiative" st, Break)
    else
      let st := skill_loop skill_list content st in
      if truthy (last_kind st) then (st, Break)
      else
        let st := save_loop saves content st in
        if truthy (last_kind st) then (st, Break)
        else
          if contains "attack roll" content
             || contains "make an attack" content
             || contains "please roll attack" content
          then (set_kind "attack" st, Break)
          else (st, Continue).

(** The loop itself, over the entries in the order they are visited. *)
Fixpoint scan_loop (hs : list Turn) (st : Scan) : Scan :=
  match hs with
  | [] => st
  | h :: hs' =>
      match scan_turn h st with
      | (st', Break) => st'
      | (st', Continue) => scan_loop hs' st'
      end
  end.

(** [history[-n:]] for [n > 0] *)
Definition last_n {X : Type} (n : nat) (l : list X) : list X :=
  skipn (List.length l - n) l.

(** [reversed(history[-8:])], scanned from [None, None, None, None]. *)
Definition scan_history (history : list Turn) : Scan :=
  scan_loop (rev (last_n 8 history)) scan_init.

(** "Default targets if not found" *)
Definition default_targets (st : Scan) : Scan :=
  let st := if is_str (last_kind st) "check" && is_none (last_dc st)
            then set_dc 12 st else st in
  let st := if is_str (last_kind st) "save" && is_none (last_dc st)
            then set_dc 13 st else st in
  if is_str (last_kind st) "attack" && is_none (last_ac st)
  then set_ac 13 st else st.

(** The pending roll that the follow-up works with. *)
Definition resolve_pending_roll (history : list Turn) : Scan :=
  default_targets (scan_history history).

(** ** OutcomeEvaluator (main.py, lines 296-322) *)

(** [total >= target] *)
Definition geb (total target : Z) : bool := (target <=? total)%Z.

(** [skill or default] *)
Definition or_default (skill : option string) (default : string) : string :=
  if truthy skill then or_empty skill else default.

Definition outcome_line (kind skill : option string) (dc ac : option Z)
    (total : Z) : string :=
  if is_str kind "initiative" then
    "Initiative noted: " ++ py_str total ++ "."
  else if is_str kind "attack" then
    match ac with
    | None => "Your attack roll is " ++ py_str total ++ "."
    | Some ac =>
        "Your attack roll is " ++ py_str total ++ " "
        ++ (if geb total ac then "(hit)" else "(miss)") ++ "."
    end
  else if is_str kind "save" then
    match dc with
    | None => "Your saving throw total is " ++ py_str total ++ "."
    | Some dc =>
        "Your " ++ or_default skill "saving" ++ " throw is " ++ py_str total
        ++ " " ++ (if geb total dc then "(success)" else "(failure)") ++ "."
    end
  else if is_str kind "check" then
    match dc with
    | None =>
        "Your " ++ or_default skill "ability" ++ " check totals "
        ++ py_str total ++ "."
    | Some dc =>
        let ok := geb total dc in
        "Your " ++ or_default skill "ability" ++ " check is " ++ py_str total
        ++ " " ++ (if ok then "(success)" else "(failure)") ++ "."
    end
  else "Roll total recorded: " ++ py_str total ++ ".".

(** "Determine success for options where applicable": the two [if]s that
    assign [success_flag], in their order. *)
Definition success_flag (kind : option string) (dc ac : option Z)
    (result : Z) : option bool :=
  let flag :=
    match dc with
    | Some dc =>
        if is_str kind "check" || is_str kind "save"
        then Some (geb result dc) else None
    | None => None
    end in
  match ac with
  | Some ac => if is_str kind "attack" then Some (geb result ac) else flag
  | None => flag
  end.

(** The outcome of a reported total against a pending roll. *)
Record RollOutcome : Type := mkRollOutcome {
  total : Z;
  success : option bool;
  summary : string
}.

Definition evaluate_outcome (ctx : Scan) (result : Z) : RollOutcome :=
  mkRollOutcome result
    (success_flag (last_kind ctx) (last_dc ctx) (last_ac ctx) result)
    (outcome_line (last_kind ctx) (last_skill ctx) (last_dc ctx) (last_ac ctx)
       result).

(** ** OptionGenerator (main.py, lines 105-203) *)

(** [x in (a, b, ...)] *)
Definition one_of (x : string) (xs : list string) : bool :=
  existsb (String.eqb x) xs.

(** [success is True] *)
Definition is_true (success : option bool) : bool :=
  match success with Some true => true | _ => false end.

(** The list [options] that [build_lettered_options] fills. *)
Definition lettered_options (kind skill : option string)
    (success : option bool) : list string :=
  let sk := lower (or_empty skill) in
  if is_str kind "check" then
    if one_of sk ["deception"; "persuasion"; "intimidation"] then
      if is_true success then
        ["A. **Slip away under the distraction**, moving quickly while their attention is elsewhere.";
         "B. **Reposition for advantage**, circling behind cover to set up your next move.";
         "C. **Press the bluff**, doubling down to steer them where you want."]
      else
        ["A. **Duck into cover**, using shadows and obstacles to break line of sight.";
         "B. **Change tactics**, shift to stealth or speed instead of misdirection.";
         "C. **Create a louder diversion**, throw debris or shout from another angle."]
    else if one_of sk ["stealth"] then
      if is_true success then
        ["A. **Shadow the pursuers**, tailing them to learn their route.";
         "B. **Slip past**, bypassing the danger to reach your objective.";
         "C. **Set an ambush**, choose a chokepoint and prepare."]
      else
        ["A. **Freeze and conceal**, minimize movement and sound.";
         "B. **Break line of sight**, dash to sturdier cover immediately.";
         "C. **Create a cover noise**, toss something to mask your movement."]
    else if one_of sk ["athletics"; "acrobatics"] then
      if is_true success then
        ["A. **Scale the terrain**, gaining a high vantage to escape or observe.";
         "B. **Dash through obstacles**, using momentum to widen the gap.";
         "C. **Shove or trip**, hinder a pursuer to buy time."]
      else
        ["A. **Retreat to safer footing**, then try a different approach.";
         "B. **Use the environment**, topple a crate or door to block pursuit.";
         "C. **Switch tactics**, avoid risky stunts and move cautiously."]
    else
      if is_true success then
        ["A. **Capitalize immediately**, act before the window closes.";
         "B. **Gather more information**, probe for extra clues.";
         "C. **Set up allies**, coordinate for a stronger follow‑through."]
      else
        ["A. **Try a different angle**, apply another skill or approach.";
         "B. **Leverage the environment**, find cover or tools nearby.";
         "C. **Withdraw briefly**, reassess and plan your next move."]
  else if is_str kind "attack" then
    if is_true success then
      ["A. **Press the attack**, keep the pressure on your target.";
       "B. **Grapple or shove**, control their movement to gain advantage.";
       "C. **Withdraw to cover**, reposition before their counterattack."]
    else
      ["A. **Feint then strike**, change timing to throw them off.";
       "B. **Disengage and reposition**, set up a better line or range.";
       "C. **Switch tactics**, try a different target or approach."]
  else if is_str kind "save" then
    if is_true success then
      ["A. **Push the advantage**, advance while the danger subsides.";
       "B. **Aid an ally**, help someone still in peril.";
       "C. **Secure a safer position**, reduce future risk."]
    else
      ["A. **Seek cover immediately**, minimize ongoing effects.";
       "B. **Use a resource**, potion or feature to mitigate harm.";
       "C. **Call for aid**, coordinate with allies."]
  else if is_str kind "initiative" then
    ["A. **Act decisively**, take the first aggressive move.";
     "B. **Hold and observe**, wait for an opening.";
     "C. **Reposition**, move to advantageous terrain."]
  else
    ["A. **Approach cautiously**, gather more information before acting.";
     "B. **Create a distraction**, change the situation in your favor.";
     "C. **Withdraw and reassess**, plan a better approach."].

(** The line feed. *)
Definition nl : string := String (ascii_of_nat 10) EmptyString.

Definition build_lettered_options (kind skill : option string)
    (success : option bool) : string :=
  nl ++ join nl (lettered_options kind skill success).

(** ** The roll follow-up (main.py, lines 205-331) *)

(** [class DMRequest(BaseModel)]; the field [context], a dict that no code
    of the service reads, is left out. *)
Record DMRequest : Type := mkDMRequest {
  session_id : option string;
  message : string;
  state_section : option string;
  history : option (list Turn)
}.

(** [req.history or []] *)
Definition history_of (req : DMRequest) : list Turn :=
  match history req with Some h => h | None => [] end.

Definition dm_segment (t : string) : NarrationSegment :=
  mkNarrationSegment "dm" t None None.

Definition roll_followup_from_history (req : DMRequest) : option DMResponse :=
  match extract_roll_total (message req) with
  | None => None
  | Some result =>
      let ctx := resolve_pending_roll (history_of req) in
      let summary :=
        outcome_line (last_kind ctx) (last_skill ctx) (last_dc ctx)
          (last_ac ctx) result in
      let flag :=
        success_flag (last_kind ctx) (last_dc ctx) (last_ac ctx) result in
      let text :=
        summary ++ " " ++ "What do you do next?"
        ++ build_lettered_options (last_kind ctx) (last_skill ctx) flag in
      Some (mkDMResponse text (Some [dm_segment text]) (Some []))
  end.

(** ** RequestClassifier (main.py, lines 333-406) *)

(** The same pattern as [re_dc], compiled with [re.IGNORECASE]. *)
Definition re_dc_i : regex :=
  seqs [Bnd;
        Alt (lit_i "dc")
            (seqs [lit_i "difficulty"; Star is_space; lit_i "class"]);
        Star is_space; Grp (plus is_digit); Bnd].

Definition skills : list string := skill_list.

Definition synonyms : list (string * list string) :=
  [("stealth", ["sneak"; "sneaking"; "sneakily"; "quiet"; "quietly"; "hide";
                "hidden"; "shadows"; "creep"; "silently"; "tiptoe"]);
   ("deception", ["diversion"; "distract"; "distracting"; "bluff"; "mislead";
                  "decoy"]);
   ("athletics", ["throw"; "toss"; "hurl"; "shove"; "lift"; "climb"; "jump";
                  "grapple"]);
   ("acrobatics", ["tumble"; "flip"; "balance"; "dodge"; "roll away"]);
   ("persuasion", ["persuade"; "convince"; "appeal"; "negotiate"; "bargain";
                   "charm"]);
   ("intimidation", ["intimidate"; "threaten"; "menace"; "coerce"; "scare"]);
   ("investigation", ["search"; "examine"; "inspect"; "analyze"; "study";
                      "look over"]);
   ("perception", ["look"; "listen"; "scan"; "spot"; "notice"; "observe";
                   "hear"]);
   ("sleight of hand", ["pickpocket"; "palm"; "conceal"; "snatch";
                        "nimble fingers"]);
   ("survival", ["track"; "forage"; "navigate"; "trail"])].

(** [for skill_name, words in synonyms: if any(w in m ...): ...; break] *)
Fixpoint detect_skill (table : list (string * list string)) (m : string)
  : option string :=
  match table with
  | [] => None
  | (skill_name, words) :: rest =>
      if existsb (fun w => contains w m) words then Some skill_name
      else detect_skill rest m
  end.

Definition check_request (purpose : string) (parsed_dc : option Z)
  : RollRequest :=
  mkRollRequest "check" (Some "1d20+3") (Some purpose) parsed_dc None None None.

(** [for skill in skills: if ...: roll_requests.append(...); break] *)
Fixpoint literal_skill_loop (sks : list string) (m : string)
    (parsed_dc : option Z) (roll_requests : list RollRequest)
  : list RollRequest :=
  match sks with
  | [] => roll_requests
  | skill :: rest =>
      if contains skill m || contains ("roll for " ++ skill) m
      then (roll_requests
              ++ [check_request (title skill ++ " check") parsed_dc])%list
      else literal_skill_loop rest m parsed_dc roll_requests
  end.

(** [any(r.type == "check" for r in roll_requests)] *)
Definition any_check (roll_requests : list RollRequest) : bool :=
  existsb (fun r => rr_type r =? "check") roll_requests.

Definition initiative_request : RollRequest :=
  mkRollRequest "initiative" (Some "1d20+2") (Some "Roll initiative")
    None None None None.

Definition attack_request : RollRequest :=
  mkRollRequest "attack" (Some "1d20+5") (Some "Attack roll")
    None (Some 13%Z) None None.

Definition save_request (parsed_dc : option Z) : RollRequest :=
  mkRollRequest "save" (Some "1d20+2") (Some "Saving throw")
    parsed_dc None None None.

(** [xs.append(x)] under a condition. *)
Definition append_if {X : Type} (b : bool) (x : X) (xs : list X) : list X :=
  if b then (xs ++ [x])%list else xs.

(** The requests built before the test for "save" (lines 335-378). *)
Definition requests_before_save (m : string) (parsed_dc : option Z)
  : list RollRequest :=
  let roll_requests := [] in
  let roll_requests :=
    append_if (contains "initiative" m) initiative_request roll_requests in
  let roll_requests :=
    append_if (contains "attack" m) attack_request roll_requests in
  let detected_skill := detect_skill synonyms m in
  let roll_requests := literal_skill_loop skills m parsed_dc roll_requests in
  let roll_requests :=
    append_if (truthy detected_skill && negb (any_check roll_requests))
      (check_request (title (or_empty detected_skill) ++ " check") parsed_dc)
      roll_requests in
  append_if (contains "check" m && negb (any_check roll_requests))
    (check_request "Ability check" parsed_dc) roll_requests.

(** The list [roll_requests] of [heuristic_response]. *)
Definition classify_new_request (message : string) : list RollRequest :=
  let m := lower message in
  let parsed_dc := mention re_dc_i m in
  append_if (contains "save" m) (save_request parsed_dc)
    (requests_before_save m parsed_dc).

(** [{...}.get(rr.type, rr.type.title())] *)
Definition type_label (t : string) : string :=
  if t =? "check" then "Check"
  else if t =? "save" then "Saving Throw"
  else if t =? "attack" then "Attack"
  else if t =? "damage" then "Damage"
  else if t =? "initiative" then "Initiative"
  else title t.

(** [_truthy(os.getenv("INLINE_OPTIONS"))], on the value of the variable. *)
Definition env_truthy (v : option string) : bool :=
  one_of (lower (strip (or_empty v))) ["1"; "true"; "yes"; "on"].

Definition base_text : string :=
  "The scene awaits your action. Describe what you do next—I'll respond with clear consequences and options.".

Definition heuristic_response (inline_options : option string)
    (req : DMRequest) : DMResponse :=
  let roll_requests := classify_new_request (message req) in
  let text :=
    match roll_requests with
    | rr :: _ =>
        let purpose := or_default (rr_purpose rr) (type_label (rr_type rr)) in
        let target :=
          match rr_dc rr with
          | Some dc => " (DC " ++ py_str dc ++ ")"
          | None =>
              match rr_ac rr with
              | Some ac => " (AC " ++ py_str ac ++ ")"
              | None => ""
              end
          end in
        "Please roll " ++ purpose ++ target ++ "."
    | [] =>
        if env_truthy inline_options && negb (contains "A." base_text)
        then base_text ++ build_lettered_options None None None
        else base_text
    end in
  mkDMResponse text (Some [dm_segment text]) (Some roll_requests).

(** ** The endpoint [/dm/respond] (main.py, lines 329-331 and 408-570) *)

Section Respond.

(** The branch taken with an API key: the answer made from the completion
    of the language model, [None] when there is no key or every attempt
    failed.  The network is outside of the model. *)
Variable openrouter : DMRequest -> option DMResponse.

(** The environment variable [INLINE_OPTIONS]. *)
Variable inline_options : option string.

Definition respond (req : DMRequest) : DMResponse :=
  match roll_followup_from_history req with
  | Some followup => followup
  | None =>
      match openrouter req with
      | Some generated => generated
      | None => heuristic_response inline_options req
      end
  end.

End Respond.

(** ** OptionsNormalizer (main.py, lines 575-594) *)

(** The pattern of [re.match] on a line: [^], the group [([A-C])], [\.],
    [\s*], a second group taking any run of characters but the newline,
    and [$]. *)
Definition re_option : regex :=
  seqs [Bol; Grp (Cls (between 65 67)); chr "."; Star is_space;
        Grp (Star dot); Eol].

(** [[ln.strip() for ln in raw.splitlines() if ln.strip()]] *)
Definition stripped_lines (raw : string) : list string :=
  map strip
    (filter (fun ln => negb (strip ln =? EmptyString)) (splitlines raw)).

(** The body of [for ln in lines]: what a line adds to [picked]. *)
Definition format_line (ln : string) : option string :=
  match rmatch re_option ln with
  | Some m =>
      let body := strip (group 2 m) in
      if contains "," body then
        match split_comma body with
        | Some (head, tail) =>
            Some (group 1 m ++ ". **" ++ strip head ++ "**, " ++ strip tail)
        | None => None
        end
      else Some (group 1 m ++ ". **" ++ body ++ "**")
  | None => None
  end.

Fixpoint pick (lines : list string) (picked : list string) : list string :=
  match lines with
  | [] => picked
  | ln :: rest =>
      match format_line ln with
      | Some formatted => pick rest (picked ++ [formatted])%list
      | None => pick rest picked
      end
  end.

Definition filler (label : string) : string :=
  label ++ ". **Explore another angle**, adapt your approach to the situation.".

(** [while len(picked) < 3: ...]; [fuel] bounds the number of rounds, and
    [None] is the [IndexError] of the lookup of the label. *)
Fixpoint pad (fuel : nat) (picked : list string) : option (list string) :=
  match fuel with
  | O => Some picked
  | S fuel' =>
      if (List.length picked <? 3)%nat then
        let idx := List.length picked in
        match nth_error ["A"; "B"; "C"] idx with
        | Some label => pad fuel' (picked ++ [filler label])%list
        | None => None
        end
      else Some picked
  end.

(** [picked[:3]] *)
Definition normalize_options (raw : string) : option (list string) :=
  match pad 3 (pick (stripped_lines raw) []) with
  | Some picked => Some (firstn 3 picked)
  | None => None
  end.

(** ** Notions used to state the properties of the scan *)

(** The text that the scan reads in an entry: none unless the role is
    "assistant". *)
Definition assistant_text (h : Turn) : option string :=
  if is_str (role h) "assistant" then Some (lower (or_empty (content h)))
  else None.

(** The kind and the skill that an assistant text gives, if any: the tests
    of [scan_turn] in their order. *)
Definition find_skill (content : string) : option string :=
  find (fun s => contains (s ++ " check") content
                 || contains ("roll " ++ s) content
                 || contains ("roll for " ++ s) content) skill_list.

Definition find_save (content : string) : option string :=
  find (fun abil => contains (abil ++ " saving throw") content) saves.

Definition classify (content : string) : option (string * option string) :=
  if existsb (fun kw => contains kw content) ["initiative"; "roll initiative"]
  then Some ("initiative", None)
  else match find_skill content with
       | Some s => Some ("check", Some s)
       | None =>
           match find_save content with
           | Some abil => Some ("save", Some abil)
           | None =>
               if contains "attack roll" content
                  || contains "make an attack" content
                  || contains "please roll attack" content
               then Some ("attack", None)
               else None
           end
       end.

(** The targets of [st] after the two searches of an assistant text. *)
Definition note_targets (content : string) (st : Scan) : Scan :=
  let st := match mention re_dc content with
            | Some v => set_dc v st
            | None => st
            end in
  match mention re_ac content with
  | Some v => set_ac v st
  | None => st
  end.

(** An entry yields a kind when the body of the loop, entered with no kind
    found yet, leaves by [break]. *)
Definition yields_kind (h : Turn) : bool :=
  match snd (scan_turn h scan_init) with
  | Break => true
  | Continue => false
  end.

(** The three ways through the body of the loop. *)
Inductive turn_case (h : Turn) (st : Scan) : Prop :=
| Skipped :
    assistant_text h = None -> yields_kind h = false ->
    scan_turn h st = (st, Continue) -> turn_case h st
| Noted c :
    assistant_text h = Some c -> yields_kind h = false ->
    scan_turn h st = (note_targets c st, Continue) -> turn_case h st
| Stopped c st' :
    assistant_text h = Some c -> yields_kind h = true ->
    scan_turn h st = (st', Break) ->
    last_dc st' = last_dc (note_targets c st) ->
    last_ac st' = last_ac (note_targets c st) ->
    turn_case h st.

(** The entries that the loop visits, given the entries in the order of
    the visit: all up to and including the first that yields a kind. *)
Fixpoint scanned (hs : list Turn) : list Turn :=
  match hs with
  | [] => []
  | h :: hs' => if yields_kind h then [h] else h :: scanned hs'
  end.

(** The entries of a history that the scan visits, most recent first. *)
Definition visited (history : list Turn) : list Turn :=
  scanned (rev (last_n 8 history)).

(** The DC, the AC that an entry mentions. *)
Definition dc_of (h : Turn) : option Z :=
  match assistant_text h with
  | Some c => mention re_dc c
  | None => None
  end.

Definition ac_of (h : Turn) : option Z :=
  match assistant_text h with
  | Some c => mention re_ac c
  | None => None
  end.

(** The values mentioned by a list of entries, in the order of the list. *)
Fixpoint mentions (f : Turn -> option Z) (hs : list Turn) : list Z :=
  match hs with
  | [] => []
  | h :: hs' =>
      match f h with
      | Some v => v :: mentions f hs'
      | None => mentions f hs'
      end
  end.

(** [last_error l]: the last element of a list. *)
Definition last_error {X : Type} (l : list X) : option X := hd_error (rev l).

(** The canonical shape of an option: a letter among A, B, C, a bold head
    and possibly a tail after a comma. *)
Definition canonical (label : string) (e : string) : Prop :=
  In label ["A"; "B"; "C"]
  /\ exists head,
       e = label ++ ". **" ++ head ++ "**"
       \/ exists tail, e = label ++ ". **" ++ head ++ "**, " ++ tail.

(** The menu of the last branch of [build_lettered_options]. *)
Definition generic_menu : list string :=
  ["A. **Approach cautiously**, gather more information before acting.";
   "B. **Create a distraction**, change the situation in your favor.";
   "C. **Withdraw and reassess**, plan a better approach."].

(** A skill with menus of its own under a check: one of the six names that
    [build_lettered_options] tests for, in any case of letters. *)
Definition listed_skill (skill : string) : bool :=
  one_of (lower skill)
    ["deception"; "persuasion"; "intimidation"; "stealth"; "athletics";
     "acrobatics"].

(** The requests that the classifier makes before the test for "save". *)
Definition not_a_save (r : RollRequest) : Prop :=
  rr_type r = "initiative" \/ rr_type r = "attack" \/ rr_type r = "check".

(** The three fillers, by position. *)
Definition fillers : list string := map filler ["A"; "B"; "C"].

(** The lines of [raw] that the pattern accepts, formatted. *)
Definition formatted_lines (raw : string) : list string :=
  pick (stripped_lines raw) [].

End Dm.

(** ** The two endpoints with their language-model branch
       (main.py, lines 408-570 and 596-692) *)

Module Service.
Import Text Re Dm.

(** The model that is always tried last. *)
Definition free_model : string := "google/gemini-2.0-flash-exp:free".

(** [models_to_try]: the requested model, if the variable is set to a
    non-empty text, then the free model unless it is the requested one. *)
Definition models_to_try (requested_model : option string) : list string :=
  let models :=
    if truthy requested_model then [or_empty requested_model] else [] in
  if existsb (String.eqb free_model) models then models
  else (models ++ [free_model])%list.

(** The answer built from a completion [text] (lines 464-521): the roll
    requests come from the same statements as in [heuristic_response], and
    the menu is appended only if the variable allows it, no roll is
    requested and the text has no "A." yet. *)
Definition generated_response (inline_options : option string)
    (text : string) (req : DMRequest) : DMResponse :=
  let roll_requests := classify_new_request (message req) in
  let text :=
    if env_truthy inline_options
       && (List.length roll_requests =? 0)%nat
       && negb (contains "A." text)
    then rstrip text ++ " " ++ "What do you do next?"
         ++ build_lettered_options None None None
    else text in
  mkDMResponse text (Some [dm_segment text]) (Some roll_requests).

Section Network.

(** The call of the completion API for a model: the text of the
    completion when the status is 200 and the body has one, [None] for any
    other status and for every exception, which the loop catches. *)
Variable post : string -> DMRequest -> option string.

Variable inline_options : option string.

(** [for mdl in models_to_try: ...]: the first model that answers. *)
Fixpoint try_models (models : list string) (req : DMRequest)
  : option DMResponse :=
  match models with
  | [] => None
  | mdl :: rest =>
      match post mdl req with
      | Some text => Some (generated_response inline_options text req)
      | None => try_models rest req
      end
  end.

(** The branch [if api_key:], [None] when it falls through to
    [heuristic_response]. *)
Definition openrouter_branch (api_key requested_model : option string)
    (req : DMRequest) : option DMResponse :=
  if truthy api_key then try_models (models_to_try requested_model) req
  else None.

(** The endpoint [/dm/respond] with its environment. *)
Definition respond_service (api_key requested_model : option string)
    (req : DMRequest) : DMResponse :=
  respond (openrouter_branch api_key requested_model) inline_options req.

End Network.

(** The list returned by [/dm/options] without a key and after any
    failure. *)
Definition generic_options : list string :=
  ["A. **Approach cautiously**, gather information before acting.";
   "B. **Create a distraction**, shift attention in your favor.";
   "C. **Withdraw and reassess**, plan a better approach."].

(** The options of [/dm/options]: [completion] is the text of the
    completion, [None] when the call fails or the status is not 200 (the
    [HTTPException] raised then is caught by the same [except]). *)
Definition generate_options (api_key : option string)
    (completion : option string) : list string :=
  if negb (truthy api_key) then generic_options
  else match completion with
       | Some text =>
           match normalize_options text with
           | Some options => options
           | None => generic_options
           end
       | None => generic_options
       end.

(** What the test of the repository asserts of an option: a letter of A,
    B, C, then a dot and a blank. *)
Definition lettered (o : string) : bool :=
  match o with
  | String c (String d (String e _)) =>
      between 65 67 c && Ascii.eqb d "." && Ascii.eqb e " "
  | _ => false
  end.

(** Two entries of a history that the scan cannot tell apart: the same
    entry, or two entries that are both not of the assistant. *)
Definition same_for_scan (a b : Turn) : Prop :=
  a = b \/ (assistant_text a = None /\ assistant_text b = None).

(** [s] without its longest prefix of characters of the class [p]: where a
    greedy [p*] stops. *)
Fixpoint skip_class (p : ascii -> bool) (s : string) : string :=
  match s with
  | EmptyString => EmptyString
  | String c s' => if p c then skip_class p s' else s
  end.

(** A character that is no line boundary of [str.splitlines]. *)
Definition no_break (c : ascii) : bool := negb (is_linebreak c).

(** A line that the pattern of the normaliser accepts: a letter of A, B, C
    and a dot, then anything. *)
Definition option_line (ln : string) : Prop :=
  exists c rest, ln = String c (String "." rest) /\ between 65 67 c = true.

(** What the normaliser makes of the letter [c] and of the text [rest]
    that follows the dot on an accepted line. *)
Definition formatted (c : ascii) (rest : string) : string :=
  let body := strip (lstrip rest) in
  match split_comma body with
  | Some (head, tail) =>
      String c EmptyString ++ ". **" ++ strip head ++ "**, " ++ strip tail
  | None => String c EmptyString ++ ". **" ++ body ++ "**"
  end.

(** A character that is no comma. *)
Definition not_comma (c : ascii) : bool := negb (code c =? 44)%nat.

(** The entry of the history that an answer of [heuristic_response]
    becomes when the client sends it back. *)
Definition asked (inline_options : option string) (req : DMRequest) : Turn :=
  mkTurn (Some "assistant")
    (Some (text (heuristic_response inline_options req))).

(** The small letters and the white space: the characters of the keywords
    of the scan. *)
Definition small (c : ascii) : bool := is_lower c || is_space c.

Definition not_small (c : ascii) : bool := negb (small c).

(** A keyword of small letters and blanks that does not occur in "dc ". *)
Definition plain (p : string) : bool :=
  all_chars small p && negb (p =? EmptyString) && negb (contains p "dc ").

(** The character before the place where a greedy [p*] stops. *)
Fixpoint last_prev (p : ascii -> bool) (prev : option ascii) (s : string)
  : option ascii :=
  match s with
  | String c s' => if p c then last_prev p (Some c) s' else prev
  | EmptyString => prev
  end.

(** The patterns without a group that read characters of [L] only. *)
Inductive within (L : ascii -> bool) : regex -> Prop :=
| W_Eps : within L Eps
| W_Bnd : within L Bnd
| W_Cls p : (forall c, p c = true -> L c = true) -> within L (Cls p)
| W_Star p : (forall c, p c = true -> L c = true) -> within L (Star p)
| W_Seq r1 r2 : within L r1 -> within L r2 -> within L (Seq r1 r2)
| W_Alt r1 r2 : within L r1 -> within L r2 -> within L (Alt r1 r2).

(** The patterns that read characters of [L] and then [(\d+)\b]. *)
Inductive reads_number (L : ascii -> bool) : regex -> Prop :=
| RN_end : reads_number L (Seq (Grp (plus is_digit)) Bnd)
| RN_seq pre r :
    within L pre -> reads_number L r -> reads_number L (Seq pre r).

(** The patterns that cannot match without reading the literal [w]. *)
Inductive requires (w : string) : regex -> Prop :=
| Req_here rest : requires w (Seq (lit w) rest)
| Req_later pre r : requires w r -> requires w (Seq pre r).

(** The request for a check that a message gives rise to, if any: a skill
    named in the message, else a skill found through its synonyms, else the
    word "check" alone. *)
Definition check_part (m : string) (parsed_dc : option Z) : list RollRequest :=
  match find (fun skill => contains skill m
                           || contains ("roll for " ++ skill) m) skills with
  | Some skill => [check_request (title skill ++ " check") parsed_dc]
  | None =>
      match detect_skill synonyms m with
      | Some skill => [check_request (title skill ++ " check") parsed_dc]
      | None =>
          if contains "check" m
          then [check_request "Ability check" parsed_dc]
          else []
      end
  end.

(** The kinds and skills that a scan can end with. *)
Definition resolved_shape (st : Scan) : Prop :=
  (last_kind st = None /\ last_skill st = None)
  \/ (last_kind st = Some "initiative" /\ last_skill st = None)
  \/ (last_kind st = Some "attack" /\ last_skill st = None)
  \/ (last_kind st = Some "check"
      /\ exists s, last_skill st = Some s /\ In s skill_list)
  \/ (last_kind st = Some "save"
      /\ exists s, last_skill st = Some s /\ In s saves).

End Service.

(** ** Sample inputs used in the examples below *)

Module Samples.
Import Text Re Dm Service.

(** A history with two DC mentions and two AC mentions among the visited
    entries: the request for the roll, then a later remark. *)
Definition two_mentions : list Turn :=
  [mkTurn (Some "assistant")
     (Some "Roll for Stealth, DC 14; the guard has AC 16.");
   mkTurn (Some "user") (Some "What about the door?");
   mkTurn (Some "assistant")
     (Some "The lock is DC 18 and the golem behind it AC 17.")].

(** A request for a check that names no DC. *)
Definition bare_check : list Turn :=
  [mkTurn (Some "assistant") (Some "Please make a Perception check.")].

(** The end of a history whose older part must not matter. *)
Definition stealth_request : Turn :=
  mkTurn (Some "assistant") (Some "Make a Stealth check, DC 14.").

Definition older_initiative : list Turn :=
  [mkTurn (Some "assistant") (Some "Roll initiative! AC 19, DC 20.")].

(** A message that reports a total and has words of the classifier. *)
Definition reported_roll : DMRequest :=
  mkDMRequest None "I rolled 16, then I attack and save the child" None
    (Some [stealth_request]).

(** A message that asks for an attack and a save and states a DC. *)
Definition attack_and_save : string :=
  "I attack the troll and try to save the child (DC 15)".

(** A message with the word in capitals and a DC. *)
Definition shouted_save : string := "I SAVE him, DC 15".

(** The example of the specification for the normaliser. *)
Definition two_options : string := "A. Sneak away" ++ nl ++ "B. Fight".

(** A menu in the shape that the prompt of [/dm/options] asks the language
    model for. *)
Definition canonical_menu : string :=
  "A. **Sneak away**, slip into the shadows." ++ nl
  ++ "B. **Fight**, draw your blade." ++ nl
  ++ "C. **Parley**, raise an open hand.".

(** A single option that is lettered B. *)
Definition only_b : string := "B. Fight".

(** The end-to-end example of the specification. *)
Definition reported_16 : DMRequest :=
  mkDMRequest None "I rolled 16" None (Some [stealth_request]).

(** A history in which only the player speaks of a check. *)
Definition player_only : DMRequest :=
  mkDMRequest None "I rolled 9" None
    (Some [mkTurn (Some "user") (Some "I make a stealth check, DC 5.");
           mkTurn (Some "Assistant") (Some "Roll initiative!")]).

(** An entry that calls for initiative and names a check as well. *)
Definition initiative_and_check : Turn :=
  mkTurn (Some "assistant")
    (Some "Make a Stealth check (DC 15), then roll Initiative.").

(** A message with a synonym of stealth and the name of another skill. *)
Definition sneak_and_perception : string :=
  "I sneak closer and use Perception on the door".

(** A message that asks for everything at once. *)
Definition everything_at_once : DMRequest :=
  mkDMRequest None
    "Initiative! I attack, then a stealth check to hide, DC 15, and save"
    None None.

(** A network on which only the free model answers. *)
Definition only_free_answers (mdl : string) (req : DMRequest)
  : option string :=
  if mdl =? free_model then Some "The door creaks open." else None.

(** A network that is down. *)
Definition network_down (mdl : string) (req : DMRequest) : option string :=
  None.

(** A request that reports no roll and asks for a stealth check. *)
Definition sneak_request : DMRequest :=
  mkDMRequest None "I try to sneak past the guards (DC 14)" None None.

(** A text with one accepted line among lines that are discarded. *)
Definition mixed_lines : string :=
  "  B. Fight  " ++ nl ++ "b. run" ++ nl ++ "1. hide" ++ nl ++ "A) talk".

(** A request that names no skill and no attack: the word "check" alone. *)
Definition ability_check_request : DMRequest :=
  mkDMRequest None "I make a check, DC 15" None None.

(** A request with the word "save" alone. *)
Definition save_only_request : DMRequest :=
  mkDMRequest None "I try to save my friend" None None.

(** Two entries of the player around an answer of the service. *)
Definition player_sneaks : Turn :=
  mkTurn (Some "user") (Some "I try to sneak past the guards (DC 14)").

Definition player_reports : Turn :=
  mkTurn (Some "user") (Some "I rolled 15").

(** The pending roll of the example of the specification. *)
Definition stealth_dc14 : Scan :=
  mkScan (Some "check") (Some "stealth") (Some 14%Z) None.

End Samples.

(** * Properties *)

Import Text Re Dm Service Samples.

(** ** The text primitives on examples *)

Example splitlines_ex :
  splitlines ("a" ++ String (ascii_of_nat 13) nl ++ "b" ++ nl ++ nl ++ "c" ++ nl)
  = ["a"; "b"; ""; "c"].
Proof. reflexivity. Qed.

Example title_ex : title "sleight of hand" = "Sleight Of Hand".
Proof. reflexivity. Qed.

Example py_str_ex : py_str 0 = "0" /\ py_str 15 = "15" /\ py_str (-5) = "-5".
Proof. repeat split. Qed.

Example strip_ex : strip "  a b  " = "a b" /\ strip "   " = "".
Proof. split; reflexivity. Qed.

(** ** The patterns and the service on examples *)

Example search_dc_ex :
  search re_dc "the dc12 is" = Some ["12"]
  /\ search re_dc "dc 15x" = None
  /\ search re_dc "difficulty  class 9" = Some ["9"]
  /\ search re_ac "ac 15" = Some ["15"]
  /\ search re_ac "attack 15" = None.
Proof. repeat split; reflexivity. Qed.

Example search_rolled_ex :
  search re_i_rolled "i rolled a 12" = None
  /\ search re_rolled "i rolled a 12" = Some ["12"]
  /\ search re_rolled "rolled 1d20+3 = 15 ok rolled: 17" = Some ["17"]
  /\ search re_total "my total: 10" = Some ["10"].
Proof. repeat split; reflexivity. Qed.

Example classify_sneak_ex :
  classify_new_request "I try to sneak past the guards (DC 14)"
  = [check_request "Stealth check" (Some 14%Z)].
Proof. reflexivity. Qed.

Example heuristic_sneak_ex :
  text (heuristic_response None
          (mkDMRequest None "I try to sneak past the guards (DC 14)" None None))
  = "Please roll Stealth check (DC 14).".
Proof. reflexivity. Qed.

Example followup_stealth_ex :
  roll_followup_from_history
    (mkDMRequest None "I rolled 16" None (Some [stealth_request]))
  = Some (let t := "Your stealth check is 16 (success). What do you do next?"
                   ++ build_lettered_options (Some "check") (Some "stealth")
                        (Some true) in
          mkDMResponse t (Some [dm_segment t]) (Some [])).
Proof. reflexivity. Qed.

(** ** The matcher is sound for the relation *)

Lemma run_star_sound {A : Type} (p : ascii -> bool)
    (k : option ascii -> string -> list string -> option A) gs x :
  forall s prev,
    run (Star p) k prev s gs = Some x ->
    exists prev' s', matches (Star p) prev s gs prev' s' gs
                     /\ k prev' s' gs = Some x.
Proof.
  induction s as [|c s IH]; intros prev H; simpl in H.
  - exists prev, EmptyString. split; [constructor | exact H].
  - destruct (p c) eqn:Hp.
    + match type of H with
      | match ?e with _ => _ end = _ => destruct e as [y|] eqn:Hloop
      end.
      * inversion H; subst y.
        destruct (IH (Some c) Hloop) as (prev' & s' & Hm & Hk).
        exists prev', s'. split; [now apply M_Star_step | exact Hk].
      * exists prev, (String c s). split; [constructor | exact H].
    + exists prev, (String c s). split; [constructor | exact H].
Qed.

Lemma run_sound {A : Type} (r : regex) :
  forall (k : option ascii -> string -> list string -> option A) prev s gs x,
    run r k prev s gs = Some x ->
    exists prev' s' gs', matches r prev s gs prev' s' gs'
                         /\ k prev' s' gs' = Some x.
Proof.
  induction r as [|p|p|r1 IH1 r2 IH2|r1 IH1 r2 IH2|r IH| | |];
    intros k prev s gs x H.
  - exists prev, s, gs. split; [constructor | exact H].
  - simpl in H. destruct s as [|c s]; [discriminate|].
    destruct (p c) eqn:Hp; [|discriminate].
    exists (Some c), s, gs. split; [now constructor | exact H].
  - destruct (run_star_sound p k gs x s prev H) as (prev' & s' & Hm & Hk).
    now exists prev', s', gs.
  - simpl in H. apply IH1 in H. destruct H as (p1 & s1 & g1 & Hm1 & H).
    apply IH2 in H. destruct H as (p2 & s2 & g2 & Hm2 & H).
    exists p2, s2, g2. split; [econstructor; eassumption | exact H].
  - simpl in H. destruct (run r1 k prev s gs) as [y|] eqn:H1.
    + inversion H; subst y. apply IH1 in H1.
      destruct H1 as (p1 & s1 & g1 & Hm & Hk).
      exists p1, s1, g1. split; [now apply M_Alt_left | exact Hk].
    + apply IH2 in H. destruct H as (p1 & s1 & g1 & Hm & Hk).
      exists p1, s1, g1. split; [now apply M_Alt_right | exact Hk].
  - simpl in H. apply IH in H. destruct H as (p1 & s1 & g1 & Hm & Hk).
    exists p1, s1, (g1 ++ [consumed s s1])%list.
    split; [now constructor | exact Hk].
  - simpl in H. destruct (at_boundary prev s) eqn:Hb; [|discriminate].
    exists prev, s, gs. split; [now constructor | exact H].
  - simpl in H. destruct prev; [discriminate|].
    exists None, s, gs. split; [constructor | exact H].
  - simpl in H. destruct (at_end s) eqn:He; [|discriminate].
    exists prev, s, gs. split; [now constructor | exact H].
Qed.

(** ** What a match consumes and captures *)

Lemma length_app_string (a b : string) :
  String.length (a ++ b) = (String.length a + String.length b)%nat.
Proof. induction a as [|c a IH]; simpl; [reflexivity | now rewrite IH]. Qed.

Lemma app_string_assoc (a b c : string) : (a ++ b) ++ c = a ++ (b ++ c).
Proof. induction a as [|x a IH]; simpl; [reflexivity | now rewrite IH]. Qed.

Lemma substring_prefix (d s : string) :
  substring 0 (String.length d) (d ++ s) = d.
Proof.
  induction d as [|c d IH]; simpl.
  - destruct s; reflexivity.
  - now rewrite IH.
Qed.

Lemma consumed_app (d s : string) : consumed (d ++ s) s = d.
Proof.
  unfold consumed. rewrite length_app_string.
  replace (String.length d + String.length s - String.length s)%nat
    with (String.length d) by lia.
  apply substring_prefix.
Qed.

Lemma matches_suffix r prev s gs prev' s' gs' :
  matches r prev s gs prev' s' gs' -> exists d, s = d ++ s'.
Proof.
  induction 1.
  - now exists EmptyString.
  - now exists (String c EmptyString).
  - now exists EmptyString.
  - destruct IHmatches as [d ->]. now exists (String c d).
  - destruct IHmatches1 as [d1 ->]. destruct IHmatches2 as [d2 ->].
    exists (d1 ++ d2). now rewrite app_string_assoc.
  - assumption.
  - assumption.
  - assumption.
  - now exists EmptyString.
  - now exists EmptyString.
  - now exists EmptyString.
Qed.

Lemma matches_star_inv p prev s gs prev' s' gs' :
  matches (Star p) prev s gs prev' s' gs' ->
  gs' = gs /\ exists d, s = d ++ s' /\ all_chars p d = true.
Proof.
  intros H. remember (Star p) as r eqn:Hr.
  induction H; try discriminate; inversion Hr; subst.
  - split; [reflexivity|]. now exists EmptyString.
  - destruct (IHmatches eq_refl) as [_ (d & -> & Hd)].
    split; [reflexivity|]. exists (String c d). split; [reflexivity|].
    simpl. now rewrite H, Hd.
Qed.

Lemma matches_groupless r prev s gs prev' s' gs' :
  matches r prev s gs prev' s' gs' -> groupless r = true -> gs' = gs.
Proof.
  induction 1; simpl; intros Hg; try reflexivity; try discriminate.
  - apply andb_prop in Hg. destruct Hg as [H1 H2].
    rewrite (IHmatches2 H2). now apply IHmatches1.
  - apply andb_prop in Hg. now apply IHmatches.
  - apply andb_prop in Hg. now apply IHmatches.
Qed.

(** The group of a number pattern is a non-empty run of digits. *)
Lemma matches_plus_digits prev s gs prev' s' gs' :
  matches (plus is_digit) prev s gs prev' s' gs' ->
  gs' = gs /\ exists c d, s = String c d ++ s'
                         /\ all_chars is_digit (String c d) = true.
Proof.
  unfold plus. intros H. inversion H; subst.
  match goal with
  | H1 : matches (Cls _) _ _ _ _ _ _, H2 : matches (Star _) _ _ _ _ _ _ |- _ =>
      inversion H1; subst; apply matches_star_inv in H2;
      destruct H2 as [-> (d & -> & Hd)]
  end.
  split; [reflexivity|]. exists c, d. split; [reflexivity|].
  simpl. rewrite Hd.
  match goal with Hc : is_digit c = true |- _ => now rewrite Hc end.
Qed.

Lemma number_pattern_group r :
  number_pattern r ->
  forall prev s gs prev' s' gs',
    matches r prev s gs prev' s' gs' ->
    exists c d, gs' = (gs ++ [String c d])%list
                /\ all_chars is_digit (String c d) = true.
Proof.
  induction 1 as [|pre r Hpre Hr IH]; intros prev s gs prev' s' gs' Hm.
  - inversion Hm; subst.
    match goal with
    | H1 : matches (Grp _) _ _ _ _ _ _, H2 : matches Bnd _ _ _ _ _ _ |- _ =>
        inversion H2; subst; inversion H1; subst
    end.
    match goal with
    | H1 : matches (plus _) _ _ _ _ _ _ |- _ =>
        apply matches_plus_digits in H1;
        destruct H1 as [-> (c & d & -> & Hd)]
    end.
    exists c, d. split; [|exact Hd]. now rewrite consumed_app.
  - inversion Hm; subst.
    match goal with
    | H1 : matches pre _ _ _ _ _ _, H2 : matches r _ _ _ _ _ _ |- _ =>
        apply matches_groupless in H1; [subst | exact Hpre];
        apply IH in H2; exact H2
    end.
Qed.

Lemma digits_value_some d :
  all_chars is_digit d = true -> forall acc, exists v, digits_value acc d = Some v.
Proof.
  induction d as [|c d IH]; simpl; intros Hd acc.
  - now exists acc.
  - apply andb_prop in Hd. destruct Hd as [Hc Hd]. rewrite Hc. now apply IH.
Qed.

Lemma search_from_sound r :
  forall s prev gs,
    search_from r prev s = Some gs ->
    exists prev0 s0 prev' s', matches r prev0 s0 [] prev' s' gs.
Proof.
  induction s as [|c s IH]; intros prev gs H; simpl in H.
  - destruct (run r (fun _ _ g => Some g) prev EmptyString []) as [g|] eqn:Hr;
      [|discriminate].
    inversion H; subst g. apply run_sound in Hr.
    destruct Hr as (p' & s' & g' & Hm & Hk). inversion Hk; subst g'.
    now exists prev, EmptyString, p', s'.
  - destruct (run r (fun _ _ g => Some g) prev (String c s) []) as [g|] eqn:Hr.
    + inversion H; subst g. apply run_sound in Hr.
      destruct Hr as (p' & s' & g' & Hm & Hk). inversion Hk; subst g'.
      now exists prev, (String c s), p', s'.
    + now apply IH in H.
Qed.

(** On a number pattern, [int(m.group(1))] always has a value: the branch
    [except: pass] of the source is never taken, and the unguarded [int]
    of the classifier does not fail. *)
Lemma mention_defined r m gs :
  number_pattern r -> search r m = Some gs ->
  exists v, py_int (group 1 gs) = Some v.
Proof.
  intros Hr Hs. apply search_from_sound in Hs.
  destruct Hs as (p0 & s0 & p' & s' & Hm).
  destruct (number_pattern_group r Hr _ _ _ _ _ _ Hm) as (c & d & -> & Hd).
  unfold group, py_int. cbn [Nat.sub nth app].
  apply digits_value_some. exact Hd.
Qed.

Lemma mention_none_iff r m :
  number_pattern r -> (mention r m = None <-> search r m = None).
Proof.
  intros Hr. unfold mention. destruct (search r m) as [gs|] eqn:Hs.
  - destruct (mention_defined r m gs Hr Hs) as [v ->]. split; discriminate.
  - split; reflexivity.
Qed.

Lemma groupless_lit s : groupless (lit s) = true.
Proof. induction s; simpl; auto. Qed.

Lemma groupless_lit_i s : groupless (lit_i s) = true.
Proof. induction s; simpl; auto. Qed.

Lemma number_pattern_re_dc : number_pattern re_dc.
Proof. repeat (apply NP_seq; [reflexivity|]). apply NP_end. Qed.

Lemma number_pattern_re_ac : number_pattern re_ac.
Proof. repeat (apply NP_seq; [reflexivity|]). apply NP_end. Qed.

Lemma number_pattern_re_dc_i : number_pattern re_dc_i.
Proof. repeat (apply NP_seq; [reflexivity|]). apply NP_end. Qed.

Lemma number_pattern_roll r : In r roll_patterns -> number_pattern r.
Proof.
  simpl. intros [<-|[<-|[<-|[]]]];
    repeat (apply NP_seq; [reflexivity|]); apply NP_end.
Qed.

(** ** The body of the scan, case by case *)

Lemma skill_loop_find sks c st :
  skill_loop sks c st =
  match find (fun s => contains (s ++ " check") c
                       || contains ("roll " ++ s) c
                       || contains ("roll for " ++ s) c) sks with
  | Some s => set_skill s (set_kind "check" st)
  | None => st
  end.
Proof.
  induction sks as [|s sks IH]; cbn [skill_loop find]; [reflexivity|].
  destruct (contains (s ++ " check") c || contains ("roll " ++ s) c
            || contains ("roll for " ++ s) c); [reflexivity | exact IH].
Qed.

Lemma save_loop_find abils c st :
  save_loop abils c st =
  match find (fun abil => contains (abil ++ " saving throw") c) abils with
  | Some abil => set_skill abil (set_kind "save" st)
  | None => st
  end.
Proof.
  induction abils as [|a abils IH]; cbn [save_loop find]; [reflexivity|].
  destruct (contains (a ++ " saving throw") c); [reflexivity | exact IH].
Qed.

Lemma note_targets_kind c st : last_kind (note_targets c st) = last_kind st.
Proof.
  unfold note_targets.
  destruct (mention re_dc c), (mention re_ac c); reflexivity.
Qed.

Lemma note_targets_skill c st : last_skill (note_targets c st) = last_skill st.
Proof.
  unfold note_targets.
  destruct (mention re_dc c), (mention re_ac c); reflexivity.
Qed.

Lemma note_targets_dc c st :
  last_dc (note_targets c st) =
  match mention re_dc c with Some v => Some v | None => last_dc st end.
Proof.
  unfold note_targets.
  destruct (mention re_dc c), (mention re_ac c); reflexivity.
Qed.

Lemma note_targets_ac c st :
  last_ac (note_targets c st) =
  match mention re_ac c with Some v => Some v | None => last_ac st end.
Proof.
  unfold note_targets.
  destruct (mention re_dc c), (mention re_ac c); reflexivity.
Qed.

(** The body of the loop, entered with no kind found yet. *)
Lemma scan_turn_spec h st :
  last_kind st = None ->
  scan_turn h st =
  match assistant_text h with
  | None => (st, Continue)
  | Some c =>
      let st' := note_targets c st in
      match classify c with
      | Some (k, Some s) => (set_skill s (set_kind k st'), Break)
      | Some (k, None) => (set_kind k st', Break)
      | None => (st', Continue)
      end
  end.
Proof.
  intros Hk. unfold scan_turn, assistant_text.
  destruct (is_str (role h) "assistant"); [|reflexivity].
  cbn [negb]. cbv zeta.
  set (c := lower (or_empty (content h))).
  change (match mention re_ac c with
          | Some v =>
              set_ac v
                match mention re_dc c with
                | Some v0 => set_dc v0 st
                | None => st
                end
          | None =>
              match mention re_dc c with
              | Some v0 => set_dc v0 st
              | None => st
              end
          end) with (note_targets c st).
  assert (Hk' : last_kind (note_targets c st) = None)
    by now rewrite note_targets_kind.
  unfold classify, find_skill, find_save.
  destruct (existsb _ _); [reflexivity|].
  rewrite skill_loop_find.
  destruct (find _ skill_list); [reflexivity|].
  rewrite Hk'. cbn [truthy].
  rewrite save_loop_find.
  destruct (find _ saves); [reflexivity|].
  rewrite Hk'. cbn [truthy].
  destruct (contains "attack roll" c || contains "make an attack" c
            || contains "please roll attack" c); reflexivity.
Qed.

Lemma yields_kind_spec h :
  yields_kind h =
  match assistant_text h with
  | Some c => match classify c with Some _ => true | None => false end
  | None => false
  end.
Proof.
  unfold yields_kind. rewrite scan_turn_spec by reflexivity.
  destruct (assistant_text h) as [c|]; [|reflexivity].
  cbv zeta. destruct (classify c) as [[k [s|]]|]; reflexivity.
Qed.

Lemma scan_turn_cases h st : last_kind st = None -> turn_case h st.
Proof.
  intros Hk. pose proof (scan_turn_spec h st Hk) as Hs.
  pose proof (yields_kind_spec h) as Hy.
  destruct (assistant_text h) as [c|] eqn:Ha.
  - cbv zeta in Hs. destruct (classify c) as [[k [s|]]|].
    + eapply Stopped; eauto.
    + eapply Stopped; eauto.
    + eapply Noted; eauto.
  - now apply Skipped.
Qed.

Lemma last_error_cons {X : Type} (x : X) (l : list X) :
  last_error (x :: l) =
  match last_error l with Some y => Some y | None => Some x end.
Proof.
  unfold last_error. simpl. destruct (rev l); reflexivity.
Qed.

Lemma dc_of_text h c :
  assistant_text h = Some c -> dc_of h = mention re_dc c.
Proof. unfold dc_of. now intros ->. Qed.

Lemma ac_of_text h c :
  assistant_text h = Some c -> ac_of h = mention re_ac c.
Proof. unfold ac_of. now intros ->. Qed.

Lemma dc_of_none h : assistant_text h = None -> dc_of h = None.
Proof. unfold dc_of. now intros ->. Qed.

Lemma ac_of_none h : assistant_text h = None -> ac_of h = None.
Proof. unfold ac_of. now intros ->. Qed.

(** The DC that the loop ends with is the one of the last visited entry
    that mentions a DC. *)
Lemma scan_loop_dc hs :
  forall st, last_kind st = None ->
    last_dc (scan_loop hs st) =
    match last_error (mentions dc_of (scanned hs)) with
    | Some v => Some v
    | None => last_dc st
    end.
Proof.
  induction hs as [|h hs IH]; intros st Hk; [reflexivity|].
  cbn [scan_loop scanned].
  destruct (scan_turn_cases h st Hk) as [Ha Hy Hs|c Ha Hy Hs|c st' Ha Hy Hs Hd _];
    rewrite Hs, Hy; cbn [mentions].
  - rewrite (dc_of_none h Ha). now apply IH.
  - rewrite (dc_of_text h c Ha).
    rewrite IH by now rewrite note_targets_kind.
    rewrite note_targets_dc.
    destruct (mention re_dc c) as [v|]; [|reflexivity].
    rewrite last_error_cons.
    now destruct (last_error (mentions dc_of (scanned hs))).
  - rewrite (dc_of_text h c Ha), Hd, note_targets_dc.
    now destruct (mention re_dc c).
Qed.

Lemma scan_loop_ac hs :
  forall st, last_kind st = None ->
    last_ac (scan_loop hs st) =
    match last_error (mentions ac_of (scanned hs)) with
    | Some v => Some v
    | None => last_ac st
    end.
Proof.
  induction hs as [|h hs IH]; intros st Hk; [reflexivity|].
  cbn [scan_loop scanned].
  destruct (scan_turn_cases h st Hk) as [Ha Hy Hs|c Ha Hy Hs|c st' Ha Hy Hs _ Hd];
    rewrite Hs, Hy; cbn [mentions].
  - rewrite (ac_of_none h Ha). now apply IH.
  - rewrite (ac_of_text h c Ha).
    rewrite IH by now rewrite note_targets_kind.
    rewrite note_targets_ac.
    destruct (mention re_ac c) as [v|]; [|reflexivity].
    rewrite last_error_cons.
    now destruct (last_error (mentions ac_of (scanned hs))).
  - rewrite (ac_of_text h c Ha), Hd, note_targets_ac.
    now destruct (mention re_ac c).
Qed.

(** Nothing after an entry that yields a kind is read. *)
Lemma scan_loop_stop t newer older older' :
  yields_kind t = true ->
  forall st, last_kind st = None ->
    scan_loop (newer ++ t :: older) st = scan_loop (newer ++ t :: older') st.
Proof.
  intros Ht. induction newer as [|h newer IH]; intros st Hk.
  - cbn [app scan_loop].
    destruct (scan_turn_cases t st Hk) as [_ Hy _|c _ Hy _|c st' _ _ Hs _ _];
      try congruence.
    now rewrite Hs.
  - cbn [app scan_loop].
    destruct (scan_turn_cases h st Hk) as [_ _ Hs|c _ _ Hs|c st' _ _ Hs _ _];
      rewrite Hs; [now apply IH | | reflexivity].
    apply IH. now rewrite note_targets_kind.
Qed.

(** Case analysis on the three tests of [default_targets]. *)
Ltac scan_fields :=
  cbn [last_kind last_skill last_dc last_ac set_dc set_ac set_kind set_skill
       is_none andb].

Ltac defaults_cases st :=
  let k := fresh "k" in
  let s := fresh "s" in
  let d := fresh "d" in
  let a := fresh "a" in
  destruct st as [k s d a]; unfold default_targets; scan_fields;
  destruct d, a; scan_fields;
  destruct (is_str k "check"); scan_fields;
  destruct (is_str k "save"); scan_fields;
  destruct (is_str k "attack"); scan_fields.

Lemma default_targets_kind st : last_kind (default_targets st) = last_kind st.
Proof. defaults_cases st; reflexivity. Qed.

Lemma default_targets_skill st : last_skill (default_targets st) = last_skill st.
Proof. defaults_cases st; reflexivity. Qed.

Lemma default_targets_dc_some st v :
  last_dc st = Some v -> last_dc (default_targets st) = Some v.
Proof. defaults_cases st; intros H; try discriminate; exact H. Qed.

Lemma default_targets_ac_some st v :
  last_ac st = Some v -> last_ac (default_targets st) = Some v.
Proof. defaults_cases st; intros H; try discriminate; exact H. Qed.

Lemma scan_history_dc history :
  last_dc (scan_history history) = last_error (mentions dc_of (visited history)).
Proof.
  unfold scan_history, visited. rewrite scan_loop_dc by reflexivity.
  now destruct (last_error _).
Qed.

Lemma scan_history_ac history :
  last_ac (scan_history history) = last_error (mentions ac_of (visited history)).
Proof.
  unfold scan_history, visited. rewrite scan_loop_ac by reflexivity.
  now destruct (last_error _).
Qed.

Lemma last_error_two {X : Type} (l : list X) :
  (2 <= List.length l)%nat -> exists v, last_error l = Some v.
Proof.
  destruct l as [|x l]; simpl; [lia|]. intros _.
  rewrite last_error_cons. destruct (last_error l); eauto.
Qed.

(** ** C1: which mention of a target is kept *)

(** C1, as stated, fails: with two DC mentions among the visited entries,
    the DC kept is not the one of the most recent mention (18, the head of
    the mentions in the order of the visit) but the one of the older entry
    (14); likewise 16 and not 17 for the AC. *)
Lemma most_recent_mention_not_kept :
  (2 <= List.length (mentions dc_of (visited two_mentions)))%nat
  /\ hd_error (mentions dc_of (visited two_mentions)) = Some 18%Z
  /\ last_dc (resolve_pending_roll two_mentions) = Some 14%Z
  /\ (2 <= List.length (mentions ac_of (visited two_mentions)))%nat
  /\ hd_error (mentions ac_of (visited two_mentions)) = Some 17%Z
  /\ last_ac (resolve_pending_roll two_mentions) = Some 16%Z.
Proof. vm_compute. repeat split; repeat constructor. Qed.

(** C1, amended: when at least two visited entries mention a DC, the DC of
    the resolved roll is the one of the visited entry farthest from the end
    of the history, the last one that the most-recent-first scan meets; the
    same holds for the AC. *)
Theorem oldest_visited_mention_kept (history : list Turn) :
  ((2 <= List.length (mentions dc_of (visited history)))%nat ->
   last_dc (resolve_pending_roll history)
   = last_error (mentions dc_of (visited history)))
  /\ ((2 <= List.length (mentions ac_of (visited history)))%nat ->
      last_ac (resolve_pending_roll history)
      = last_error (mentions ac_of (visited history))).
Proof.
  unfold resolve_pending_roll. split; intros H;
    destruct (last_error_two _ H) as [v Hv]; rewrite Hv.
  - apply default_targets_dc_some. now rewrite scan_history_dc.
  - apply default_targets_ac_some. now rewrite scan_history_ac.
Qed.

(** The amended C1 on [two_mentions]: DC 14 and AC 16, the older ones. *)
Lemma oldest_visited_mention_kept_witness :
  last_dc (resolve_pending_roll two_mentions) = Some 14%Z
  /\ last_ac (resolve_pending_roll two_mentions) = Some 16%Z.
Proof.
  split.
  - refine (eq_trans (proj1 (oldest_visited_mention_kept two_mentions) _) _).
    + vm_compute. repeat constructor.
    + reflexivity.
  - refine (eq_trans (proj2 (oldest_visited_mention_kept two_mentions) _) _).
    + vm_compute. repeat constructor.
    + reflexivity.
Defined.

(** ** C8: the default targets *)

Lemma last_error_nil_iff {X : Type} (l : list X) :
  last_error l = None <-> l = [].
Proof.
  destruct l as [|x l]; [now split|]. rewrite last_error_cons.
  destruct (last_error l); split; discriminate.
Qed.

(** C8: a resolved check without any DC among the visited entries has DC
    12, a save DC 13, an attack without any AC has AC 13; a DC or an AC that
    was captured is kept instead of the default. *)
Theorem defaults_when_no_target (history : list Turn) :
  let ctx := resolve_pending_roll history in
  (last_kind ctx = Some "check" ->
   mentions dc_of (visited history) = [] -> last_dc ctx = Some 12%Z)
  /\ (last_kind ctx = Some "save" ->
      mentions dc_of (visited history) = [] -> last_dc ctx = Some 13%Z)
  /\ (last_kind ctx = Some "attack" ->
      mentions ac_of (visited history) = [] -> last_ac ctx = Some 13%Z)
  /\ (forall v, last_dc (scan_history history) = Some v ->
                last_dc ctx = Some v)
  /\ (forall v, last_ac (scan_history history) = Some v ->
                last_ac ctx = Some v).
Proof.
  cbv zeta. unfold resolve_pending_roll.
  pose proof (scan_history_dc history) as Hd.
  pose proof (scan_history_ac history) as Ha.
  rewrite default_targets_kind.
  repeat split.
  - intros Hk Hm. rewrite Hm in Hd.
    destruct (scan_history history) as [k s d a]. cbn in Hk, Hd. subst.
    reflexivity.
  - intros Hk Hm. rewrite Hm in Hd.
    destruct (scan_history history) as [k s d a]. cbn in Hk, Hd. subst.
    reflexivity.
  - intros Hk Hm. rewrite Hm in Ha.
    destruct (scan_history history) as [k s d a]. cbn in Hk, Ha. subst.
    now destruct d.
  - intros v. apply default_targets_dc_some.
  - intros v. apply default_targets_ac_some.
Qed.

(** C8 on a check that names no DC, and on a history that states one. *)
Lemma defaults_when_no_target_witness :
  last_dc (resolve_pending_roll bare_check) = Some 12%Z
  /\ last_dc (resolve_pending_roll two_mentions) = Some 14%Z.
Proof.
  split.
  - apply (proj1 (defaults_when_no_target bare_check)); reflexivity.
  - apply (proj1 (proj2 (proj2 (proj2 (defaults_when_no_target two_mentions))))).
    reflexivity.
Defined.

(** ** C7: what the resolver reads of the history *)

Lemma last_n_app_exact {X : Type} (n : nat) (older recent : list X) :
  List.length recent = n -> last_n n (older ++ recent) = recent.
Proof.
  intros <-. unfold last_n. rewrite length_app.
  replace (List.length older + List.length recent - List.length recent)%nat
    with (List.length older) by lia.
  rewrite skipn_app, skipn_all, Nat.sub_diag. reflexivity.
Qed.

Lemma last_n_app_le {X : Type} (n : nat) (older recent : list X) :
  (List.length recent <= n)%nat ->
  last_n n (older ++ recent) = (last_n (n - List.length recent) older ++ recent)%list.
Proof.
  intros Hle. unfold last_n. rewrite length_app, skipn_app.
  replace (List.length older + List.length recent - n - List.length older)%nat
    with 0%nat by lia.
  cbn [skipn]. f_equal. f_equal. lia.
Qed.

(** C7: the resolved roll is a function of the last 8 entries alone, and,
    among these, of the entries from the end back to an assistant entry that
    yields a kind: whatever stands before such an entry, and however much of
    it, the result is the same.  The resolver is a function of the history
    as a value; nothing in it writes to the history. *)
Theorem resolver_reads_recent_suffix :
  (forall h1 h2 : list Turn,
     last_n 8 h1 = last_n 8 h2 ->
     resolve_pending_roll h1 = resolve_pending_roll h2)
  /\ (forall older1 older2 recent : list Turn,
        List.length recent = 8%nat ->
        resolve_pending_roll (older1 ++ recent)
        = resolve_pending_roll (older2 ++ recent))
  /\ (forall (older older' newer : list Turn) (t : Turn),
        (List.length (t :: newer) <= 8)%nat ->
        yields_kind t = true ->
        resolve_pending_roll (older ++ t :: newer)
        = resolve_pending_roll (older' ++ t :: newer)).
Proof.
  split; [|split].
  - intros h1 h2 H. unfold resolve_pending_roll, scan_history. now rewrite H.
  - intros o1 o2 r Hr. unfold resolve_pending_roll, scan_history.
    now rewrite !last_n_app_exact.
  - intros older older' newer t Hlen Ht.
    unfold resolve_pending_roll, scan_history. f_equal.
    rewrite !last_n_app_le by exact Hlen.
    rewrite !rev_app_distr. cbn [rev]. rewrite <- !app_assoc. cbn [app].
    now apply scan_loop_stop.
Qed.

(** C7 on a request for a check: the older call for initiative, with
    other targets, changes nothing. *)
Lemma resolver_reads_recent_suffix_witness :
  resolve_pending_roll (older_initiative ++ stealth_request :: [])
  = resolve_pending_roll ([] ++ stealth_request :: []).
Proof.
  apply (proj2 (proj2 resolver_reads_recent_suffix)).
  - cbn. lia.
  - reflexivity.
Defined.

(** ** C5: the outcome of a reported total *)

Ltac decide_kind :=
  repeat match goal with
         | |- context [is_str (Some ?a) ?b] =>
             let v := eval vm_compute in (is_str (Some a) b) in
             change (is_str (Some a) b) with v
         end;
  cbn [orb andb].

Lemma is_str_false k lit : k <> Some lit -> is_str k lit = false.
Proof.
  destruct k as [s|]; [|reflexivity]. intros H. cbn.
  apply String.eqb_neq. congruence.
Qed.

Lemma or_default_known s d : s <> EmptyString -> or_default (Some s) d = s.
Proof.
  intros H. unfold or_default. cbn.
  apply String.eqb_neq in H. now rewrite H.
Qed.

Lemma or_default_unknown skill d :
  skill = None \/ skill = Some EmptyString -> or_default skill d = d.
Proof. intros [->| ->]; reflexivity. Qed.

Lemma geb_iff total target : geb total target = true <-> (total >= target)%Z.
Proof. unfold geb. rewrite Z.leb_le. lia. Qed.

(** C5: [evaluate_outcome] is a total function; an attack against a known
    AC succeeds iff the total reaches the AC and says hit or miss; a check
    (a save) against a known DC succeeds iff the total reaches the DC and
    names the skill (the ability) when it is known, "ability" ("saving")
    otherwise; initiative and any other kind have no verdict and the fixed
    sentences. *)
Theorem evaluate_outcome_rules (ctx : Scan) (result : Z) :
  let o := evaluate_outcome ctx result in
  total o = result
  /\ (forall ac, last_kind ctx = Some "attack" -> last_ac ctx = Some ac ->
        success o = Some (geb result ac)
        /\ (success o = Some true <-> (result >= ac)%Z)
        /\ summary o = "Your attack roll is " ++ py_str result ++ " "
                       ++ (if geb result ac then "(hit)" else "(miss)") ++ ".")
  /\ (forall dc, last_kind ctx = Some "check" -> last_dc ctx = Some dc ->
        success o = Some (geb result dc)
        /\ (success o = Some true <-> (result >= dc)%Z)
        /\ (forall s, last_skill ctx = Some s -> s <> EmptyString ->
              summary o = "Your " ++ s ++ " check is " ++ py_str result ++ " "
                ++ (if geb result dc then "(success)" else "(failure)") ++ ".")
        /\ (last_skill ctx = None \/ last_skill ctx = Some EmptyString ->
              summary o = "Your ability check is " ++ py_str result ++ " "
                ++ (if geb result dc then "(success)" else "(failure)") ++ "."))
  /\ (forall dc, last_kind ctx = Some "save" -> last_dc ctx = Some dc ->
        success o = Some (geb result dc)
        /\ (success o = Some true <-> (result >= dc)%Z)
        /\ (forall s, last_skill ctx = Some s -> s <> EmptyString ->
              summary o = "Your " ++ s ++ " throw is " ++ py_str result ++ " "
                ++ (if geb result dc then "(success)" else "(failure)") ++ ".")
        /\ (last_skill ctx = None \/ last_skill ctx = Some EmptyString ->
              summary o = "Your saving throw is " ++ py_str result ++ " "
                ++ (if geb result dc then "(success)" else "(failure)") ++ "."))
  /\ (last_kind ctx = Some "initiative" ->
        success o = None
        /\ summary o = "Initiative noted: " ++ py_str result ++ ".")
  /\ (last_kind ctx <> Some "initiative" -> last_kind ctx <> Some "attack" ->
      last_kind ctx <> Some "save" -> last_kind ctx <> Some "check" ->
        success o = None
        /\ summary o = "Roll total recorded: " ++ py_str result ++ ".").
Proof.
  destruct ctx as [k s d a]. cbv zeta.
  unfold evaluate_outcome, outcome_line, success_flag.
  cbn [total success summary last_kind last_skill last_dc last_ac].
  split; [reflexivity|].
  split; [|split; [|split; [|split]]].
  - intros ac -> ->. decide_kind.
    destruct d; decide_kind;
      (split; [reflexivity|split; [|reflexivity]]);
      (split; [intros H; inversion H as [H']; now apply geb_iff
              | intros H; apply geb_iff in H; now rewrite H]).
  - intros dc -> ->. decide_kind.
    assert (Hs : match a with
                 | Some _ | None => Some (geb result dc)
                 end = Some (geb result dc)) by now destruct a.
    rewrite Hs. split; [reflexivity|]. split; [|split].
    + split; [intros H; inversion H as [H']; now apply geb_iff
             | intros H; apply geb_iff in H; now rewrite H].
    + intros s' Hs' Hne. inversion Hs'; subst s.
      now rewrite or_default_known.
    + intros H. now rewrite or_default_unknown.
  - intros dc -> ->. decide_kind.
    assert (Hs : match a with
                 | Some _ | None => Some (geb result dc)
                 end = Some (geb result dc)) by now destruct a.
    rewrite Hs. split; [reflexivity|]. split; [|split].
    + split; [intros H; inversion H as [H']; now apply geb_iff
             | intros H; apply geb_iff in H; now rewrite H].
    + intros s' Hs' Hne. inversion Hs'; subst s.
      now rewrite or_default_known.
    + intros H. now rewrite or_default_unknown.
  - intros ->. decide_kind. split; [|reflexivity]. now destruct d, a.
  - intros H1 H2 H3 H4.
    rewrite (is_str_false _ _ H1), (is_str_false _ _ H2),
            (is_str_false _ _ H3), (is_str_false _ _ H4).
    cbn [orb]. split; [|reflexivity]. now destruct d, a.
Qed.

(** C5 on the example of the specification: a stealth check against DC 14
    succeeds with 16 and fails with 10. *)
Lemma evaluate_outcome_rules_witness :
  success (evaluate_outcome stealth_dc14 16) = Some true
  /\ success (evaluate_outcome stealth_dc14 10) = Some false
  /\ summary (evaluate_outcome stealth_dc14 16)
     = "Your stealth check is 16 (success).".
Proof.
  pose proof (proj1 (proj2 (proj2 (evaluate_outcome_rules stealth_dc14 16))) 14%Z
                eq_refl eq_refl) as H16.
  pose proof (proj1 (proj2 (proj2 (evaluate_outcome_rules stealth_dc14 10))) 14%Z
                eq_refl eq_refl) as H10.
  cbv zeta in H16, H10.
  split; [exact (proj1 H16)|]. split; [exact (proj1 H10)|].
  refine (eq_trans (proj1 (proj2 (proj2 H16)) "stealth" eq_refl _) _).
  - discriminate.
  - reflexivity.
Defined.

(** ** C6: the option menus *)

(** C6, as stated, fails in its remark on null arguments: a null skill or a
    null verdict does not lead to the generic menu under a kind that is
    known.  With both null, which is how the follow-up calls the function
    for initiative, a pending initiative gets the initiative menu and a
    pending attack the menu of a miss; with a null skill alone a
    successful check gets the general menu of a successful check; with a
    null verdict alone a save gets the menu of a failed save. *)
Lemma null_arguments_not_generic :
  lettered_options (Some "initiative") None None
  = ["A. **Act decisively**, take the first aggressive move.";
     "B. **Hold and observe**, wait for an opening.";
     "C. **Reposition**, move to advantageous terrain."]
  /\ lettered_options (Some "initiative") None None <> generic_menu
  /\ lettered_options (Some "attack") None None
     = ["A. **Feint then strike**, change timing to throw them off.";
        "B. **Disengage and reposition**, set up a better line or range.";
        "C. **Switch tactics**, try a different target or approach."]
  /\ lettered_options (Some "attack") None None <> generic_menu
  /\ lettered_options (Some "check") None (Some true) <> generic_menu
  /\ lettered_options (Some "save") (Some "dexterity") None <> generic_menu.
Proof. repeat split; try reflexivity; discriminate. Qed.

(** C6, amended: for every kind, skill and verdict, [build_lettered_options]
    has exactly three options, which begin with "A. ", "B. " and "C. " in
    this order, one per line after a leading line feed; a kind that is null
    or none of the four known ones gets the generic menu whatever the skill
    and the verdict; under a known kind a null verdict selects what a
    failure selects, and a null skill selects what the empty skill selects
    and what every skill selects that is not listed, whatever its name,
    for a check the general menus of a check; and the menu of a successful
    persuasion check is the one shown. *)
Theorem lettered_options_total (kind skill : option string)
    (success : option bool) :
  (exists a b c,
      lettered_options kind skill success = [a; b; c]
      /\ prefix "A. " a = true /\ prefix "B. " b = true
      /\ prefix "C. " c = true
      /\ build_lettered_options kind skill success
         = nl ++ a ++ nl ++ b ++ nl ++ c)
  /\ (is_str kind "check" = false /\ is_str kind "attack" = false
      /\ is_str kind "save" = false /\ is_str kind "initiative" = false
      -> lettered_options kind skill success = generic_menu)
  /\ lettered_options kind skill None = lettered_options kind skill (Some false)
  /\ lettered_options kind None success
     = lettered_options kind (Some EmptyString) success
  /\ (forall unlisted,
        listed_skill unlisted = false ->
        lettered_options kind (Some unlisted) success
        = lettered_options kind None success)
  /\ lettered_options (Some "check") None success
     = (if is_true success
        then ["A. **Capitalize immediately**, act before the window closes.";
              "B. **Gather more information**, probe for extra clues.";
              "C. **Set up allies**, coordinate for a stronger follow‑through."]
        else ["A. **Try a different angle**, apply another skill or approach.";
              "B. **Leverage the environment**, find cover or tools nearby.";
              "C. **Withdraw briefly**, reassess and plan your next move."])
  /\ lettered_options (Some "check") (Some "persuasion") (Some true)
     = ["A. **Slip away under the distraction**, moving quickly while their attention is elsewhere.";
        "B. **Reposition for advantage**, circling behind cover to set up your next move.";
        "C. **Press the bluff**, doubling down to steer them where you want."].
Proof.
  split; [|split; [|split; [|split; [|split; [|split]]]]].
  - unfold build_lettered_options, lettered_options.
    repeat match goal with
           | |- context [if ?b then _ else _] => destruct b
           end;
      do 3 eexists; (split; [reflexivity|]); repeat split.
  - intros (H1 & H2 & H3 & H4). unfold lettered_options.
    now rewrite H1, H2, H3, H4.
  - reflexivity.
  - reflexivity.
  - intros unlisted H. unfold listed_skill, one_of in H. cbn [existsb] in H.
    repeat (apply orb_false_iff in H; destruct H as [? H]).
    unfold lettered_options, one_of. cbn [or_empty existsb].
    repeat match goal with
           | Hs : (lower unlisted =? _) = false |- _ => rewrite Hs; clear Hs
           end.
    reflexivity.
  - reflexivity.
  - reflexivity.
Qed.

(** C6 on a skill that is not listed, written with a capital: a check of
    Arcana gets the general menus of a check, as a check without a skill
    does. *)
Lemma lettered_options_total_witness :
  lettered_options (Some "check") (Some "Arcana") (Some true)
  = ["A. **Capitalize immediately**, act before the window closes.";
     "B. **Gather more information**, probe for extra clues.";
     "C. **Set up allies**, coordinate for a stronger follow‑through."].
Proof.
  refine (eq_trans
            (proj1 (proj2 (proj2 (proj2 (proj2
               (lettered_options_total (Some "check") None (Some true))))))
               "Arcana" eq_refl) _).
  exact (proj1 (proj2 (proj2 (proj2 (proj2 (proj2
           (lettered_options_total (Some "check") None (Some true)))))))).
Defined.

(** ** C10: a reported roll issues no request *)

(** C10: whenever a total is extracted from the message, the follow-up
    answers, its answer is the one of the endpoint, and it carries the
    empty list of roll requests, whatever the history, the other words of
    the message, the language model and the environment. *)
Theorem followup_carries_no_request
    (openrouter : DMRequest -> option DMResponse)
    (inline_options : option string) (req : DMRequest) (result : Z) :
  extract_roll_total (message req) = Some result ->
  exists r,
    roll_followup_from_history req = Some r
    /\ respond openrouter inline_options req = r
    /\ roll_requests r = Some [].
Proof.
  intros H. unfold respond, roll_followup_from_history. rewrite H.
  eexists. repeat split.
Qed.

(** ** C9: the request for a saving throw *)

Lemma prefix_lower n : forall h,
  prefix n h = true -> prefix (lower n) (lower h) = true.
Proof.
  induction n as [|a n IH]; intros h H; [now destruct h|].
  destruct h as [|b h]; [discriminate|]. cbn [prefix lower] in *.
  destruct (ascii_dec a b) as [->|]; [|discriminate].
  destruct (ascii_dec (lower_char b) (lower_char b)); [now apply IH | congruence].
Qed.

Lemma contains_lower n : forall h,
  contains n h = true -> contains (lower n) (lower h) = true.
Proof.
  induction h as [|b h IH]; cbn [contains lower]; intros H.
  - rewrite orb_false_r in *. now apply (prefix_lower n EmptyString).
  - apply orb_true_iff in H. apply orb_true_iff. destruct H as [H|H].
    + left. now apply (prefix_lower n (String b h)).
    + right. now apply IH.
Qed.

Lemma append_if_not_a_save b r rs :
  not_a_save r -> Forall not_a_save rs -> Forall not_a_save (append_if b r rs).
Proof.
  intros Hr Hrs. destruct b; cbn; [|exact Hrs].
  apply Forall_app. split; [exact Hrs | now constructor].
Qed.

Lemma literal_skill_loop_not_a_save sks m dc rs :
  Forall not_a_save rs -> Forall not_a_save (literal_skill_loop sks m dc rs).
Proof.
  intros Hrs. induction sks as [|s sks IH]; cbn [literal_skill_loop];
    [exact Hrs|].
  destruct (contains s m || contains ("roll for " ++ s) m); [|exact IH].
  apply Forall_app. split; [exact Hrs|]. constructor; [|constructor].
  right; right; reflexivity.
Qed.

Lemma requests_before_save_types m dc :
  Forall not_a_save (requests_before_save m dc).
Proof.
  unfold requests_before_save.
  apply append_if_not_a_save; [right; right; reflexivity|].
  apply append_if_not_a_save; [right; right; reflexivity|].
  apply literal_skill_loop_not_a_save.
  apply append_if_not_a_save; [right; left; reflexivity|].
  apply append_if_not_a_save; [left; reflexivity|].
  constructor.
Qed.

(** C9: when the word "save" occurs in the message, in any case of
    letters (the test is made on the lower-cased message, so that "Save"
    and "SAVE" count as "save" does), the list of requests is what the
    earlier tests produced (initiative, attack and check requests only,
    all kept) followed by one request for a saving throw, whose DC is the
    DC that the message states, and null exactly when the message states
    none. *)
Theorem save_request_appended (message : string) :
  contains "save" (lower message) = true ->
  let m := lower message in
  let parsed_dc := mention re_dc_i m in
  classify_new_request message
  = (requests_before_save m parsed_dc ++ [save_request parsed_dc])%list
  /\ Forall not_a_save (requests_before_save m parsed_dc)
  /\ rr_type (save_request parsed_dc) = "save"
  /\ rr_purpose (save_request parsed_dc) = Some "Saving throw"
  /\ rr_dc (save_request parsed_dc) = parsed_dc
  /\ (parsed_dc = None <-> search re_dc_i m = None).
Proof.
  intros H. cbv zeta.
  unfold classify_new_request. rewrite H. cbn [append_if].
  repeat split; try apply requests_before_save_types;
    apply mention_none_iff, number_pattern_re_dc_i.
Qed.

(** C10 on a message that reports a total next to "attack" and "save". *)
Lemma followup_carries_no_request_witness :
  exists r,
    roll_followup_from_history reported_roll = Some r
    /\ respond (fun _ => None) None reported_roll = r
    /\ roll_requests r = Some [].
Proof.
  apply (followup_carries_no_request (fun _ => None) None reported_roll 16).
  reflexivity.
Defined.

(** C9 on a message with "attack", "save" and a DC: the attack request
    stays, the save request follows with DC 15; and on a message with the
    word in capitals, where the raw message has no "save". *)
Lemma save_request_appended_witness :
  classify_new_request attack_and_save
  = [attack_request; save_request (Some 15%Z)]
  /\ contains "save" shouted_save = false
  /\ classify_new_request shouted_save = [save_request (Some 15%Z)].
Proof.
  split; [|split; [reflexivity|]].
  - refine (eq_trans (proj1 (save_request_appended attack_and_save _)) _).
    + reflexivity.
    + reflexivity.
  - refine (eq_trans (proj1 (save_request_appended shouted_save _)) _).
    + reflexivity.
    + reflexivity.
Defined.

(** ** C3: the extraction of the total *)

Lemma first_total_cons p ps m :
  first_total (p :: ps) m =
  match mention p m with
  | Some v => Some v
  | None => first_total ps m
  end.
Proof.
  unfold mention. cbn [first_total].
  destruct (search p m) as [gs|]; [|reflexivity].
  now destruct (py_int (group 1 gs)).
Qed.

(** C3, on the code: "I rolled 12" gives 12 and "hello there" gives no
    total, the patterns are tried in their order and the first one that
    matches gives the result; but "Rolled 1d20+3 = 15" gives no total: after
    "rolled" the first run of digits is "1", the letter "d" follows it
    without a word boundary, and no other pattern applies. *)
Theorem extract_roll_total_examples :
  extract_roll_total "I rolled 12" = Some 12%Z
  /\ extract_roll_total "hello there" = None
  /\ extract_roll_total "Rolled 1d20+3 = 15" = None
  /\ search re_rolled (lower "Rolled 1d20+3 = 15") = None
  /\ extract_roll_total "Rolled 12, total: 5, I rolled 3" = Some 3%Z
  /\ (forall message,
        extract_roll_total message =
        match mention re_i_rolled (lower message) with
        | Some v => Some v
        | None =>
            match mention re_rolled (lower message) with
            | Some v => Some v
            | None => mention re_total (lower message)
            end
        end).
Proof.
  repeat split; try reflexivity.
  intros message. unfold extract_roll_total, roll_patterns.
  rewrite !first_total_cons. cbn [first_total].
  now destruct (mention re_total (lower message)).
Qed.

(** ** C2: normalising twice *)

(** C2, on the code: the normaliser puts a further pair of asterisks around
    the head each time it is applied, on its own output and on a menu that
    already has the canonical shape. *)
Theorem normalize_options_wraps_again :
  normalize_options two_options
  = Some ["A. **Sneak away**"; "B. **Fight**";
          "C. **Explore another angle**, adapt your approach to the situation."]
  /\ normalize_options
       (join nl ["A. **Sneak away**"; "B. **Fight**";
                 "C. **Explore another angle**, adapt your approach to the situation."])
     = Some ["A. ****Sneak away****"; "B. ****Fight****";
             "C. ****Explore another angle****, adapt your approach to the situation."]
  /\ normalize_options canonical_menu
     = Some ["A. ****Sneak away****, slip into the shadows.";
             "B. ****Fight****, draw your blade.";
             "C. ****Parley****, raise an open hand."].
Proof. repeat split; reflexivity. Qed.

(** ** C4: the shape of the normalised options *)

Lemma between_A_C c :
  between 65 67 c = true -> In (String c EmptyString) ["A"; "B"; "C"].
Proof.
  unfold between, code. intros H. apply andb_prop in H. destruct H as [H1 H2].
  apply Nat.leb_le in H1, H2.
  rewrite <- (ascii_nat_embedding c).
  assert (Hc : nat_of_ascii c = 65%nat \/ nat_of_ascii c = 66%nat
               \/ nat_of_ascii c = 67%nat) by lia.
  destruct Hc as [-> | [-> | ->]]; cbn; auto.
Qed.

(** What the pattern of an option line captures: its letter, and a body. *)
Lemma re_option_groups ln m :
  rmatch re_option ln = Some m ->
  exists c rest body,
    ln = String c rest /\ between 65 67 c = true
    /\ m = [String c EmptyString; body].
Proof.
  intros H. apply run_sound in H.
  destruct H as (p' & s' & gs & Hm & Hk). inversion Hk; subst gs; clear Hk.
  unfold re_option in Hm. cbn [seqs] in Hm.
  inversion Hm as [| | | |? ? ? ? ? p1 s1 g1 ? ? ? Hbol Hm1| | | | | |];
    subst; clear Hm.
  inversion Hbol; subst; clear Hbol.
  inversion Hm1 as [| | | |? ? ? ? ? p2 s2 g2 ? ? ? Hg1 Hm2| | | | | |];
    subst; clear Hm1.
  inversion Hg1 as [| | | | | | |? ? ? ? ? ? ? Hc| | |]; subst; clear Hg1.
  inversion Hc; subst; clear Hc.
  inversion Hm2 as [| | | |? ? ? ? ? p3 s3 g3 ? ? ? Hdot Hm3| | | | | |];
    subst; clear Hm2.
  inversion Hdot; subst; clear Hdot.
  inversion Hm3 as [| | | |? ? ? ? ? p4 s4 g4 ? ? ? Hsp Hm4| | | | | |];
    subst; clear Hm3.
  apply matches_star_inv in Hsp. destruct Hsp as [-> _].
  inversion Hm4 as [| | | |? ? ? ? ? p5 s5 g5 ? ? ? Hg2 Heol| | | | | |];
    subst; clear Hm4.
  inversion Heol; subst; clear Heol.
  inversion Hg2 as [| | | | | | |? ? ? ? ? ? ? Hbody| | |]; subst; clear Hg2.
  apply matches_star_inv in Hbody. destruct Hbody as [-> _].
  match goal with
  | Hc : between 65 67 ?c = true |- _ =>
      exists c; do 2 eexists; split; [reflexivity|]; split; [exact Hc|]
  end.
  cbn [app]. f_equal.
  change (String ?c ?s) with (String c EmptyString ++ s) at 1.
  apply consumed_app.
Qed.

(** In the branch of the comma, [body.split(",", 1)] has its two parts: no
    accepted line is lost there. *)
Lemma split_comma_some body :
  contains "," body = true -> exists head tail, split_comma body = Some (head, tail).
Proof.
  induction body as [|c body IH]; cbn [contains prefix split_comma].
  - discriminate.
  - destruct (code c =? 44)%nat eqn:Hc; [eauto|].
    destruct (ascii_dec "," c) as [<-|_]; [discriminate Hc|].
    cbn [orb]. intros H. destruct (IH H) as (h & t & ->). eauto.
Qed.

(** An accepted line gives an option of the canonical shape that carries
    the letter of the line. *)
Lemma format_line_canonical ln e :
  format_line ln = Some e ->
  exists c rest, ln = String c rest /\ canonical (String c EmptyString) e.
Proof.
  unfold format_line. destruct (rmatch re_option ln) as [m|] eqn:Hm;
    [|discriminate].
  destruct (re_option_groups ln m Hm) as (c & rest & body & -> & Hc & ->).
  cbn [group Nat.sub nth]. intros H.
  exists c, rest. split; [reflexivity|].
  split; [now apply between_A_C|].
  destruct (contains "," (strip body)).
  - destruct (split_comma (strip body)) as [[head tail]|]; [|discriminate].
    inversion H. exists (strip head). right. now exists (strip tail).
  - inversion H. exists (strip body). now left.
Qed.

Lemma filler_canonical label :
  In label ["A"; "B"; "C"] -> canonical label (filler label).
Proof.
  intros H. split; [exact H|]. exists "Explore another angle". right.
  now exists "adapt your approach to the situation.".
Qed.

Lemma pick_app lines : forall picked,
  pick lines picked = (picked ++ pick lines [])%list.
Proof.
  induction lines as [|ln lines IH]; intros picked; cbn [pick].
  - now rewrite app_nil_r.
  - destruct (format_line ln) as [e|]; [|apply IH].
    rewrite IH, (IH ([] ++ [e])%list), <- app_assoc. reflexivity.
Qed.

(** Each picked entry comes from a line of the input, in order. *)
Lemma pick_from_lines lines :
  Forall (fun e => exists ln, In ln lines /\ format_line ln = Some e)
         (pick lines []).
Proof.
  induction lines as [|ln lines IH]; cbn [pick]; [constructor|].
  assert (IH' : Forall (fun e => exists l, In l (ln :: lines)
                                           /\ format_line l = Some e)
                       (pick lines [])).
  { eapply Forall_impl; [|exact IH]. intros e (l & Hl & He).
    exists l. split; [now right | exact He]. }
  destruct (format_line ln) as [e|] eqn:He; [|exact IH'].
  rewrite pick_app. cbn [app]. constructor; [|exact IH'].
  exists ln. split; [now left | exact He].
Qed.

(** The loop of the padding ends with its guard false, within its fuel, and
    the lookup of the label never fails: the result is the list with the
    fillers of the free positions. *)
Lemma pad_fillers picked :
  pad 3 picked
  = Some (picked ++ skipn (List.length picked) fillers)%list
  /\ (3 <= List.length (picked ++ skipn (List.length picked) fillers))%nat.
Proof.
  destruct picked as [|a [|b [|c rest]]];
    try (split; [reflexivity | cbn; lia]).
  assert (Hs : skipn (List.length (a :: b :: c :: rest)) fillers = []).
  { change (skipn (List.length rest) (@nil string) = []). apply skipn_nil. }
  rewrite Hs, app_nil_r. split; [reflexivity | cbn; lia].
Qed.

Lemma skipn_fillers_canonical n :
  Forall (fun e => exists l, canonical l e) (skipn n fillers).
Proof.
  destruct n as [|[|[|n]]]; cbn [skipn fillers map];
    try (rewrite skipn_nil; constructor);
    repeat (constructor; [eexists; apply filler_canonical; cbn; auto 6|]);
    constructor.
Qed.

(** C4, as stated, fails: of a single line lettered B the normaliser makes
    the options lettered B, B, C; they are not lettered A, B, C, and the
    first filler takes a letter that is in use. *)
Lemma letters_not_in_order :
  normalize_options only_b
  = Some ["B. **Fight**"; filler "B"; filler "C"]
  /\ ~ (exists e1 e2 e3,
          normalize_options only_b = Some [e1; e2; e3]
          /\ canonical "A" e1 /\ canonical "B" e2 /\ canonical "C" e3).
Proof.
  split; [reflexivity|].
  intros (e1 & e2 & e3 & H & (_ & head & Hc) & _).
  vm_compute in H. inversion H; subst e1.
  destruct Hc as [Hc | [tail Hc]]; discriminate Hc.
Qed.

(** C4, amended: for every raw text the normaliser returns exactly three
    options, each of the canonical shape with a letter among A, B, C; an
    option made from an input line carries the letter of that line, a
    filler the letter of its position; with fewer than three accepted lines
    the fillers of the free positions are appended, and accepted lines
    beyond the third are cut off. *)
Theorem normalize_options_shape (raw : string) :
  let picked := formatted_lines raw in
  (exists e1 e2 e3 l1 l2 l3,
      normalize_options raw = Some [e1; e2; e3]
      /\ canonical l1 e1 /\ canonical l2 e2 /\ canonical l3 e3)
  /\ Forall (fun e => exists ln c rest,
                 In ln (stripped_lines raw) /\ ln = String c rest
                 /\ format_line ln = Some e
                 /\ canonical (String c EmptyString) e) picked
  /\ ((List.length picked < 3)%nat ->
      normalize_options raw
      = Some (picked ++ skipn (List.length picked) fillers)%list)
  /\ ((3 <= List.length picked)%nat ->
      normalize_options raw = Some (firstn 3 picked)).
Proof.
  cbv zeta. unfold normalize_options.
  change (pick (stripped_lines raw) []) with (formatted_lines raw).
  destruct (pad_fillers (formatted_lines raw)) as [Hpad Hlen]. rewrite Hpad.
  assert (Hfrom :
    Forall (fun e => exists ln c rest,
                In ln (stripped_lines raw) /\ ln = String c rest
                /\ format_line ln = Some e
                /\ canonical (String c EmptyString) e) (formatted_lines raw)).
  { eapply Forall_impl; [|apply pick_from_lines].
    intros e (ln & Hin & He).
    destruct (format_line_canonical ln e He) as (c & rest & Hln & Hc).
    now exists ln, c, rest. }
  split; [|split; [exact Hfrom|split]].
  - assert (Hall : Forall (fun e => exists l, canonical l e)
                     (formatted_lines raw
                      ++ skipn (List.length (formatted_lines raw)) fillers)%list).
    { apply Forall_app. split; [|apply skipn_fillers_canonical].
      eapply Forall_impl; [|exact Hfrom].
      intros e (ln & c & rest & _ & _ & _ & Hc). eauto. }
    destruct (formatted_lines raw
              ++ skipn (List.length (formatted_lines raw)) fillers)%list
      as [|e1 [|e2 [|e3 more]]]; cbn in Hlen; try lia.
    inversion Hall as [|? ? [l1 H1] Hall1]; subst.
    inversion Hall1 as [|? ? [l2 H2] Hall2]; subst.
    inversion Hall2 as [|? ? [l3 H3] _]; subst.
    exists e1, e2, e3, l1, l2, l3.
    split; [reflexivity|]. split; [exact H1|]. split; [exact H2 | exact H3].
  - intros Hlt. f_equal.
    destruct (formatted_lines raw) as [|a [|b [|c rest]]]; cbn in Hlt;
      try lia; reflexivity.
  - intros Hge. f_equal.
    destruct (formatted_lines raw) as [|a [|b [|c rest]]]; cbn in Hge;
      try lia; reflexivity.
Qed.

(** The amended C4 on the example of the specification: two accepted
    lines and the filler of the third position. *)
Lemma normalize_options_shape_witness :
  normalize_options two_options
  = Some ["A. **Sneak away**"; "B. **Fight**"; filler "C"].
Proof.
  refine (eq_trans
            (proj1 (proj2 (proj2 (normalize_options_shape two_options))) _) _).
  - vm_compute. repeat constructor.
  - reflexivity.
Defined.

(** * Further properties of the code *)

(** ** The resolver: what it can return *)

Lemma classify_cases c k sk :
  classify c = Some (k, sk) ->
  (k = "initiative" /\ sk = None)
  \/ (k = "attack" /\ sk = None)
  \/ (k = "check" /\ exists s, sk = Some s /\ In s skill_list)
  \/ (k = "save" /\ exists s, sk = Some s /\ In s saves).
Proof.
  unfold classify, find_skill, find_save.
  destruct (existsb _ _).
  - intros H; inversion H; auto.
  - destruct (find _ skill_list) as [s|] eqn:Hs.
    + intros H; inversion H; subst. apply find_some in Hs.
      right; right; left. split; [reflexivity|]. exists s. tauto.
    + destruct (find _ saves) as [a|] eqn:Ha.
      * intros H; inversion H; subst. apply find_some in Ha.
        right; right; right. split; [reflexivity|]. exists a. tauto.
      * destruct (contains "attack roll" c || contains "make an attack" c
                  || contains "please roll attack" c);
          intros H; inversion H; auto.
Qed.

Lemma scan_loop_shape hs :
  forall st, last_kind st = None -> last_skill st = None ->
    resolved_shape (scan_loop hs st).
Proof.
  induction hs as [|h hs IH]; intros st Hk Hs.
  - left. now split.
  - cbn [scan_loop]. rewrite (scan_turn_spec h st Hk).
    destruct (assistant_text h) as [c|]; [|now apply IH].
    cbv zeta. destruct (classify c) as [[k sk]|] eqn:Hc.
    + destruct (classify_cases c k sk Hc)
        as [[-> ->]|[[-> ->]|[[-> (s & -> & Hin)]|[-> (s & -> & Hin)]]]];
        unfold resolved_shape; cbn [set_kind set_skill last_kind last_skill];
        rewrite ?note_targets_skill, ?Hs.
      * right; left. now split.
      * right; right; left. now split.
      * right; right; right; left. split; [reflexivity|]. now exists s.
      * right; right; right; right. split; [reflexivity|]. now exists s.
    + apply IH; [now rewrite note_targets_kind | now rewrite note_targets_skill].
Qed.

Lemma default_targets_shape st : resolved_shape st -> resolved_shape (default_targets st).
Proof.
  unfold resolved_shape.
  now rewrite default_targets_kind, default_targets_skill.
Qed.

Lemma resolve_shape history : resolved_shape (resolve_pending_roll history).
Proof.
  unfold resolve_pending_roll, scan_history.
  apply default_targets_shape, scan_loop_shape; reflexivity.
Qed.

(** X1: the resolved roll has no kind, or one of the four kinds; a check
    comes with a skill of the list of skills, a save with one of the six
    abilities, and initiative, an attack and no kind come without a
    skill. *)
Theorem resolved_kind_and_skill (history : list Turn) :
  let ctx := resolve_pending_roll history in
  (last_kind ctx = None /\ last_skill ctx = None)
  \/ (last_kind ctx = Some "initiative" /\ last_skill ctx = None)
  \/ (last_kind ctx = Some "attack" /\ last_skill ctx = None)
  \/ (last_kind ctx = Some "check"
      /\ exists s, last_skill ctx = Some s /\ In s skill_list)
  \/ (last_kind ctx = Some "save"
      /\ exists s, last_skill ctx = Some s /\ In s saves).
Proof. exact (resolve_shape history). Qed.

(** ** The follow-up: a verdict whenever there is a target *)

Lemma default_targets_dc_present st :
  last_kind st = Some "check" \/ last_kind st = Some "save" ->
  exists dc, last_dc (default_targets st) = Some dc.
Proof.
  destruct st as [k s [d|] [a|]]; cbn [last_kind];
    intros [-> | ->]; vm_compute; eauto.
Qed.

Lemma default_targets_ac_present st :
  last_kind st = Some "attack" ->
  exists ac, last_ac (default_targets st) = Some ac.
Proof.
  destruct st as [k s [d|] [a|]]; cbn [last_kind]; intros ->; vm_compute; eauto.
Qed.

Lemma resolved_targets_present history :
  let ctx := resolve_pending_roll history in
  (last_kind ctx = Some "check" \/ last_kind ctx = Some "save" ->
   exists dc, last_dc ctx = Some dc)
  /\ (last_kind ctx = Some "attack" -> exists ac, last_ac ctx = Some ac).
Proof.
  cbv zeta. unfold resolve_pending_roll. rewrite default_targets_kind.
  split; [apply default_targets_dc_present | apply default_targets_ac_present].
Qed.

Lemma skill_names_not_empty s :
  In s skill_list \/ In s saves -> truthy (Some s) = true.
Proof.
  intros [H|H]; cbn in H;
    repeat (destruct H as [<-|H]; [reflexivity|]); destruct H.
Qed.

(** X2: when a total is reported and the pending roll is an attack, a check
    or a save, the answer always states a verdict, hit or miss against an
    AC, success or failure against a DC, names the skill or the ability, and
    offers the menu of that same verdict: the sentences without a verdict
    that [outcome_line] has for a missing target are never used. *)
Theorem followup_states_verdict (req : DMRequest) (result : Z) :
  extract_roll_total (message req) = Some result ->
  let ctx := resolve_pending_roll (history_of req) in
  exists r,
    roll_followup_from_history req = Some r
    /\ (last_kind ctx = Some "attack" ->
        exists ac,
          last_ac ctx = Some ac
          /\ text r
             = ("Your attack roll is " ++ py_str result ++ " "
                ++ (if geb result ac then "(hit)" else "(miss)") ++ ".")
               ++ " What do you do next?"
               ++ build_lettered_options (Some "attack") None
                    (Some (geb result ac)))
    /\ (last_kind ctx = Some "check" ->
        exists dc s,
          last_dc ctx = Some dc /\ last_skill ctx = Some s /\ In s skill_list
          /\ text r
             = ("Your " ++ s ++ " check is " ++ py_str result ++ " "
                ++ (if geb result dc then "(success)" else "(failure)") ++ ".")
               ++ " What do you do next?"
               ++ build_lettered_options (Some "check") (Some s)
                    (Some (geb result dc)))
    /\ (last_kind ctx = Some "save" ->
        exists dc s,
          last_dc ctx = Some dc /\ last_skill ctx = Some s /\ In s saves
          /\ text r
             = ("Your " ++ s ++ " throw is " ++ py_str result ++ " "
                ++ (if geb result dc then "(success)" else "(failure)") ++ ".")
               ++ " What do you do next?"
               ++ build_lettered_options (Some "save") (Some s)
                    (Some (geb result dc))).
Proof.
  intros Hx. cbv zeta. unfold roll_followup_from_history. rewrite Hx.
  eexists. split; [reflexivity|]. cbn [text].
  pose proof (resolve_shape (history_of req)) as Hshape.
  destruct (resolved_targets_present (history_of req)) as [Hdc Hac].
  cbv zeta in Hdc, Hac.
  destruct (resolve_pending_roll (history_of req)) as [k s d a].
  unfold resolved_shape in Hshape.
  cbn [last_kind last_skill last_dc last_ac] in *.
  split; [|split].
  - intros ->. destruct (Hac eq_refl) as [ac ->]. exists ac.
    split; [reflexivity|].
    destruct Hshape as [[H _]|[[H _]|[[_ ->]|[[H _]|[H _]]]]];
      try discriminate H.
    unfold outcome_line, success_flag. decide_kind.
    now destruct d.
  - intros ->. destruct (Hdc (or_introl eq_refl)) as [dc ->].
    destruct Hshape as [[H _]|[[H _]|[[H _]|[[_ (s' & -> & Hin)]|[H _]]]]];
      try discriminate H.
    exists dc, s'. repeat (split; [reflexivity || exact Hin|]).
    unfold outcome_line, success_flag, or_default. decide_kind.
    rewrite (skill_names_not_empty s' (or_introl Hin)). cbn [or_empty].
    now destruct a.
  - intros ->. destruct (Hdc (or_intror eq_refl)) as [dc ->].
    destruct Hshape as [[H _]|[[H _]|[[H _]|[[H _]|[_ (s' & -> & Hin)]]]]];
      try discriminate H.
    exists dc, s'. repeat (split; [reflexivity || exact Hin|]).
    unfold outcome_line, success_flag, or_default. decide_kind.
    rewrite (skill_names_not_empty s' (or_intror Hin)). cbn [or_empty].
    now destruct a.
Qed.

(** X2 on the end-to-end example of the specification. *)
Lemma followup_states_verdict_witness :
  exists r,
    roll_followup_from_history reported_16 = Some r
    /\ text r
       = "Your stealth check is 16 (success). What do you do next?"
         ++ build_lettered_options (Some "check") (Some "stealth") (Some true).
Proof.
  destruct (followup_states_verdict reported_16 16 eq_refl)
    as (r & Hr & _ & Hcheck & _).
  exists r. split; [exact Hr|].
  destruct (Hcheck eq_refl) as (dc & s & Hdc & Hs & _ & Ht).
  vm_compute in Hdc, Hs. inversion Hdc; inversion Hs; subst dc s.
  rewrite Ht. reflexivity.
Defined.

(** ** The resolver: which entries count *)

Lemma scan_turn_skip h st :
  assistant_text h = None -> scan_turn h st = (st, Continue).
Proof.
  unfold assistant_text, scan_turn.
  now destruct (is_str (role h) "assistant").
Qed.

Lemma scan_loop_skip hs st :
  Forall (fun h => assistant_text h = None) hs -> scan_loop hs st = st.
Proof.
  induction 1 as [|h hs Hh _ IH]; [reflexivity|].
  cbn [scan_loop]. now rewrite (scan_turn_skip h st Hh).
Qed.

(** X3: when none of the last 8 entries is of the assistant (an empty or
    absent history, or a request for a roll that lies further back), the
    resolver finds no kind and no target, and a reported total is answered
    with "Roll total recorded" and the generic menu. *)
Theorem no_assistant_entry_no_kind (req : DMRequest) (result : Z) :
  Forall (fun h => assistant_text h = None) (last_n 8 (history_of req)) ->
  extract_roll_total (message req) = Some result ->
  resolve_pending_roll (history_of req) = scan_init
  /\ exists r,
       roll_followup_from_history req = Some r
       /\ text r = ("Roll total recorded: " ++ py_str result ++ ".")
                   ++ " What do you do next?"
                   ++ build_lettered_options None None None.
Proof.
  intros Hall Hx.
  assert (Hres : resolve_pending_roll (history_of req) = scan_init).
  { unfold resolve_pending_roll, scan_history. rewrite scan_loop_skip.
    - reflexivity.
    - apply Forall_rev. exact Hall. }
  split; [exact Hres|].
  unfold roll_followup_from_history. rewrite Hx, Hres.
  eexists. split; reflexivity.
Qed.

Lemma no_assistant_entry_no_kind_witness :
  resolve_pending_roll (history_of player_only) = scan_init
  /\ resolve_pending_roll (history_of (mkDMRequest None "I rolled 9" None None))
     = scan_init.
Proof.
  split.
  - apply (no_assistant_entry_no_kind player_only 9).
    + repeat constructor.
    + reflexivity.
  - apply (no_assistant_entry_no_kind (mkDMRequest None "I rolled 9" None None) 9).
    + constructor.
    + reflexivity.
Defined.

Lemma Forall2_skipn {X : Type} (R : X -> X -> Prop) n :
  forall l1 l2, Forall2 R l1 l2 -> Forall2 R (skipn n l1) (skipn n l2).
Proof.
  induction n as [|n IH]; intros l1 l2 H; [exact H|].
  destruct H; cbn [skipn]; [constructor | now apply IH].
Qed.

Lemma Forall2_rev_same {X : Type} (R : X -> X -> Prop) l1 l2 :
  Forall2 R l1 l2 -> Forall2 R (rev l1) (rev l2).
Proof.
  induction 1; cbn [rev]; [constructor|].
  apply Forall2_app; [assumption | now repeat constructor].
Qed.

Lemma scan_loop_same hs1 hs2 :
  Forall2 same_for_scan hs1 hs2 ->
  forall st, scan_loop hs1 st = scan_loop hs2 st.
Proof.
  induction 1 as [|a b hs1 hs2 Hab _ IH]; intros st; [reflexivity|].
  cbn [scan_loop]. destruct Hab as [->|[Ha Hb]].
  - destruct (scan_turn b st) as [st' [|]]; [apply IH | reflexivity].
  - rewrite (scan_turn_skip a st Ha), (scan_turn_skip b st Hb). apply IH.
Qed.

(** X4: what the player or any other role than "assistant" says never
    changes the resolved roll: two histories that differ only in entries
    that are not of the assistant resolve to the same roll. *)
Theorem other_roles_do_not_count (h1 h2 : list Turn) :
  Forall2 same_for_scan h1 h2 ->
  resolve_pending_roll h1 = resolve_pending_roll h2.
Proof.
  intros H. unfold resolve_pending_roll, scan_history, last_n.
  rewrite (Forall2_length H). f_equal.
  apply scan_loop_same, Forall2_rev_same, Forall2_skipn, H.
Qed.

Lemma other_roles_do_not_count_witness :
  resolve_pending_roll
    [stealth_request; mkTurn (Some "user") (Some "I roll initiative, AC 3")]
  = resolve_pending_roll [stealth_request; mkTurn None None].
Proof.
  apply other_roles_do_not_count.
  constructor; [now left|]. constructor; [|constructor].
  right. split; reflexivity.
Defined.

(** X5: initiative comes first within an entry: when the last entry of the
    history is of the assistant and has the word "initiative", in any case
    of letters, the pending roll is for initiative, without a skill and with
    the targets of that entry alone, whatever check, save or attack the same
    entry or older ones ask for. *)
Theorem initiative_takes_precedence (older : list Turn) (t : Turn)
    (txt : string) :
  role t = Some "assistant" -> content t = Some txt ->
  contains "initiative" (lower txt) = true ->
  resolve_pending_roll (older ++ [t])
  = mkScan (Some "initiative") None
      (mention re_dc (lower txt)) (mention re_ac (lower txt)).
Proof.
  intros Hr Hc Hi.
  assert (Ha : assistant_text t = Some (lower txt)).
  { unfold assistant_text. now rewrite Hr, Hc. }
  assert (Hcl : classify (lower txt) = Some ("initiative", None)).
  { unfold classify. cbn [existsb]. now rewrite Hi. }
  unfold resolve_pending_roll, scan_history.
  rewrite (last_n_app_le 8 older [t]) by (cbn; lia).
  rewrite rev_app_distr. cbn [rev app scan_loop].
  rewrite scan_turn_spec by reflexivity. rewrite Ha. cbv zeta. rewrite Hcl.
  unfold note_targets.
  destruct (mention re_dc (lower txt)), (mention re_ac (lower txt));
    reflexivity.
Qed.

Lemma initiative_takes_precedence_witness :
  resolve_pending_roll ([stealth_request] ++ [initiative_and_check])
  = mkScan (Some "initiative") None (Some 15%Z) None.
Proof.
  refine (eq_trans
            (initiative_takes_precedence [stealth_request] initiative_and_check
               "Make a Stealth check (DC 15), then roll Initiative."
               eq_refl eq_refl _) _);
    reflexivity.
Defined.

(** ** The numbers read from a text *)

Lemma digits_value_nonneg s : forall acc v,
  (0 <= acc)%Z -> digits_value acc s = Some v -> (0 <= v)%Z.
Proof.
  induction s as [|c s IH]; cbn [digits_value]; intros acc v Hacc H.
  - inversion H. now subst.
  - destruct (is_digit c); [|discriminate].
    apply (IH (10 * acc + Z.of_nat (code c - 48))%Z v); [lia | exact H].
Qed.

Lemma mention_nonneg r m v : mention r m = Some v -> (0 <= v)%Z.
Proof.
  unfold mention, py_int. destruct (search r m) as [gs|]; [|discriminate].
  destruct (group 1 gs); [discriminate|].
  apply digits_value_nonneg. lia.
Qed.

Lemma first_total_mention ps m v :
  first_total ps m = Some v -> exists p, In p ps /\ mention p m = Some v.
Proof.
  induction ps as [|p ps IH]; [discriminate|].
  rewrite first_total_cons. destruct (mention p m) as [w|] eqn:Hm.
  - intros H. inversion H; subst. exists p. split; [now left | exact Hm].
  - intros H. destruct (IH H) as (q & Hq & Hv). exists q. split; [now right | exact Hv].
Qed.

Lemma last_error_in {X : Type} (l : list X) v : last_error l = Some v -> In v l.
Proof.
  unfold last_error. intros H. apply in_rev.
  destruct (rev l); [discriminate|]. inversion H. now left.
Qed.

Lemma mentions_in f hs v : In v (mentions f hs) -> exists h, f h = Some v.
Proof.
  induction hs as [|h hs IH]; cbn [mentions]; [intros []|].
  destruct (f h) as [w|] eqn:Hf; [|exact IH].
  intros [<-|H]; [now exists h | now apply IH].
Qed.

Lemma default_targets_values st :
  (forall v, last_dc (default_targets st) = Some v ->
             last_dc st = Some v \/ v = 12%Z \/ v = 13%Z)
  /\ (forall v, last_ac (default_targets st) = Some v ->
                last_ac st = Some v \/ v = 13%Z).
Proof.
  defaults_cases st; split; intros v H; inversion H; auto.
Qed.

(** X6: no number read from a text is negative, a sign before the digits
    is never read: the reported total, and the DC and the AC of the resolved
    roll, are at least 0. *)
Theorem numbers_are_not_negative :
  (forall message v, extract_roll_total message = Some v -> (0 <= v)%Z)
  /\ (forall history v,
        last_dc (resolve_pending_roll history) = Some v -> (0 <= v)%Z)
  /\ (forall history v,
        last_ac (resolve_pending_roll history) = Some v -> (0 <= v)%Z).
Proof.
  split; [|split].
  - intros message v H. apply first_total_mention in H.
    destruct H as (p & _ & H). now apply mention_nonneg in H.
  - intros history v H. unfold resolve_pending_roll in H.
    apply (proj1 (default_targets_values _)) in H.
    destruct H as [H|[->| ->]]; try lia.
    rewrite scan_history_dc in H. apply last_error_in, mentions_in in H.
    destruct H as (h & H). unfold dc_of in H.
    destruct (assistant_text h); [|discriminate]. now apply mention_nonneg in H.
  - intros history v H. unfold resolve_pending_roll in H.
    apply (proj2 (default_targets_values _)) in H.
    destruct H as [H| ->]; try lia.
    rewrite scan_history_ac in H. apply last_error_in, mentions_in in H.
    destruct H as (h & H). unfold ac_of in H.
    destruct (assistant_text h); [|discriminate]. now apply mention_nonneg in H.
Qed.

Lemma numbers_are_not_negative_witness :
  extract_roll_total "I rolled -5" = Some 5%Z /\ (0 <= 5)%Z.
Proof.
  split; [reflexivity|].
  apply (proj1 numbers_are_not_negative "I rolled -5"). reflexivity.
Defined.

(** ** No total without its keyword *)

Lemma search_from_locates r :
  forall s prev gs,
    search_from r prev s = Some gs ->
    exists pre s0 prev0 prev' s',
      s = pre ++ s0 /\ matches r prev0 s0 [] prev' s' gs.
Proof.
  induction s as [|c s IH]; intros prev gs H; cbn [search_from] in H.
  - destruct (run r (fun _ _ g => Some g) prev EmptyString []) as [g|] eqn:Hr;
      [|discriminate].
    inversion H; subst g. apply run_sound in Hr.
    destruct Hr as (p' & s' & g' & Hm & Hk). inversion Hk; subst g'.
    now exists EmptyString, EmptyString, prev, p', s'.
  - destruct (run r (fun _ _ g => Some g) prev (String c s) []) as [g|] eqn:Hr.
    + inversion H; subst g. apply run_sound in Hr.
      destruct Hr as (p' & s' & g' & Hm & Hk). inversion Hk; subst g'.
      now exists EmptyString, (String c s), prev, p', s'.
    + apply IH in H. destruct H as (pre & s0 & p0 & p' & s' & -> & Hm).
      now exists (String c pre), s0, p0, p', s'.
Qed.

Lemma matches_lit w : forall prev s gs prev' s' gs',
  matches (lit w) prev s gs prev' s' gs' -> s = w ++ s'.
Proof.
  induction w as [|c w IH]; intros prev s gs prev' s' gs' H; cbn [lit] in H.
  - now inversion H.
  - inversion H; subst.
    match goal with
    | H1 : matches (chr _) _ _ _ _ _ _, H2 : matches (lit _) _ _ _ _ _ _ |- _ =>
        inversion H1; subst; apply IH in H2; subst
    end.
    match goal with
    | Hc : Ascii.eqb c _ = true |- _ => apply Ascii.eqb_eq in Hc; now subst
    end.
Qed.

Lemma requires_reads w r :
  requires w r ->
  forall prev s gs prev' s' gs',
    matches r prev s gs prev' s' gs' -> exists a b, s = a ++ w ++ b.
Proof.
  induction 1 as [rest|pre r _ IH]; intros prev s gs prev' s' gs' Hm;
    inversion Hm; subst.
  - match goal with
    | H1 : matches (lit _) _ _ _ _ _ _ |- _ => apply matches_lit in H1; subst
    end.
    now exists EmptyString, s1.
  - match goal with
    | H1 : matches pre _ _ _ _ _ _, H2 : matches r _ _ _ _ _ _ |- _ =>
        apply matches_suffix in H1; destruct H1 as [d ->];
        apply IH in H2; destruct H2 as (a & b & ->)
    end.
    exists (d ++ a), b. now rewrite app_string_assoc.
Qed.

Lemma prefix_app w b : prefix w (w ++ b) = true.
Proof.
  induction w as [|c w IH]; cbn [append prefix].
  - now destruct b.
  - destruct (ascii_dec c c); [exact IH | congruence].
Qed.

Lemma contains_app a w b : contains w (a ++ w ++ b) = true.
Proof.
  induction a as [|c a IH]; cbn [append].
  - destruct (w ++ b) eqn:E; cbn [contains]; rewrite <- E, prefix_app;
      reflexivity.
  - cbn [contains]. rewrite IH. apply orb_true_r.
Qed.

Lemma search_requires w r m gs :
  requires w r -> search r m = Some gs -> contains w m = true.
Proof.
  intros Hr Hs. apply search_from_locates in Hs.
  destruct Hs as (pre & s0 & p0 & p' & s' & -> & Hm).
  destruct (requires_reads w r Hr _ _ _ _ _ _ Hm) as (a & b & ->).
  rewrite <- app_string_assoc. apply contains_app.
Qed.

(** X7: a total is only ever extracted from a message that has the word
    "rolled" or the word "total", in any case of letters: a number alone,
    as in a description of an action, never counts as a reported roll. *)
Theorem total_needs_keyword (message : string) (v : Z) :
  extract_roll_total message = Some v ->
  contains "rolled" (lower message) = true
  \/ contains "total" (lower message) = true.
Proof.
  intros H. apply first_total_mention in H. destruct H as (p & Hp & Hm).
  unfold mention in Hm.
  destruct (search p (lower message)) as [gs|] eqn:Hs; [|discriminate].
  cbn in Hp. destruct Hp as [<-|[<-|[<-|[]]]].
  - left. apply (search_requires "rolled" re_i_rolled _ gs); [|exact Hs].
    unfold re_i_rolled. cbn [seqs]. do 3 apply Req_later. apply Req_here.
  - left. apply (search_requires "rolled" re_rolled _ gs); [|exact Hs].
    unfold re_rolled. cbn [seqs]. apply Req_here.
  - right. apply (search_requires "total" re_total _ gs); [|exact Hs].
    unfold re_total. cbn [seqs]. apply Req_later. apply Req_here.
Qed.

Lemma total_needs_keyword_witness :
  contains "rolled" (lower "I Rolled 12") = true
  \/ contains "total" (lower "I Rolled 12") = true.
Proof. apply (total_needs_keyword "I Rolled 12" 12). reflexivity. Defined.

(** ** The classifier: one request of each kind at most, in a fixed order *)

Lemma literal_skill_loop_find sks m dc rs :
  literal_skill_loop sks m dc rs =
  (rs ++ match find (fun skill => contains skill m
                                  || contains ("roll for " ++ skill) m) sks with
         | Some skill => [check_request (title skill ++ " check") dc]
         | None => []
         end)%list.
Proof.
  induction sks as [|s sks IH]; cbn [literal_skill_loop find].
  - now rewrite app_nil_r.
  - destruct (contains s m || contains ("roll for " ++ s) m);
      [reflexivity | exact IH].
Qed.

Lemma detect_skill_in table m s :
  detect_skill table m = Some s -> In s (map fst table).
Proof.
  induction table as [|[name words] table IH]; cbn [detect_skill map fst];
    [discriminate|].
  destruct (existsb _ words).
  - intros H. inversion H. now left.
  - intros H. right. now apply IH.
Qed.

Lemma detected_skill_truthy m s :
  detect_skill synonyms m = Some s -> truthy (Some s) = true.
Proof.
  intros H. apply detect_skill_in in H. cbn in H.
  repeat (destruct H as [<-|H]; [reflexivity|]). destruct H.
Qed.

(** The list of requests, as one optional request of each kind. *)
Lemma classify_normal_form message :
  let m := lower message in
  let dc := mention re_dc_i m in
  classify_new_request message
  = ((if contains "initiative" m then [initiative_request] else [])
     ++ (if contains "attack" m then [attack_request] else [])
     ++ check_part m dc
     ++ (if contains "save" m then [save_request dc] else []))%list.
Proof.
  cbv zeta. unfold classify_new_request, requests_before_save, check_part.
  set (m := lower message). set (dc := mention re_dc_i m).
  rewrite literal_skill_loop_find.
  destruct (find _ skills) as [s|];
    destruct (detect_skill synonyms m) as [d|] eqn:Hd;
    try rewrite (detected_skill_truthy m d Hd);
    destruct (contains "initiative" m), (contains "attack" m),
             (contains "check" m), (contains "save" m);
    reflexivity.
Qed.

Lemma check_part_cases m dc :
  check_part m dc = []
  \/ exists purpose,
       truthy (Some purpose) = true
       /\ check_part m dc = [check_request purpose dc].
Proof.
  unfold check_part.
  destruct (find _ skills) as [s|].
  - right. exists (title s ++ " check"). split; [|reflexivity].
    unfold title. now destruct s.
  - destruct (detect_skill synonyms m) as [s|].
    + right. exists (title s ++ " check"). split; [|reflexivity].
      unfold title. now destruct s.
    + destruct (contains "check" m); [|now left].
      right. now exists "Ability check".
Qed.

(** X8: a message gives rise to one request for a check at most, chosen by
    precedence: a skill that the message names, the first in the order of
    the list of skills, wins over a skill suggested by a synonym, and the
    word "check" alone asks for an "Ability check" only when neither is
    found. *)
Theorem one_check_by_precedence (message : string) :
  let m := lower message in
  let dc := mention re_dc_i m in
  filter (fun r => rr_type r =? "check") (classify_new_request message)
  = check_part m dc
  /\ (List.length (check_part m dc) <= 1)%nat
  /\ (forall skill,
        find (fun skill => contains skill m
                           || contains ("roll for " ++ skill) m) skills
        = Some skill ->
        check_part m dc = [check_request (title skill ++ " check") dc]).
Proof.
  cbv zeta. split; [|split].
  - rewrite classify_normal_form. cbv zeta.
    destruct (check_part_cases (lower message)
                (mention re_dc_i (lower message))) as [->|(p & _ & ->)];
      destruct (contains "initiative" (lower message)),
               (contains "attack" (lower message)),
               (contains "save" (lower message)); reflexivity.
  - destruct (check_part_cases (lower message)
                (mention re_dc_i (lower message))) as [->|(p & _ & ->)];
      cbn; lia.
  - intros skill H. unfold check_part. now rewrite H.
Qed.

(** X8 on a message that has a synonym of stealth ("sneak") and names
    perception: the check is for perception. *)
Lemma one_check_by_precedence_witness :
  filter (fun r => rr_type r =? "check")
    (classify_new_request sneak_and_perception)
  = [check_request "Perception check" None]
  /\ detect_skill synonyms (lower sneak_and_perception) = Some "stealth".
Proof.
  split; [|reflexivity].
  refine (eq_trans (proj1 (one_check_by_precedence sneak_and_perception)) _).
  refine (eq_trans
            (proj2 (proj2 (one_check_by_precedence sneak_and_perception))
               "perception" eq_refl) _).
  reflexivity.
Defined.

(** X9: the requests come in the order initiative, attack, check, save,
    each kind once at most, so never more than four; the DC that the
    message states goes to the check and to the save and to nothing else,
    and the attack alone has an AC, always 13. *)
Theorem requests_in_fixed_order (message : string) :
  let m := lower message in
  let dc := mention re_dc_i m in
  let requests := classify_new_request message in
  map rr_type requests
  = ((if contains "initiative" m then ["initiative"] else [])
     ++ (if contains "attack" m then ["attack"] else [])
     ++ (match check_part m dc with [] => [] | _ => ["check"] end)
     ++ (if contains "save" m then ["save"] else []))%list
  /\ NoDup (map rr_type requests)
  /\ (List.length requests <= 4)%nat
  /\ Forall (fun r =>
               rr_dc r = (if (rr_type r =? "check") || (rr_type r =? "save")
                          then dc else None)
               /\ rr_ac r = (if rr_type r =? "attack" then Some 13%Z
                             else None)) requests.
Proof.
  cbv zeta. rewrite classify_normal_form. cbv zeta.
  destruct (check_part_cases (lower message)
              (mention re_dc_i (lower message))) as [->|(p & _ & ->)];
    destruct (contains "initiative" (lower message)),
             (contains "attack" (lower message)),
             (contains "save" (lower message));
    cbn [app map List.length rr_type initiative_request attack_request
         save_request check_request];
    (split; [reflexivity|]);
    (split; [repeat constructor; cbn; intuition discriminate|]);
    (split; [lia|]);
    repeat constructor.
Qed.

(** ** The sentence that asks for the roll *)

Lemma prefix_please purpose target :
  prefix "Please roll " ("Please roll " ++ purpose ++ target ++ ".") = true.
Proof. apply prefix_app. Qed.

(** X10: the answer of [heuristic_response] asks for the first request
    only: with "initiative" in the message the text is "Please roll Roll
    initiative.", else with "attack" it is "Please roll Attack roll (AC
    13).", whatever check, save or DC the message has besides; with a check
    first, the text names its purpose and the DC if one is stated; and
    without any request the text is the fixed invitation, followed by the
    generic menu only if the variable INLINE_OPTIONS is set to a true
    value. *)
Theorem headline_is_first_request (inline_options : option string)
    (req : DMRequest) :
  let m := lower (message req) in
  let dc := mention re_dc_i m in
  let r := heuristic_response inline_options req in
  roll_requests r = Some (classify_new_request (message req))
  /\ narration_segments r = Some [dm_segment (text r)]
  /\ (contains "initiative" m = true ->
      text r = "Please roll Roll initiative.")
  /\ (contains "initiative" m = false -> contains "attack" m = true ->
      text r = "Please roll Attack roll (AC 13).")
  /\ (contains "initiative" m = false -> contains "attack" m = false ->
      forall purpose, check_part m dc = [check_request purpose dc] ->
      truthy (Some purpose) = true ->
      text r = "Please roll " ++ purpose
               ++ match dc with
                  | Some d => " (DC " ++ py_str d ++ ")"
                  | None => ""
                  end ++ ".")
  /\ (classify_new_request (message req) = [] ->
      text r = if env_truthy inline_options
               then base_text ++ build_lettered_options None None None
               else base_text)
  /\ (classify_new_request (message req) <> [] ->
      prefix "Please roll " (text r) = true).
Proof.
  cbv zeta. unfold heuristic_response.
  cbn [roll_requests narration_segments text].
  split; [reflexivity|]. split; [reflexivity|].
  split; [|split; [|split; [|split]]].
  - intros Hi. rewrite classify_normal_form. cbv zeta. rewrite Hi. reflexivity.
  - intros Hi Ha. rewrite classify_normal_form. cbv zeta. rewrite Hi, Ha.
    reflexivity.
  - intros Hi Ha purpose Hc Hp. rewrite classify_normal_form. cbv zeta.
    rewrite Hi, Ha, Hc. cbn [app rr_purpose rr_dc rr_ac check_request].
    unfold or_default. rewrite Hp. cbn [or_empty].
    now destruct (mention re_dc_i (lower (message req))).
  - intros ->. now destruct (env_truthy inline_options).
  - destruct (classify_new_request (message req)) as [|rr rest];
      [congruence|]. intros _. apply prefix_please.
Qed.

(** X10 on a message that asks for everything at once: the text asks for
    initiative alone. *)
Lemma headline_is_first_request_witness :
  text (heuristic_response None everything_at_once)
  = "Please roll Roll initiative."
  /\ List.length (classify_new_request (message everything_at_once)) = 4%nat.
Proof.
  split; [|reflexivity].
  apply (proj1 (proj2 (proj2 (headline_is_first_request None everything_at_once)))).
  reflexivity.
Defined.

(** ** The endpoint [/dm/respond] and the language model *)

Lemma try_models_generated post inline models req r :
  try_models post inline models req = Some r ->
  exists mdl text,
    In mdl models /\ post mdl req = Some text
    /\ r = generated_response inline text req.
Proof.
  induction models as [|mdl models IH]; cbn [try_models]; [discriminate|].
  destruct (post mdl req) as [text|] eqn:Hp.
  - intros H. inversion H. exists mdl, text. split; [now left|]. now split.
  - intros H. destruct (IH H) as (m' & t & Hin & Hp' & Hr).
    exists m', t. split; [now right|]. now split.
Qed.

Lemma try_models_none post inline models req :
  (forall mdl, In mdl models -> post mdl req = None) ->
  try_models post inline models req = None.
Proof.
  induction models as [|mdl models IH]; intros H; [reflexivity|].
  cbn [try_models]. rewrite (H mdl (or_introl eq_refl)).
  apply IH. intros m' Hm. apply H. now right.
Qed.

(** X11: the roll requests of an answer never depend on the language
    model, on the key or on the network: they are empty when the message
    reports a total, and otherwise those of the classifier, on the branch of
    a completion as on the heuristic one; and the answer always has one
    narration segment of type "dm" with the text of the answer. *)
Theorem requests_do_not_depend_on_model
    (post : string -> DMRequest -> option string)
    (inline_options api_key requested_model : option string)
    (req : DMRequest) :
  let r := respond_service post inline_options api_key requested_model req in
  roll_requests r
  = Some (match extract_roll_total (message req) with
          | Some _ => []
          | None => classify_new_request (message req)
          end)
  /\ narration_segments r = Some [dm_segment (text r)].
Proof.
  cbv zeta. unfold respond_service, respond, roll_followup_from_history.
  destruct (extract_roll_total (message req)) as [v|]; [now split|].
  unfold openrouter_branch.
  destruct (truthy api_key); [|now split].
  destruct (try_models post inline_options (models_to_try requested_model) req)
    as [r|] eqn:Hr; [|now split].
  apply try_models_generated in Hr. destruct Hr as (mdl & t & _ & _ & ->).
  now split.
Qed.

(** X12: without a key (absent or empty), and when no model of the list
    gives a completion, whatever the failure, a message that reports no
    total gets exactly the answer of [heuristic_response]: a failure of the
    network is never an error of the endpoint. *)
Theorem network_failure_falls_back
    (post : string -> DMRequest -> option string)
    (inline_options api_key requested_model : option string)
    (req : DMRequest) :
  extract_roll_total (message req) = None ->
  truthy api_key = false
  \/ (forall mdl, In mdl (models_to_try requested_model) ->
                  post mdl req = None) ->
  respond_service post inline_options api_key requested_model req
  = heuristic_response inline_options req.
Proof.
  intros Hx H. unfold respond_service, respond, roll_followup_from_history.
  rewrite Hx. unfold openrouter_branch.
  destruct H as [-> | H]; [reflexivity|].
  destruct (truthy api_key); [|reflexivity].
  now rewrite try_models_none.
Qed.

Lemma network_failure_falls_back_witness :
  respond_service network_down None (Some "sk-key") (Some "some/model")
    sneak_request
  = heuristic_response None sneak_request
  /\ respond_service only_free_answers None (Some "") None sneak_request
     = heuristic_response None sneak_request.
Proof.
  split.
  - apply network_failure_falls_back; [reflexivity|]. right. reflexivity.
  - apply network_failure_falls_back; [reflexivity|]. left. reflexivity.
Defined.

(** X13: the list of models to try is never empty and has no model twice;
    the free model is always in it, as its last element, and a requested
    model, when the variable is set to a non-empty name, is tried first. *)
Theorem free_model_is_tried_last (requested_model : option string) :
  let models := models_to_try requested_model in
  NoDup models
  /\ last models EmptyString = free_model
  /\ (1 <= List.length models <= 2)%nat
  /\ (forall name, requested_model = Some name -> name <> EmptyString ->
        hd EmptyString models = name).
Proof.
  cbv zeta. unfold models_to_try.
  destruct requested_model as [name|]; cbn [truthy or_empty].
  - destruct (String.eqb_spec name EmptyString) as [->|Hne]; cbn [negb].
    + cbn [existsb]. repeat split; cbn; try lia.
      * repeat constructor. intros [].
      * intros name H. inversion H. congruence.
    + cbn [existsb]. rewrite orb_false_r.
      destruct (String.eqb_spec free_model name) as [<-|Hfree].
      * repeat split; cbn; try lia.
        -- repeat constructor. intros [].
        -- intros n H. now inversion H.
      * repeat split; cbn [app last hd List.length]; try lia.
        -- repeat constructor; cbn; intuition congruence.
        -- intros n H. now inversion H.
  - cbn [existsb]. repeat split; cbn; try lia.
    + repeat constructor. intros [].
    + intros name H. discriminate H.
Qed.

(** With a list in which the free model comes last, a completion of the
    free model is used when the requested model fails. *)
Example free_model_answers_ex :
  text (respond_service only_free_answers None (Some "sk-key")
          (Some "some/model") sneak_request)
  = "The door creaks open.".
Proof. reflexivity. Qed.

(** ** The endpoint [/dm/options] *)

Lemma normalize_options_three raw :
  exists e1 e2 e3 l1 l2 l3,
    normalize_options raw = Some [e1; e2; e3]
    /\ canonical l1 e1 /\ canonical l2 e2 /\ canonical l3 e3.
Proof.
  unfold normalize_options.
  destruct (pad_fillers (pick (stripped_lines raw) [])) as [Hpad Hlen].
  rewrite Hpad.
  assert (Hall : Forall (fun e => exists l, canonical l e)
                   (pick (stripped_lines raw) []
                    ++ skipn (List.length (pick (stripped_lines raw) []))
                         fillers)%list).
  { apply Forall_app. split; [|apply skipn_fillers_canonical].
    eapply Forall_impl; [|apply pick_from_lines].
    intros e (ln & _ & He).
    destruct (format_line_canonical ln e He) as (c & rest & _ & Hc). eauto. }
  destruct (pick (stripped_lines raw) []
            ++ skipn (List.length (pick (stripped_lines raw) [])) fillers)%list
    as [|e1 [|e2 [|e3 more]]]; cbn in Hlen; try lia.
  inversion Hall as [|? ? [l1 H1] Hall1]; subst.
  inversion Hall1 as [|? ? [l2 H2] Hall2]; subst.
  inversion Hall2 as [|? ? [l3 H3] _]; subst.
  exists e1, e2, e3, l1, l2, l3.
  split; [reflexivity|]. split; [exact H1|]. split; [exact H2 | exact H3].
Qed.

Lemma canonical_lettered l e : canonical l e -> lettered e = true.
Proof.
  intros [Hl (head & [-> | [tail ->]])]; cbn in Hl;
    repeat (destruct Hl as [<-|Hl]; [reflexivity|]); destruct Hl.
Qed.

(** X14: whatever the key, the answer of the language model and the
    failures of the call, [/dm/options] returns exactly three options, each
    beginning with a letter of A, B, C, a dot and a blank: what the test of
    the repository asserts of the fallback holds on every path. *)
Theorem options_are_three_lettered (api_key completion : option string) :
  exists a b c,
    generate_options api_key completion = [a; b; c]
    /\ lettered a = true /\ lettered b = true /\ lettered c = true.
Proof.
  unfold generate_options.
  assert (Hg : exists a b c,
             generic_options = [a; b; c]
             /\ lettered a = true /\ lettered b = true /\ lettered c = true).
  { do 3 eexists. repeat split. }
  destruct (truthy api_key); cbn [negb]; [|exact Hg].
  destruct completion as [text|]; [|exact Hg].
  destruct (normalize_options_three text)
    as (e1 & e2 & e3 & l1 & l2 & l3 & -> & H1 & H2 & H3).
  exists e1, e2, e3. split; [reflexivity|].
  repeat split; eapply canonical_lettered; eassumption.
Qed.

(** ** The resolver: the most recent request decides *)

Lemma scan_loop_until newer t rest c k sk :
  Forall (fun h => yields_kind h = false) newer ->
  assistant_text t = Some c -> classify c = Some (k, sk) ->
  forall st, last_kind st = None -> last_skill st = None ->
    last_kind (scan_loop (newer ++ t :: rest) st) = Some k
    /\ last_skill (scan_loop (newer ++ t :: rest) st) = sk.
Proof.
  intros Hn Ha Hc. induction Hn as [|h newer Hh _ IH]; intros st Hk Hs.
  - cbn [app scan_loop]. rewrite (scan_turn_spec t st Hk), Ha. cbv zeta.
    rewrite Hc. destruct sk as [s|];
      cbn [set_kind set_skill last_kind last_skill]; [now split|].
    now rewrite note_targets_skill.
  - cbn [app scan_loop].
    destruct (scan_turn_cases h st Hk) as [_ _ Hst|c' _ _ Hst|c' st' _ Hy _ _ _];
      try congruence; rewrite Hst; apply IH;
      rewrite ?note_targets_kind, ?note_targets_skill; assumption.
Qed.

Lemma scanned_until newer t rest :
  Forall (fun h => yields_kind h = false) newer -> yields_kind t = true ->
  scanned (newer ++ t :: rest) = (newer ++ [t])%list.
Proof.
  intros Hn Ht. induction Hn as [|h newer Hh _ IH]; cbn [app scanned].
  - now rewrite Ht.
  - now rewrite Hh, IH.
Qed.

Lemma mentions_app f a b :
  mentions f (a ++ b) = (mentions f a ++ mentions f b)%list.
Proof.
  induction a as [|h a IH]; cbn [app mentions]; [reflexivity|].
  destruct (f h); cbn [app]; now rewrite IH.
Qed.

Lemma last_error_snoc {X : Type} (l : list X) v : last_error (l ++ [v]) = Some v.
Proof. unfold last_error. now rewrite rev_app_distr. Qed.

(** X15: the most recent assistant entry that asks for a roll, if it is
    among the last 8 entries, decides the pending roll whatever came before
    it: the kind and the skill are its own, and the DC and the AC are its
    own too whenever it states them, even if later entries that ask for no
    roll mention other targets. *)
Theorem most_recent_request_decides (older newer : list Turn) (t : Turn)
    (c k : string) (sk : option string) :
  (List.length (t :: newer) <= 8)%nat ->
  Forall (fun h => yields_kind h = false) newer ->
  assistant_text t = Some c -> classify c = Some (k, sk) ->
  let ctx := resolve_pending_roll (older ++ t :: newer) in
  last_kind ctx = Some k /\ last_skill ctx = sk
  /\ (forall v, mention re_dc c = Some v -> last_dc ctx = Some v)
  /\ (forall v, mention re_ac c = Some v -> last_ac ctx = Some v).
Proof.
  intros Hlen Hn Ha Hc. cbv zeta.
  assert (Hy : yields_kind t = true).
  { rewrite yields_kind_spec, Ha. now rewrite Hc. }
  assert (Hn' : Forall (fun h => yields_kind h = false) (rev newer))
    by now apply Forall_rev.
  assert (Hrev : rev (last_n 8 (older ++ t :: newer))
                 = (rev newer ++ t :: rev (last_n (8 - List.length (t :: newer)) older))%list).
  { rewrite last_n_app_le by exact Hlen. rewrite rev_app_distr. cbn [rev].
    now rewrite <- app_assoc. }
  unfold resolve_pending_roll.
  rewrite default_targets_kind, default_targets_skill.
  split; [|split; [|split]].
  - unfold scan_history. rewrite Hrev.
    now apply (scan_loop_until (rev newer) t _ c k sk Hn' Ha Hc).
  - unfold scan_history. rewrite Hrev.
    now apply (scan_loop_until (rev newer) t _ c k sk Hn' Ha Hc).
  - intros v Hv. apply default_targets_dc_some.
    rewrite scan_history_dc. unfold visited. rewrite Hrev.
    rewrite (scanned_until _ _ _ Hn' Hy), mentions_app. cbn [mentions].
    rewrite (dc_of_text t c Ha), Hv. apply last_error_snoc.
  - intros v Hv. apply default_targets_ac_some.
    rewrite scan_history_ac. unfold visited. rewrite Hrev.
    rewrite (scanned_until _ _ _ Hn' Hy), mentions_app. cbn [mentions].
    rewrite (ac_of_text t c Ha), Hv. apply last_error_snoc.
Qed.

(** X15 on [two_mentions]: the request for a stealth check with DC 14 and
    AC 16 decides, not the later remark with DC 18 and AC 17. *)
Lemma most_recent_request_decides_witness :
  resolve_pending_roll two_mentions
  = mkScan (Some "check") (Some "stealth") (Some 14%Z) (Some 16%Z).
Proof.
  pose proof (most_recent_request_decides []
                [mkTurn (Some "user") (Some "What about the door?");
                 mkTurn (Some "assistant")
                   (Some "The lock is DC 18 and the golem behind it AC 17.")]
                (mkTurn (Some "assistant")
                   (Some "Roll for Stealth, DC 14; the guard has AC 16."))
                "roll for stealth, dc 14; the guard has ac 16."
                "check" (Some "stealth")) as H.
  cbv zeta in H.
  destruct H as (Hk & Hs & Hd & Ha).
  - cbn. lia.
  - repeat constructor.
  - reflexivity.
  - reflexivity.
  - specialize (Hd 14%Z eq_refl). specialize (Ha 16%Z eq_refl).
    change ([] ++ _ :: _)%list with two_mentions in Hk, Hs, Hd, Ha.
    destruct (resolve_pending_roll two_mentions) as [k s d a].
    cbn in Hk, Hs, Hd, Ha. now subst.
Defined.

(** ** The normaliser: which lines it accepts *)

(** A greedy repetition whose continuation succeeds where the class ends
    succeeds there: no backtracking takes place. *)
Lemma run_star_greedy {A : Type} (p : ascii -> bool)
    (k : option ascii -> string -> list string -> option A) gs x :
  forall s prev,
    (forall prev', k prev' (skip_class p s) gs = Some x) ->
    run (Star p) k prev s gs = Some x.
Proof.
  induction s as [|c s IH]; intros prev H.
  - apply H.
  - cbn [skip_class] in H. simpl. destruct (p c).
    + change ((fix loop (prev0 : option ascii) (s0 : string) {struct s0} :
                 option A :=
                 match s0 with
                 | EmptyString => k prev0 s0 gs
                 | String c0 s' =>
                     if p c0
                     then match loop (Some c0) s' with
                          | Some x0 => Some x0
                          | None => k prev0 s0 gs
                          end
                     else k prev0 s0 gs
                 end) (Some c) s)
        with (run (Star p) k (Some c) s gs).
      now rewrite (IH (Some c) H).
    + apply H.
Qed.

Lemma skip_space_lstrip s : skip_class is_space s = lstrip s.
Proof.
  induction s as [|c s IH]; cbn [skip_class lstrip]; [reflexivity|].
  now rewrite IH.
Qed.

Lemma skip_class_all p s : all_chars p s = true -> skip_class p s = EmptyString.
Proof.
  induction s as [|c s IH]; cbn [all_chars skip_class]; [reflexivity|].
  intros H. apply andb_prop in H. destruct H as [-> H]. now apply IH.
Qed.

Lemma all_chars_lstrip p s : all_chars p s = true -> all_chars p (lstrip s) = true.
Proof.
  induction s as [|c s IH]; cbn [all_chars lstrip]; [reflexivity|].
  intros H. destruct (is_space c); [|exact H].
  apply andb_prop in H. now apply IH.
Qed.

Lemma all_chars_rstrip p s : all_chars p s = true -> all_chars p (rstrip s) = true.
Proof.
  induction s as [|c s IH]; cbn [all_chars rstrip]; [reflexivity|].
  intros H. apply andb_prop in H. destruct H as [Hc Hs].
  specialize (IH Hs). destruct (rstrip s) as [|d r].
  - destruct (is_space c); cbn [all_chars]; [reflexivity | now rewrite Hc].
  - cbn [all_chars] in *. now rewrite Hc, IH.
Qed.

Lemma all_chars_strip p s : all_chars p s = true -> all_chars p (strip s) = true.
Proof. intros H. now apply all_chars_rstrip, all_chars_lstrip. Qed.

Lemma consumed_all s : consumed s EmptyString = s.
Proof.
  rewrite <- (consumed_app s EmptyString) at 2.
  f_equal. induction s as [|c s IH]; cbn [append]; [reflexivity|].
  now rewrite <- IH.
Qed.

(** The match of the pattern on an accepted line: the letter, and the rest
    of the line after the dot and the blanks. *)
Lemma rmatch_option_line c rest :
  between 65 67 c = true -> all_chars dot rest = true ->
  rmatch re_option (String c (String "." rest))
  = Some [String c EmptyString; lstrip rest].
Proof.
  intros Hc Hrest. unfold rmatch, re_option. cbn [seqs].
  change (run (Seq Bol ?r) ?k None ?s ?gs) with (run r k None s gs).
  change (run (Seq (Grp (Cls ?p)) ?r) ?k ?prev (String c ?s) ?gs)
    with (if p c
          then run r k (Some c) s (gs ++ [consumed (String c s) s])%list
          else None).
  rewrite Hc.
  change (consumed (String c (String "." rest)) (String "." rest))
    with (consumed (String c EmptyString ++ String "." rest) (String "." rest)).
  rewrite consumed_app. cbn [app].
  change (run (Seq (chr ".") ?r) ?k ?prev (String "." ?s) ?gs)
    with (run r k (Some "."%char) s gs).
  change (run (Seq (Star is_space) ?r) ?k ?prev ?s ?gs)
    with (run (Star is_space) (run r k) prev s gs).
  apply run_star_greedy. intros prev'. rewrite skip_space_lstrip.
  change (run (Seq (Grp (Star dot)) Eol) ?k ?prev ?s ?gs)
    with (run (Star dot)
            (fun p' s' gs' =>
               run Eol k p' s' (gs' ++ [consumed s s'])%list) prev s gs).
  apply run_star_greedy. intros prev''.
  rewrite (skip_class_all dot _ (all_chars_lstrip dot rest Hrest)).
  cbn [run at_end app]. now rewrite consumed_all.
Qed.

Lemma split_comma_none body :
  contains "," body = false -> split_comma body = None.
Proof.
  induction body as [|c body IH]; cbn [contains prefix split_comma];
    [reflexivity|].
  destruct (ascii_dec "," c) as [<-|Hne].
  - destruct body; discriminate.
  - cbn [orb]. intros H. rewrite (IH H).
    destruct (Nat.eqb_spec (code c) 44) as [Hc|_]; [|reflexivity].
    exfalso. apply Hne. rewrite <- (ascii_nat_embedding c).
    unfold code in Hc. now rewrite Hc.
Qed.

Lemma format_line_formatted c rest :
  between 65 67 c = true -> all_chars dot rest = true ->
  format_line (String c (String "." rest)) = Some (formatted c rest).
Proof.
  intros Hc Hrest. unfold format_line, formatted.
  rewrite (rmatch_option_line c rest Hc Hrest). cbn [group Nat.sub nth].
  destruct (contains "," (strip (lstrip rest))) eqn:Hcomma.
  - destruct (split_comma_some _ Hcomma) as (h & t & ->). reflexivity.
  - now rewrite (split_comma_none _ Hcomma).
Qed.

Lemma format_line_option_line ln e : format_line ln = Some e -> option_line ln.
Proof.
  unfold format_line. destruct (rmatch re_option ln) as [m|] eqn:H;
    [|discriminate].
  intros _. apply run_sound in H.
  destruct H as (p' & s' & gs & Hm & _).
  unfold re_option in Hm. cbn [seqs] in Hm.
  inversion Hm as [| | | |? ? ? ? ? p1 s1 g1 ? ? ? Hbol Hm1| | | | | |];
    subst; clear Hm.
  inversion Hbol; subst; clear Hbol.
  inversion Hm1 as [| | | |? ? ? ? ? p2 s2 g2 ? ? ? Hg1 Hm2| | | | | |];
    subst; clear Hm1.
  inversion Hg1 as [| | | | | | |? ? ? ? ? ? ? Hc| | |]; subst; clear Hg1.
  inversion Hc; subst; clear Hc.
  inversion Hm2 as [| | | |? ? ? ? ? p3 s3 g3 ? ? ? Hdot Hm3| | | | | |];
    subst; clear Hm2.
  inversion Hdot; subst; clear Hdot.
  match goal with
  | Hc : between 65 67 ?c = true, Hd : Ascii.eqb "." ?d = true |- _ =>
      apply Ascii.eqb_eq in Hd; subst d; exists c; eexists;
      split; [reflexivity | exact Hc]
  end.
Qed.

Lemma all_chars_of_list p l :
  all_chars p (string_of_list_ascii l) = forallb p l.
Proof.
  induction l as [|c l IH]; cbn; [reflexivity | now rewrite IH].
Qed.

Lemma all_chars_to_list p s :
  forallb p (list_ascii_of_string s) = all_chars p s.
Proof.
  induction s as [|c s IH]; cbn; [reflexivity | now rewrite IH].
Qed.

Lemma forallb_rev_same {X : Type} (p : X -> bool) l :
  forallb p (rev l) = forallb p l.
Proof.
  induction l as [|x l IH]; [reflexivity|].
  cbn [rev forallb]. rewrite forallb_app, IH. cbn [forallb].
  rewrite andb_true_r. apply andb_comm.
Qed.

Lemma all_chars_rev_string p s : all_chars p (rev_string s) = all_chars p s.
Proof.
  unfold rev_string.
  now rewrite all_chars_of_list, forallb_rev_same, all_chars_to_list.
Qed.

(** No line of [splitlines] has a line boundary in it. *)
Lemma splitlines_go_no_break s :
  forall cur after_cr,
    all_chars no_break cur = true ->
    Forall (fun ln => all_chars no_break ln = true)
           (splitlines_go cur after_cr s).
Proof.
  induction s as [|c s IH]; intros cur after_cr Hcur; cbn [splitlines_go].
  - destruct cur; constructor; [|constructor].
    now rewrite all_chars_rev_string.
  - destruct (after_cr && (code c =? 10)%nat); [now apply IH|].
    destruct (is_linebreak c) eqn:Hb.
    + constructor; [now rewrite all_chars_rev_string | now apply IH].
    + apply IH. cbn [all_chars]. unfold no_break at 1. now rewrite Hb.
Qed.

Lemma no_break_dot s : all_chars no_break s = true -> all_chars dot s = true.
Proof.
  induction s as [|c s IH]; cbn [all_chars]; [reflexivity|].
  intros H. apply andb_prop in H. destruct H as [Hc Hs].
  rewrite (IH Hs), andb_true_r.
  unfold no_break, is_linebreak, between in Hc. unfold dot.
  destruct (Nat.eqb_spec (code c) 10) as [E|_]; [|reflexivity].
  rewrite E in Hc. discriminate Hc.
Qed.

Lemma stripped_lines_no_break raw :
  Forall (fun ln => all_chars no_break ln = true) (stripped_lines raw).
Proof.
  unfold stripped_lines. apply Forall_map.
  assert (H : Forall (fun ln => all_chars no_break ln = true) (splitlines raw))
    by now apply splitlines_go_no_break.
  induction H as [|ln lns Hln _ IH]; cbn [filter]; [constructor|].
  destruct (negb (strip ln =? EmptyString)); [|exact IH].
  constructor; [now apply all_chars_strip | exact IH].
Qed.

(** X16: a line of the input gives an option exactly when, once stripped,
    it begins with a capital A, B or C followed by a dot; the option is then
    the letter, the head in bold, the head being the text up to the first
    comma if there is a comma, and all the text after the dot otherwise.
    Any other line, with a small letter, a digit, a bracket for the dot or
    text before the letter, is discarded. *)
Theorem accepted_lines (raw ln : string) :
  In ln (stripped_lines raw) ->
  ((exists e, format_line ln = Some e) <-> option_line ln)
  /\ (forall c rest,
        ln = String c (String "." rest) -> between 65 67 c = true ->
        format_line ln = Some (formatted c rest)).
Proof.
  intros Hin.
  assert (Hnb : all_chars no_break ln = true).
  { pose proof (stripped_lines_no_break raw) as H.
    rewrite Forall_forall in H. now apply H. }
  assert (Hfmt : forall c rest,
             ln = String c (String "." rest) -> between 65 67 c = true ->
             format_line ln = Some (formatted c rest)).
  { intros c rest -> Hc. apply format_line_formatted; [exact Hc|].
    apply no_break_dot in Hnb. cbn [all_chars] in Hnb.
    apply andb_prop in Hnb. destruct Hnb as [_ Hnb].
    apply andb_prop in Hnb. now destruct Hnb. }
  split; [|exact Hfmt]. split.
  - intros [e He]. now apply format_line_option_line in He.
  - intros (c & rest & Hln & Hc). exists (formatted c rest). now apply Hfmt.
Qed.

(** X16 on a text of four lines: only "B. Fight" is accepted. *)
Lemma accepted_lines_witness :
  format_line "B. Fight" = Some "B. **Fight**"
  /\ formatted_lines mixed_lines = ["B. **Fight**"].
Proof.
  split; [|reflexivity].
  refine (eq_trans (proj2 (accepted_lines mixed_lines "B. Fight" _)
                      "B"%char " Fight" eq_refl eq_refl) _).
  - now left.
  - reflexivity.
Defined.

(** ** The normaliser: its options are three lines *)

Lemma all_chars_app p a b :
  all_chars p (a ++ b) = all_chars p a && all_chars p b.
Proof.
  induction a as [|c a IH]; cbn [append all_chars]; [reflexivity|].
  now rewrite IH, andb_assoc.
Qed.

Lemma all_chars_split_comma p s h t :
  split_comma s = Some (h, t) -> all_chars p s = true ->
  all_chars p h = true /\ all_chars p t = true.
Proof.
  revert h t. induction s as [|c s IH]; cbn [split_comma all_chars];
    intros h t H Hs; [discriminate|].
  apply andb_prop in Hs. destruct Hs as [Hc Hs].
  destruct (code c =? 44)%nat.
  - inversion H; subst. now split.
  - destruct (split_comma s) as [[h' t']|]; [|discriminate].
    inversion H; subst. destruct (IH h' t eq_refl Hs) as [Hh Ht].
    split; [|exact Ht]. cbn [all_chars]. now rewrite Hc, Hh.
Qed.

Lemma no_break_letter c : between 65 67 c = true -> no_break c = true.
Proof.
  intros H. apply between_A_C in H. cbn in H.
  destruct H as [H|[H|[H|[]]]]; inversion H; reflexivity.
Qed.

Lemma formatted_no_break c rest :
  between 65 67 c = true -> all_chars no_break rest = true ->
  all_chars no_break (formatted c rest) = true.
Proof.
  intros Hc Hrest. unfold formatted.
  assert (Hbody : all_chars no_break (strip (lstrip rest)) = true)
    by now apply all_chars_strip, all_chars_lstrip.
  destruct (split_comma (strip (lstrip rest))) as [[h t]|] eqn:Hs.
  - destruct (all_chars_split_comma no_break _ h t Hs Hbody) as [Hh Ht].
    rewrite !all_chars_app, (all_chars_strip _ _ Hh), (all_chars_strip _ _ Ht).
    cbn [all_chars]. now rewrite (no_break_letter c Hc).
  - rewrite !all_chars_app, Hbody. cbn [all_chars].
    now rewrite (no_break_letter c Hc).
Qed.

(** An option of the normaliser is a line: not empty, without a line
    boundary in it. *)
Lemma format_line_is_line raw ln e :
  In ln (stripped_lines raw) -> format_line ln = Some e ->
  all_chars no_break e = true /\ e <> EmptyString.
Proof.
  intros Hin He.
  assert (Hnb : all_chars no_break ln = true).
  { pose proof (stripped_lines_no_break raw) as H.
    rewrite Forall_forall in H. now apply H. }
  destruct (format_line_option_line ln e He) as (c & rest & -> & Hc).
  cbn [all_chars] in Hnb. apply andb_prop in Hnb. destruct Hnb as [_ Hnb].
  apply andb_prop in Hnb. destruct Hnb as [_ Hnb].
  rewrite (format_line_formatted c rest Hc (no_break_dot _ Hnb)) in He.
  inversion He; subst e. split; [now apply formatted_no_break|].
  unfold formatted. now destruct (split_comma _) as [[h t]|].
Qed.

Lemma normalize_options_lines raw :
  exists e1 e2 e3,
    normalize_options raw = Some [e1; e2; e3]
    /\ Forall (fun e => all_chars no_break e = true /\ e <> EmptyString)
              [e1; e2; e3].
Proof.
  unfold normalize_options.
  destruct (pad_fillers (pick (stripped_lines raw) [])) as [Hpad Hlen].
  rewrite Hpad.
  assert (Hall : Forall (fun e => all_chars no_break e = true
                                  /\ e <> EmptyString)
                   (pick (stripped_lines raw) []
                    ++ skipn (List.length (pick (stripped_lines raw) []))
                         fillers)%list).
  { apply Forall_app. split.
    - eapply Forall_impl; [|apply pick_from_lines].
      intros e (ln & Hin & He). now apply (format_line_is_line raw ln).
    - assert (Hf : Forall (fun e => all_chars no_break e = true
                                    /\ e <> EmptyString) fillers)
        by (repeat constructor; discriminate).
      clear -Hf. revert Hf. generalize fillers.
      induction (List.length (pick (stripped_lines raw) [])) as [|n IH];
        intros l Hl; [exact Hl|].
      destruct Hl; cbn [skipn]; [constructor | now apply IH]. }
  destruct (pick (stripped_lines raw) []
            ++ skipn (List.length (pick (stripped_lines raw) [])) fillers)%list
    as [|e1 [|e2 [|e3 more]]]; cbn in Hlen; try lia.
  exists e1, e2, e3. split; [reflexivity|].
  inversion Hall as [|? ? H1 Hall1]; subst.
  inversion Hall1 as [|? ? H2 Hall2]; subst.
  inversion Hall2 as [|? ? H3 _]; subst.
  repeat constructor; tauto.
Qed.

Lemma string_of_list_app a b :
  string_of_list_ascii (a ++ b)
  = string_of_list_ascii a ++ string_of_list_ascii b.
Proof. induction a as [|c a IH]; cbn; [reflexivity | now rewrite IH]. Qed.

Lemma rev_string_cons c s :
  rev_string (String c s) = rev_string s ++ String c EmptyString.
Proof. unfold rev_string. cbn. now rewrite string_of_list_app. Qed.

Lemma append_empty_r s : s ++ EmptyString = s.
Proof. induction s as [|c s IH]; cbn; [reflexivity | now rewrite IH]. Qed.

Lemma splitlines_go_line l :
  all_chars no_break l = true ->
  forall cur rest,
    splitlines_go cur false (l ++ nl ++ rest)
    = (rev_string cur ++ l) :: splitlines_go EmptyString false rest.
Proof.
  induction l as [|c l IH]; cbn [all_chars]; intros Hl cur rest.
  - cbn. now rewrite append_empty_r.
  - apply andb_prop in Hl. destruct Hl as [Hc Hl].
    cbn [append splitlines_go andb].
    unfold no_break in Hc. apply negb_true_iff in Hc. rewrite Hc.
    rewrite (IH Hl), rev_string_cons, app_string_assoc. reflexivity.
Qed.

Lemma splitlines_go_last l :
  all_chars no_break l = true ->
  forall cur, cur <> EmptyString \/ l <> EmptyString ->
    splitlines_go cur false l = [rev_string cur ++ l].
Proof.
  induction l as [|c l IH]; cbn [all_chars]; intros Hl cur Hne.
  - cbn [splitlines_go]. rewrite append_empty_r.
    destruct cur; [destruct Hne; congruence | reflexivity].
  - apply andb_prop in Hl. destruct Hl as [Hc Hl].
    cbn [splitlines_go andb].
    unfold no_break in Hc. apply negb_true_iff in Hc. rewrite Hc.
    rewrite (IH Hl) by (left; discriminate).
    now rewrite rev_string_cons, app_string_assoc.
Qed.

Lemma splitlines_three e1 e2 e3 :
  Forall (fun e => all_chars no_break e = true /\ e <> EmptyString)
         [e1; e2; e3] ->
  splitlines (join nl [e1; e2; e3]) = [e1; e2; e3].
Proof.
  intros H.
  inversion H as [|? ? [H1 _] H']; subst.
  inversion H' as [|? ? [H2 _] H'']; subst.
  inversion H'' as [|? ? [H3 N3] _]; subst.
  unfold splitlines. cbn [join].
  rewrite (splitlines_go_line e1 H1), (splitlines_go_line e2 H2).
  rewrite (splitlines_go_last e3 H3) by now right.
  reflexivity.
Qed.

(** X17: the three options of the normaliser are three lines: none is
    empty, none has a line boundary in it, so that the menu joined by line
    feeds splits back, with [splitlines], into exactly the three options. *)
Theorem options_are_three_lines (raw : string) :
  exists e1 e2 e3,
    normalize_options raw = Some [e1; e2; e3]
    /\ Forall (fun e => all_chars no_break e = true /\ e <> EmptyString)
              [e1; e2; e3]
    /\ splitlines (join nl [e1; e2; e3]) = [e1; e2; e3].
Proof.
  destruct (normalize_options_lines raw) as (e1 & e2 & e3 & Hn & Hall).
  exists e1, e2, e3. split; [exact Hn|]. split; [exact Hall|].
  now apply splitlines_three.
Qed.

(** ** The normaliser applied to its own output *)

Lemma rstrip_cons_nonspace c s :
  is_space c = false -> rstrip (String c s) = String c (rstrip s).
Proof. intros H. cbn [rstrip]. rewrite H. now destruct (rstrip s). Qed.

Lemma rstrip_cons_nonempty c s :
  rstrip s <> EmptyString -> rstrip (String c s) = String c (rstrip s).
Proof. intros H. cbn [rstrip]. destruct (rstrip s); congruence. Qed.

Lemma rstrip_idem s : rstrip (rstrip s) = rstrip s.
Proof.
  induction s as [|c s IH]; [reflexivity|].
  cbn [rstrip]. destruct (rstrip s) as [|d r] eqn:E.
  - destruct (is_space c) eqn:Hc; [reflexivity|].
    cbn [rstrip]. now rewrite Hc.
  - rewrite rstrip_cons_nonempty; [now rewrite IH|].
    rewrite IH. discriminate.
Qed.

Lemma rstrip_length s : (String.length (rstrip s) <= String.length s)%nat.
Proof.
  induction s as [|c s IH]; [cbn; lia|].
  cbn [rstrip]. destruct (rstrip s).
  - destruct (is_space c); cbn in *; lia.
  - cbn in *. lia.
Qed.

(** What [rstrip] removes is at the end. *)
Lemma rstrip_prefix s : exists ws, s = rstrip s ++ ws.
Proof.
  induction s as [|c s [ws IH]]; [now exists EmptyString|].
  cbn [rstrip]. destruct (rstrip s) as [|d r] eqn:E.
  - destruct (is_space c).
    + now exists (String c s).
    + exists ws. cbn. now rewrite IH at 1.
  - exists ws. cbn. now rewrite IH at 1.
Qed.

(** A text that ends with an asterisk is left alone by [rstrip]. *)
Lemma rstrip_ends_star a : rstrip (a ++ "*") = a ++ "*".
Proof.
  induction a as [|c a IH]; [reflexivity|].
  cbn [append]. rewrite rstrip_cons_nonempty; [now rewrite IH|].
  rewrite IH. now destruct a.
Qed.

Lemma split_comma_spec s h t :
  split_comma s = Some (h, t) ->
  s = h ++ String "," t /\ all_chars not_comma h = true.
Proof.
  revert h t. induction s as [|c s IH]; cbn [split_comma]; intros h t H;
    [discriminate|].
  destruct (Nat.eqb_spec (code c) 44) as [Hc|Hc].
  - inversion H; subst. split; [|reflexivity]. cbn. f_equal.
    rewrite <- (ascii_nat_embedding c). unfold code in Hc. now rewrite Hc.
  - destruct (split_comma s) as [[h' t']|]; [|discriminate].
    inversion H; subst. destruct (IH h' t eq_refl) as [-> Hh].
    split; [reflexivity|]. cbn [all_chars]. rewrite Hh, andb_true_r.
    unfold not_comma. now apply negb_true_iff, Nat.eqb_neq.
Qed.

Lemma split_comma_after a s :
  all_chars not_comma a = true ->
  split_comma (a ++ s)
  = match split_comma s with
    | Some (h, t) => Some (a ++ h, t)
    | None => None
    end.
Proof.
  induction a as [|c a IH]; cbn [append all_chars split_comma]; intros H.
  - now destruct (split_comma s) as [[h t]|].
  - apply andb_prop in H. destruct H as [Hc Ha].
    unfold not_comma in Hc. apply negb_true_iff in Hc. rewrite Hc.
    rewrite (IH Ha). now destruct (split_comma s) as [[h t]|].
Qed.

(** The text before the first comma is determined. *)
Lemma first_comma_unique a : forall a' b b',
  all_chars not_comma a = true -> all_chars not_comma a' = true ->
  a ++ String "," b = a' ++ String "," b' -> a = a'.
Proof.
  induction a as [|c a IH]; intros [|c' a'] b b' Ha Ha' E; cbn in *.
  - reflexivity.
  - inversion E; subst c'. discriminate Ha'.
  - inversion E; subst c. discriminate Ha.
  - inversion E; subst c'.
    apply andb_prop in Ha, Ha'. f_equal.
    now apply (IH a' b b'); [apply Ha | apply Ha' |].
Qed.

Lemma append_inj_l a b c : a ++ b = a ++ c -> b = c.
Proof. induction a as [|x a IH]; cbn; [auto|]. intros H. inversion H. auto. Qed.

(** No text is itself between two pairs of asterisks. *)
Lemma not_wrapped h : h <> "**" ++ h ++ "**".
Proof.
  intros E. apply (f_equal String.length) in E.
  rewrite !length_app_string in E. cbn in E. lia.
Qed.

Lemma wrap_ends_star x : "**" ++ x ++ "**" = ("**" ++ x ++ "*") ++ "*".
Proof.
  cbn [append]. do 2 f_equal.
  induction x as [|c x IH]; cbn [append]; [reflexivity | now rewrite IH].
Qed.

Lemma is_space_letter c : between 65 67 c = true -> is_space c = false.
Proof.
  intros H. apply between_A_C in H. cbn in H.
  destruct H as [H|[H|[H|[]]]]; inversion H; reflexivity.
Qed.

Lemma strip_option c Z :
  between 65 67 c = true ->
  strip (String c (". **" ++ Z)) = String c (". **" ++ rstrip Z).
Proof.
  intros Hc. unfold strip. cbn [lstrip append].
  rewrite (is_space_letter c Hc).
  rewrite (rstrip_cons_nonspace c) by now apply is_space_letter.
  rewrite (rstrip_cons_nonspace ".") by reflexivity.
  rewrite (rstrip_cons_nonempty " ").
  - now rewrite !(rstrip_cons_nonspace "*") by reflexivity.
  - rewrite (rstrip_cons_nonspace "*") by reflexivity. discriminate.
Qed.

Lemma formatted_bold c W :
  rstrip W = W ->
  formatted c (" **" ++ W)
  = match split_comma W with
    | Some (h, t) =>
        String c EmptyString ++ ". **" ++ ("**" ++ rstrip h) ++ "**, "
        ++ strip t
    | None => String c EmptyString ++ ". **" ++ ("**" ++ W) ++ "**"
    end.
Proof.
  intros HW. unfold formatted.
  assert (Hbody : strip (lstrip (" **" ++ W)) = "**" ++ W).
  { cbn [append lstrip]. change (is_space " ") with true.
    change (is_space "*") with false. cbv iota. unfold strip.
    cbn [lstrip]. change (is_space "*") with false. cbv iota.
    rewrite !(rstrip_cons_nonspace "*") by reflexivity. now rewrite HW. }
  rewrite Hbody. rewrite (split_comma_after "**" W) by reflexivity.
  destruct (split_comma W) as [[h t]|]; [|reflexivity].
  do 2 f_equal. unfold strip. cbn [append lstrip].
  change (is_space "*") with false. cbv iota.
  now rewrite !(rstrip_cons_nonspace "*") by reflexivity.
Qed.

(** An option in bold is never what the normaliser makes of it. *)
Lemma renormalized_differs c Z :
  between 65 67 c = true -> all_chars no_break Z = true ->
  exists f,
    format_line (strip (String c (". **" ++ Z))) = Some f
    /\ f <> String c (". **" ++ Z).
Proof.
  intros Hc HZ. rewrite (strip_option c Z Hc).
  assert (Hdot : all_chars dot (" **" ++ rstrip Z) = true).
  { apply no_break_dot. cbn [append all_chars].
    now rewrite (all_chars_rstrip _ _ HZ). }
  change (String c (". **" ++ rstrip Z))
    with (String c (String "." (" **" ++ rstrip Z))).
  rewrite (format_line_formatted c _ Hc Hdot).
  eexists. split; [reflexivity|].
  rewrite (formatted_bold c (rstrip Z) (rstrip_idem Z)).
  destruct (rstrip_prefix Z) as [ws Hws].
  destruct (split_comma (rstrip Z)) as [[h t]|] eqn:Hs.
  - apply split_comma_spec in Hs. destruct Hs as [HW Hh].
    intros E. cbn [append] in E. inversion E as [E'].
    assert (EZ : h ++ String "," (t ++ ws)
                 = ("**" ++ rstrip h ++ "**") ++ String "," (" " ++ strip t)).
    { transitivity Z.
      - symmetry. etransitivity; [exact Hws|]. rewrite HW.
        now rewrite app_string_assoc.
      - rewrite <- E'. cbn [append]. do 2 f_equal.
        now rewrite app_string_assoc. }
    assert (Hhead : h = "**" ++ rstrip h ++ "**").
    { apply (first_comma_unique h ("**" ++ rstrip h ++ "**")
               (t ++ ws) (" " ++ strip t)).
      - exact Hh.
      - rewrite !all_chars_app, (all_chars_rstrip _ _ Hh). reflexivity.
      - exact EZ. }
    assert (Hr : rstrip h = h).
    { rewrite Hhead at 2. rewrite Hhead at 1.
      rewrite (wrap_ends_star (rstrip h)). apply rstrip_ends_star. }
    rewrite Hr in Hhead. exact (not_wrapped h Hhead).
  - intros E. cbn [append] in E. inversion E as [E'].
    assert (EZ : Z = "**" ++ rstrip Z ++ "**") by exact (eq_sym E').
    assert (Hr : rstrip Z = Z).
    { rewrite EZ at 2. rewrite EZ at 1.
      rewrite (wrap_ends_star (rstrip Z)). apply rstrip_ends_star. }
    rewrite Hr in EZ. exact (not_wrapped Z EZ).
Qed.

Lemma canonical_bold l e :
  canonical l e ->
  exists c Z, e = String c (". **" ++ Z) /\ between 65 67 c = true.
Proof.
  intros [Hl (head & He)]. cbn in Hl.
  assert (Hc : exists c, l = String c EmptyString /\ between 65 67 c = true).
  { destruct Hl as [<-|[<-|[<-|[]]]]; eexists; split; reflexivity. }
  destruct Hc as (c & -> & Hc).
  destruct He as [-> | [tail ->]]; exists c; eexists; (split; [|exact Hc]);
    cbn [append]; reflexivity.
Qed.

Lemma second_pass_entry l e :
  canonical l e -> all_chars no_break e = true ->
  exists f, strip e <> EmptyString
            /\ format_line (strip e) = Some f /\ f <> e.
Proof.
  intros Hcan Hnb. destruct (canonical_bold l e Hcan) as (c & Z & -> & Hc).
  assert (HZ : all_chars no_break Z = true).
  { cbn [append all_chars] in Hnb.
    repeat (apply andb_prop in Hnb; destruct Hnb as [_ Hnb]). exact Hnb. }
  destruct (renormalized_differs c Z Hc HZ) as (f & Hf & Hne).
  exists f. split; [|now split].
  rewrite (strip_option c Z Hc). discriminate.
Qed.

(** X18: the normaliser never leaves one of its own menus alone: applied
    to the text of the three options that it returned, joined by line
    feeds, it returns three options of which every one differs from the one
    it was made from, the head having gained a pair of asterisks on each
    side.  No output of the normaliser is a fixed point. *)
Theorem second_pass_changes_every_option (raw : string) :
  exists e1 e2 e3 f1 f2 f3,
    normalize_options raw = Some [e1; e2; e3]
    /\ normalize_options (join nl [e1; e2; e3]) = Some [f1; f2; f3]
    /\ f1 <> e1 /\ f2 <> e2 /\ f3 <> e3
    /\ format_line (strip e1) = Some f1
    /\ format_line (strip e2) = Some f2
    /\ format_line (strip e3) = Some f3.
Proof.
  destruct (normalize_options_three raw)
    as (e1 & e2 & e3 & l1 & l2 & l3 & Hn & C1 & C2 & C3).
  destruct (normalize_options_lines raw) as (e1' & e2' & e3' & Hn' & Hall).
  rewrite Hn in Hn'. inversion Hn'; subst e1' e2' e3'. clear Hn'.
  pose proof (splitlines_three e1 e2 e3 Hall) as Hsplit.
  inversion Hall as [|? ? [N1 _] Hall1]; subst.
  inversion Hall1 as [|? ? [N2 _] Hall2]; subst.
  inversion Hall2 as [|? ? [N3 _] _]; subst.
  destruct (second_pass_entry l1 e1 C1 N1) as (f1 & S1 & F1 & D1).
  destruct (second_pass_entry l2 e2 C2 N2) as (f2 & S2 & F2 & D2).
  destruct (second_pass_entry l3 e3 C3 N3) as (f3 & S3 & F3 & D3).
  exists e1, e2, e3, f1, f2, f3.
  split; [exact Hn|]. split; [|now repeat split].
  unfold normalize_options, stripped_lines. rewrite Hsplit.
  cbn [filter].
  apply String.eqb_neq in S1, S2, S3. rewrite S1, S2, S3.
  cbn [negb map pick]. rewrite F1, F2, F3. reflexivity.
Qed.

(** ** Numbers written by [str] are read back by [int] *)

Lemma digits_value_uint_acc u : forall p,
  digits_value (Z.pos p) (NilEmpty.string_of_uint u)
  = Some (Z.pos (Pos.of_uint_acc u p)).
Proof.
  induction u as [|u IH|u IH|u IH|u IH|u IH|u IH|u IH|u IH|u IH|u IH];
    intros p; [reflexivity|..];
    cbn [NilEmpty.string_of_uint digits_value Pos.of_uint_acc];
    change (is_digit _) with true; cbv iota;
    rewrite <- IH; f_equal;
    match goal with
    | |- context [Z.of_nat ?n] =>
        let v := eval vm_compute in (Z.of_nat n) in
        change (Z.of_nat n) with v
    end; lia.
Qed.

Lemma digits_value_uint u :
  digits_value 0 (NilEmpty.string_of_uint u) = Some (Z.of_uint u).
Proof.
  unfold Z.of_uint.
  induction u as [|u IH|u IH|u IH|u IH|u IH|u IH|u IH|u IH|u IH|u IH];
    [reflexivity | exact IH |..];
    cbn [NilEmpty.string_of_uint digits_value Pos.of_uint];
    change (is_digit _) with true; cbv iota;
    apply digits_value_uint_acc.
Qed.

Lemma all_digits_uint u :
  all_chars is_digit (NilEmpty.string_of_uint u) = true.
Proof.
  induction u; cbn [NilEmpty.string_of_uint all_chars]; [reflexivity|..];
    rewrite IHu; reflexivity.
Qed.

(** [int(str(n)) == n] for a number that is not negative, and [str(n)]
    is a non-empty run of digits. *)
Lemma py_int_py_str n :
  (0 <= n)%Z ->
  py_int (py_str n) = Some n
  /\ all_chars is_digit (py_str n) = true
  /\ py_str n <> EmptyString.
Proof.
  intros Hn. unfold py_str.
  pose proof (DecimalZ.of_to n) as Hof.
  destruct n as [|p|p]; [repeat split; discriminate| |lia].
  cbn [Z.to_int NilZero.string_of_int] in *. cbn [Z.of_int] in Hof.
  unfold NilZero.string_of_uint.
  pose proof (digits_value_uint (Pos.to_uint p)) as Hd.
  pose proof (all_digits_uint (Pos.to_uint p)) as Ha.
  rewrite Hof in Hd.
  destruct (Pos.to_uint p) eqn:E; try discriminate;
    (split; [exact Hd | split; [exact Ha | discriminate]]).
Qed.

Lemma lower_app a b : lower (a ++ b) = lower a ++ lower b.
Proof.
  induction a as [|c a IH]; cbn [append lower]; [reflexivity | now rewrite IH].
Qed.

Lemma digit_not_upper c : is_digit c = true -> is_upper c = false.
Proof.
  unfold is_digit, is_upper, between. intros H.
  apply andb_prop in H. destruct H as [_ H]. apply Nat.leb_le in H.
  apply andb_false_iff. left. apply Nat.leb_gt. lia.
Qed.

Lemma lower_digits s : all_chars is_digit s = true -> lower s = s.
Proof.
  induction s as [|c s IH]; cbn [all_chars lower]; [reflexivity|].
  intros H. apply andb_prop in H. destruct H as [Hc Hs].
  rewrite (IH Hs). unfold lower_char. now rewrite (digit_not_upper c Hc).
Qed.

(** ** Patterns that read a word and then a number *)

Lemma all_chars_impl (p q : ascii -> bool) s :
  (forall c, p c = true -> q c = true) ->
  all_chars p s = true -> all_chars q s = true.
Proof.
  intros Hpq. induction s as [|c s IH]; cbn [all_chars]; [reflexivity|].
  intros H. apply andb_prop in H. destruct H as [Hc Hs].
  now rewrite (Hpq c Hc), (IH Hs).
Qed.

Lemma within_reads L r :
  within L r ->
  forall prev s gs prev' s' gs',
    matches r prev s gs prev' s' gs' ->
    exists w, s = w ++ s' /\ all_chars L w = true.
Proof.
  induction 1 as [| |p Hp|p Hp|r1 r2 _ IH1 _ IH2|r1 r2 _ IH1 _ IH2];
    intros prev s gs prev' s' gs' Hm.
  - inversion Hm; subst. now exists EmptyString.
  - inversion Hm; subst. now exists EmptyString.
  - inversion Hm; subst. exists (String c EmptyString). split; [reflexivity|].
    cbn [all_chars]. rewrite Hp by assumption. reflexivity.
  - apply matches_star_inv in Hm. destruct Hm as [_ (d & -> & Hd)].
    exists d. split; [reflexivity|]. now apply (all_chars_impl p L).
  - inversion Hm; subst.
    match goal with
    | H1 : matches r1 _ _ _ _ _ _, H2 : matches r2 _ _ _ _ _ _ |- _ =>
        apply IH1 in H1; destruct H1 as (w1 & -> & Hw1);
        apply IH2 in H2; destruct H2 as (w2 & -> & Hw2)
    end.
    exists (w1 ++ w2). split; [now rewrite app_string_assoc|].
    now rewrite all_chars_app, Hw1, Hw2.
  - inversion Hm; subst; [eapply IH1 | eapply IH2]; eassumption.
Qed.

Lemma reads_number_shape L r :
  reads_number L r ->
  forall prev s gs prev' s' gs',
    matches r prev s gs prev' s' gs' ->
    exists w c rest,
      s = w ++ String c rest /\ all_chars L w = true /\ is_digit c = true.
Proof.
  induction 1 as [|pre r Hpre _ IH]; intros prev s gs prev' s' gs' Hm;
    inversion Hm; subst.
  - match goal with
    | H1 : matches (Grp _) _ _ _ _ _ _ |- _ => inversion H1; subst
    end.
    match goal with
    | H1 : matches (plus _) _ _ _ _ _ _ |- _ =>
        apply matches_plus_digits in H1;
        destruct H1 as [_ (c & d & -> & Hd)]
    end.
    exists EmptyString, c, (d ++ s1). split; [reflexivity|].
    split; [reflexivity|].
    cbn [all_chars] in Hd. apply andb_prop in Hd. now destruct Hd.
  - match goal with
    | H1 : matches pre _ _ _ _ _ _, H2 : matches r _ _ _ _ _ _ |- _ =>
        apply (within_reads L pre Hpre) in H1; destruct H1 as (w1 & -> & Hw1);
        apply IH in H2; destruct H2 as (w2 & c & rest & -> & Hw2 & Hc)
    end.
    exists (w1 ++ w2), c, rest. split; [now rewrite app_string_assoc|].
    split; [|exact Hc]. now rewrite all_chars_app, Hw1, Hw2.
Qed.

Lemma skip_class_prefix L w c rest :
  all_chars L w = true -> L c = false ->
  skip_class L (w ++ String c rest) = String c rest.
Proof.
  intros Hw Hc. induction w as [|x w IH]; cbn [append skip_class].
  - now rewrite Hc.
  - cbn [all_chars] in Hw. apply andb_prop in Hw. destruct Hw as [-> Hw].
    now apply IH.
Qed.

(** A pattern that reads characters of [L] and then a number does not match
    at a place from which the characters of [L] are followed by something
    else than a digit. *)
Lemma run_none_before {A : Type} L r :
  reads_number L r -> (forall c, is_digit c = true -> L c = false) ->
  forall (k : option ascii -> string -> list string -> option A)
         a x b prev gs,
    all_chars L a = true -> L x = false -> is_digit x = false ->
    run r k prev (a ++ String x b) gs = None.
Proof.
  intros Hr HL k a x b prev gs Ha Hx Hd.
  destruct (run r k prev (a ++ String x b) gs) as [v|] eqn:E; [|reflexivity].
  apply run_sound in E. destruct E as (p' & s' & g' & Hm & _).
  destruct (reads_number_shape L r Hr _ _ _ _ _ _ Hm)
    as (w & c & rest & Hs & Hw & Hc).
  apply (f_equal (skip_class L)) in Hs.
  rewrite (skip_class_prefix L a x b Ha Hx) in Hs.
  rewrite (skip_class_prefix L w c rest Hw (HL c Hc)) in Hs.
  inversion Hs; subst. congruence.
Qed.

Lemma search_from_before L r :
  reads_number L r -> (forall c, is_digit c = true -> L c = false) ->
  forall a x b prev,
    all_chars L a = true -> L x = false -> is_digit x = false ->
    search_from r prev (a ++ String x b) = search_from r (Some x) b.
Proof.
  intros Hr HL a x b. induction a as [|c a IH]; intros prev Ha Hx Hd.
  - cbn [append search_from].
    now rewrite (run_none_before L r Hr HL _ EmptyString x b prev []).
  - cbn [append search_from].
    rewrite (run_none_before L r Hr HL _ (String c a) x b prev [] Ha Hx Hd).
    cbn [all_chars] in Ha. apply andb_prop in Ha. destruct Ha as [_ Ha].
    now apply IH.
Qed.

Lemma small_digit c : is_digit c = true -> small c = false.
Proof.
  unfold small, is_digit, is_lower, is_space, between. intros H.
  apply andb_prop in H. destruct H as [H1 H2].
  apply Nat.leb_le in H1, H2.
  repeat match goal with
  | |- context [(?a <=? ?b)%nat] =>
      destruct (Nat.leb_spec a b)
  end; try reflexivity; lia.
Qed.

Lemma reads_number_re_dc : reads_number small re_dc.
Proof.
  unfold re_dc. cbn [seqs lit].
  apply RN_seq; [constructor|].
  apply RN_seq.
  { repeat first
      [ apply W_Alt | apply W_Seq | apply W_Eps
      | (apply W_Cls; intros c Hc; apply Ascii.eqb_eq in Hc; now subst c)
      | (apply W_Star; intros c Hc; unfold small; rewrite Hc;
         apply orb_true_r) ]. }
  apply RN_seq.
  { apply W_Star; intros c Hc; unfold small; rewrite Hc; apply orb_true_r. }
  apply RN_end.
Qed.

Lemma reads_number_re_ac : reads_number small re_ac.
Proof.
  unfold re_ac. cbn [seqs lit].
  apply RN_seq; [constructor|].
  apply RN_seq.
  { repeat first
      [ apply W_Seq | apply W_Eps
      | (apply W_Cls; intros c Hc; apply Ascii.eqb_eq in Hc; now subst c) ]. }
  apply RN_seq.
  { apply W_Star; intros c Hc; unfold small; rewrite Hc; apply orb_true_r. }
  apply RN_end.
Qed.

(** ** Substrings of a text with a separator *)

Lemma prefix_empty_r p : p <> EmptyString -> prefix p EmptyString = false.
Proof. destruct p; [congruence | reflexivity]. Qed.

Lemma prefix_split x p : forall a b,
  p <> EmptyString ->
  all_chars (fun y => negb (Ascii.eqb y x)) p = true ->
  prefix p (a ++ String x b) = prefix p a.
Proof.
  induction p as [|y p IH]; intros a b Hne Hp; [congruence|].
  cbn [all_chars] in Hp. apply andb_prop in Hp. destruct Hp as [Hy Hp].
  destruct a as [|c a]; cbn [append prefix].
  - destruct (ascii_dec y x) as [->|_]; [|reflexivity].
    rewrite Ascii.eqb_refl in Hy. discriminate.
  - destruct (ascii_dec y c) as [_|_]; [|reflexivity].
    destruct p as [|z p]; [now destruct a | now apply IH].
Qed.

Lemma contains_split x p : forall a b,
  p <> EmptyString ->
  all_chars (fun y => negb (Ascii.eqb y x)) p = true ->
  contains p (a ++ String x b) = contains p a || contains p b.
Proof.
  intros a b Hne Hp. induction a as [|c a IH].
  - pose proof (prefix_split x p EmptyString b Hne Hp) as H0.
    cbn [append] in H0. cbn [append contains].
    rewrite H0, (prefix_empty_r p Hne). reflexivity.
  - pose proof (prefix_split x p (String c a) b Hne Hp) as H0.
    cbn [append] in H0. cbn [append contains].
    rewrite H0, IH. now rewrite orb_assoc.
Qed.

Lemma all_chars_avoid L p x :
  all_chars L p = true -> L x = false ->
  all_chars (fun y => negb (Ascii.eqb y x)) p = true.
Proof.
  intros Hp Hx. apply (all_chars_impl L); [|exact Hp].
  intros c Hc. destruct (Ascii.eqb_spec c x) as [->|_]; [congruence|reflexivity].
Qed.

Lemma contains_none L p : forall t,
  all_chars L p = true -> p <> EmptyString ->
  all_chars (fun c => negb (L c)) t = true ->
  contains p t = false.
Proof.
  intros t Hp Hne. induction t as [|x t IH]; intros Ht.
  - cbn [contains]. now rewrite (prefix_empty_r p Hne).
  - cbn [all_chars] in Ht. apply andb_prop in Ht. destruct Ht as [Hx Ht].
    apply negb_true_iff in Hx.
    change (String x t) with (EmptyString ++ String x t).
    rewrite (contains_split x p EmptyString t Hne (all_chars_avoid L p x Hp Hx)).
    cbn [contains]. rewrite (prefix_empty_r p Hne). now apply IH.
Qed.

(** A text of small letters and blanks that does not occur in [mid] occurs
    in [a ++ "(" ++ mid ++ t], where [t] has no small letter and no blank,
    exactly when it occurs in [a]. *)
Lemma contains_tail p a mid t :
  all_chars small p = true -> p <> EmptyString ->
  contains p mid = false ->
  all_chars not_small t = true ->
  contains p (a ++ String "(" (mid ++ t)) = contains p a.
Proof.
  intros Hp Hne Hmid Ht.
  rewrite (contains_split "(" p a _ Hne (all_chars_avoid small p "(" Hp eq_refl)).
  destruct t as [|x t].
  - replace (mid ++ EmptyString) with mid
      by (clear; induction mid as [|c m IH]; cbn; [reflexivity | now rewrite <- IH]).
    now rewrite Hmid, orb_false_r.
  - cbn [all_chars] in Ht. apply andb_prop in Ht. destruct Ht as [Hx Ht].
    apply negb_true_iff in Hx.
    rewrite (contains_split x p mid t Hne (all_chars_avoid small p x Hp Hx)).
    rewrite Hmid, (contains_none small p t Hp Hne Ht). now rewrite orb_false_r.
Qed.

Lemma not_small_digits ds :
  all_chars is_digit ds = true -> all_chars not_small (ds ++ ").") = true.
Proof.
  intros H. rewrite all_chars_app.
  rewrite (all_chars_impl is_digit not_small ds); [reflexivity | | exact H].
  intros c Hc. unfold not_small. now rewrite (small_digit c Hc).
Qed.

(** ** The two searches on the sentence that asks for a check *)

Lemma run_star_greedy_prev {A : Type} (p : ascii -> bool)
    (k : option ascii -> string -> list string -> option A) gs x :
  forall s prev,
    k (last_prev p prev s) (skip_class p s) gs = Some x ->
    run (Star p) k prev s gs = Some x.
Proof.
  induction s as [|c s IH]; intros prev H.
  - exact H.
  - cbn [skip_class last_prev] in H. simpl. destruct (p c).
    + change ((fix loop (prev0 : option ascii) (s0 : string) {struct s0} :
                 option A :=
                 match s0 with
                 | EmptyString => k prev0 s0 gs
                 | String c0 s' =>
                     if p c0
                     then match loop (Some c0) s' with
                          | Some x0 => Some x0
                          | None => k prev0 s0 gs
                          end
                     else k prev0 s0 gs
                 end) (Some c) s)
        with (run (Star p) k (Some c) s gs).
      now rewrite (IH (Some c) H).
    + exact H.
Qed.

Lemma skip_class_app p ds t :
  all_chars p ds = true -> skip_class p (ds ++ t) = skip_class p t.
Proof.
  induction ds as [|c ds IH]; cbn [all_chars append skip_class]; [reflexivity|].
  intros H. apply andb_prop in H. destruct H as [-> H]. now apply IH.
Qed.

Lemma last_prev_word p ds t : forall prev,
  (forall c, p c = true -> is_word c = true) ->
  all_chars p ds = true -> skip_class p t = t ->
  word_before prev = true ->
  word_before (last_prev p prev (ds ++ t)) = true.
Proof.
  induction ds as [|c ds IH]; intros prev Hp Hds Ht Hprev.
  - cbn [append]. destruct t as [|x t]; [exact Hprev|].
    cbn [last_prev]. cbn [skip_class] in Ht.
    destruct (p x) eqn:Hx; [|exact Hprev].
    exfalso. apply (f_equal String.length) in Ht.
    assert (Hle : forall s, (String.length (skip_class p s) <= String.length s)%nat).
    { clear. induction s as [|c s IH]; cbn [skip_class String.length]; [lia|].
      destruct (p c); cbn [String.length]; lia. }
    specialize (Hle t). cbn [String.length] in Ht. lia.
  - cbn [all_chars] in Hds. apply andb_prop in Hds. destruct Hds as [Hc Hds].
    cbn [append last_prev]. rewrite Hc.
    apply IH; try assumption. cbn [word_before]. now apply Hp.
Qed.

Lemma digit_word c : is_digit c = true -> is_word c = true.
Proof. unfold is_word. now intros ->. Qed.

Lemma digit_not_space c : is_digit c = true -> is_space c = false.
Proof.
  intros H. apply small_digit in H. unfold small in H.
  now apply orb_false_iff in H.
Qed.

(** The pattern of the DC matches at "dc ", and its group is the run of
    digits. *)
Lemma run_re_dc_here c ds :
  is_digit c = true -> all_chars is_digit ds = true ->
  run re_dc (fun _ _ gs => Some gs) (Some "("%char)
    ("dc " ++ String c ds ++ ").") []
  = Some [String c ds].
Proof.
  intros Hc Hds. unfold re_dc. cbn [seqs].
  change (run (Seq Bnd ?r) ?k (Some "("%char) ?s ?gs) with (run r k (Some "("%char) s gs).
  change (run (Seq (Alt ?a ?b) ?r) ?k ?prev ?s ?gs)
    with (match run a (run r k) prev s gs with
          | Some x => Some x
          | None => run b (run r k) prev s gs
          end).
  change (run (lit "dc") ?k ?prev ("dc " ++ ?s) ?gs)
    with (k (Some "c"%char) (" " ++ s) gs).
  assert (H : run (Seq (Star is_space) (Seq (Grp (plus is_digit)) Bnd))
                (fun _ _ gs => Some gs) (Some "c"%char)
                (" " ++ String c ds ++ ").") []
              = Some [String c ds]).
  { change (run (Seq (Star ?p) ?r) ?k ?prev ?s ?gs)
      with (run (Star p) (run r k) prev s gs).
    apply run_star_greedy. intros prev'.
    cbn [append skip_class]. change (is_space " ") with true. cbv iota.
    rewrite (digit_not_space c Hc).
    change (run (Seq (Grp (plus ?p)) Bnd) ?k ?prev (String c ?s) ?gs)
      with (if p c
            then run (Star p)
                   (fun p' s' gs' =>
                      run Bnd k p' s' (gs' ++ [consumed (String c s) s'])%list)
                   (Some c) s gs
            else None).
    rewrite Hc.
    apply run_star_greedy_prev.
    rewrite (skip_class_app is_digit ds ")." Hds).
    cbn [skip_class]. change (is_digit ")") with false. cbv iota.
    cbn [run]. unfold at_boundary.
    rewrite (last_prev_word is_digit ds ")." (Some c) digit_word Hds eq_refl
               (digit_word c Hc)).
    cbn [word_after xorb app]. change (is_word ")") with false. cbv iota.
    change (String c (ds ++ ").")) with (String c ds ++ ").").
    now rewrite consumed_app. }
  now rewrite H.
Qed.

(** ** The scan of a sentence that asks for a roll *)

Lemma contains_mid p mid t :
  all_chars small p = true -> p <> EmptyString ->
  all_chars not_small t = true ->
  contains p (mid ++ t) = contains p mid.
Proof.
  intros Hp Hne Ht. destruct t as [|x t].
  - f_equal. clear. induction mid as [|c m IH]; cbn; [reflexivity | now rewrite IH].
  - cbn [all_chars] in Ht. apply andb_prop in Ht. destruct Ht as [Hx Ht].
    apply negb_true_iff in Hx.
    rewrite (contains_split x p mid t Hne (all_chars_avoid small p x Hp Hx)).
    rewrite (contains_none small p t Hp Hne Ht). now rewrite orb_false_r.
Qed.

Lemma contains_plain p a t :
  plain p = true -> all_chars not_small t = true ->
  contains p (a ++ String "(" ("dc " ++ t)) = contains p a.
Proof.
  unfold plain. intros H Ht.
  apply andb_prop in H. destruct H as [H Hdc].
  apply andb_prop in H. destruct H as [Hp Hne].
  apply negb_true_iff in Hdc, Hne. apply String.eqb_neq in Hne.
  now apply contains_tail.
Qed.

(** The keyword tests of the scan do not see the target in brackets. *)
Lemma classify_tail a t :
  all_chars not_small t = true ->
  classify (a ++ String "(" ("dc " ++ t)) = classify a.
Proof.
  intros Ht. unfold classify, find_skill, find_save, skill_list, saves.
  cbn [existsb find].
  rewrite !(contains_plain _ a t) by first [exact Ht | reflexivity].
  reflexivity.
Qed.

Lemma search_from_here r prev s gs :
  run r (fun _ _ g => Some g) prev s [] = Some gs ->
  search_from r prev s = Some gs.
Proof. intros H. destruct s; cbn [search_from]; now rewrite H. Qed.

Lemma search_from_requires w r prev m gs :
  requires w r -> search_from r prev m = Some gs -> contains w m = true.
Proof.
  intros Hr Hs. apply search_from_locates in Hs.
  destruct Hs as (pre & s0 & p0 & p' & s' & -> & Hm).
  destruct (requires_reads w r Hr _ _ _ _ _ _ Hm) as (a & b & ->).
  rewrite <- app_string_assoc. apply contains_app.
Qed.

(** The two targets that the scan reads in a sentence of small letters
    followed by "(dc n).": the DC is [n], and there is no AC. *)
Lemma mention_request a n :
  all_chars small a = true -> (0 <= n)%Z ->
  mention re_dc (a ++ String "(" ("dc " ++ py_str n ++ ").")) = Some n
  /\ mention re_ac (a ++ String "(" ("dc " ++ py_str n ++ ").")) = None.
Proof.
  intros Ha Hn. destruct (py_int_py_str n Hn) as (Hint & Hds & Hne).
  unfold mention, search. split.
  - rewrite (search_from_before small re_dc reads_number_re_dc small_digit
               a "(" _ None Ha eq_refl eq_refl).
    destruct (py_str n) as [|c ds]; [congruence|].
    cbn [all_chars] in Hds. apply andb_prop in Hds. destruct Hds as [Hc Hds].
    rewrite (search_from_here re_dc _ _ [String c ds]
               (run_re_dc_here c ds Hc Hds)).
    exact Hint.
  - rewrite (search_from_before small re_ac reads_number_re_ac small_digit
               a "(" _ None Ha eq_refl eq_refl).
    destruct (search_from re_ac (Some "("%char) ("dc " ++ py_str n ++ ")."))
      as [gs|] eqn:E; [|reflexivity].
    apply (search_from_requires "ac") in E.
    + rewrite (contains_mid "ac" "dc " _ eq_refl) in E;
        [discriminate | discriminate | now apply not_small_digits].
    + unfold re_ac. cbn [seqs]. apply Req_later. apply Req_here.
Qed.

Lemma lower_request purpose ds :
  lower ("Please roll " ++ purpose ++ (" (DC " ++ ds ++ ")") ++ ".")
  = ("please roll " ++ lower purpose ++ " ")
    ++ String "(" ("dc " ++ lower ds ++ ").").
Proof.
  rewrite !lower_app, !app_string_assoc. reflexivity.
Qed.

Lemma lower_request_plain purpose :
  lower ("Please roll " ++ purpose ++ "" ++ ".")
  = "please roll " ++ lower purpose ++ ".".
Proof. now rewrite !lower_app. Qed.

(** The body of the loop on a sentence that asks for [purpose] against a DC
    [n]: the kind and the skill are those of the sentence without the
    target, and the DC is [n]. *)
Lemma scan_turn_request purpose n :
  (0 <= n)%Z ->
  all_chars small ("please roll " ++ lower purpose ++ " ") = true ->
  scan_turn
    (mkTurn (Some "assistant")
       (Some ("Please roll " ++ purpose ++ (" (DC " ++ py_str n ++ ")") ++ ".")))
    scan_init
  = match classify ("please roll " ++ lower purpose ++ " ") with
    | Some (k, sk) => (mkScan (Some k) sk (Some n) None, Break)
    | None => (mkScan None None (Some n) None, Continue)
    end.
Proof.
  intros Hn Ha. rewrite scan_turn_spec by reflexivity.
  unfold assistant_text. cbn [role content is_str or_empty].
  change ("assistant" =? "assistant") with true. cbv iota.
  destruct (py_int_py_str n Hn) as (_ & Hds & _).
  rewrite lower_request, (lower_digits _ Hds). cbv zeta.
  rewrite classify_tail by now apply not_small_digits.
  unfold note_targets.
  destruct (mention_request _ n Ha Hn) as [-> ->].
  destruct (classify _) as [[k [s|]]|]; reflexivity.
Qed.

(** ** From the request to the pending roll *)

Lemma scan_loop_skip_app newer older st :
  Forall (fun h => assistant_text h = None) newer ->
  scan_loop (newer ++ older) st = scan_loop older st.
Proof.
  induction 1 as [|h newer Hh _ IH]; [reflexivity|].
  cbn [app scan_loop]. now rewrite (scan_turn_skip h st Hh).
Qed.

(** The scan of a history whose last assistant entry [t] is among the last
    8 entries starts, in effect, at [t]. *)
Lemma scan_history_from before t after :
  Forall (fun h => assistant_text h = None) after ->
  (List.length after < 8)%nat ->
  scan_history (before ++ t :: after)
  = scan_loop (t :: rev (last_n (8 - S (List.length after)) before)) scan_init.
Proof.
  intros Hafter Hlen. unfold scan_history.
  rewrite (last_n_app_le 8 before (t :: after)) by (cbn [List.length]; lia).
  rewrite rev_app_distr. cbn [rev List.length]. rewrite <- app_assoc.
  rewrite scan_loop_skip_app by now apply Forall_rev.
  reflexivity.
Qed.

Lemma Forall_last_n {X : Type} (P : X -> Prop) n l :
  Forall P l -> Forall P (last_n n l).
Proof.
  unfold last_n. generalize (List.length l - n)%nat as k.
  intros k H. revert k. induction H as [|x l Hx Hl IH]; intros [|k];
    cbn [skipn]; auto.
Qed.

(** What the classifier names in a request for a check: nothing, the
    "Ability check", or a skill of the list that the resolver knows. *)
Lemma check_part_names m dc :
  check_part m dc = []
  \/ check_part m dc = [check_request "Ability check" dc]
  \/ exists s, In s skill_list
               /\ check_part m dc = [check_request (title s ++ " check") dc].
Proof.
  unfold check_part.
  destruct (find _ skills) as [s|] eqn:Hf.
  - right; right. exists s. split; [|reflexivity].
    apply find_some in Hf. now destruct Hf.
  - destruct (detect_skill synonyms m) as [s|] eqn:Hd.
    + right; right. exists s. split; [|reflexivity].
      apply detect_skill_in in Hd. cbn in Hd. cbn.
      repeat (destruct Hd as [<-|Hd]; [tauto|]). destruct Hd.
    + destruct (contains "check" m); [right; left | left]; reflexivity.
Qed.

(** The sentence that asks for a check of a skill of the list, as the scan
    reads it: with and without its target. *)
Lemma skill_sentences :
  Forall (fun s =>
            let purpose := title s ++ " check" in
            all_chars small ("please roll " ++ lower purpose ++ " ") = true
            /\ classify ("please roll " ++ lower purpose ++ " ")
               = Some ("check", Some s)
            /\ scan_turn
                 (mkTurn (Some "assistant")
                    (Some ("Please roll " ++ purpose ++ "" ++ ".")))
                 scan_init
               = (mkScan (Some "check") (Some s) None None, Break))
         skill_list.
Proof.
  unfold skill_list.
  repeat (constructor; [vm_compute; repeat split; reflexivity|]).
  constructor.
Qed.

(** The text of the answer, by the first request. *)
Lemma heuristic_text_first inline_options req rr rest :
  classify_new_request (message req) = rr :: rest ->
  text (heuristic_response inline_options req)
  = "Please roll " ++ or_default (rr_purpose rr) (type_label (rr_type rr))
    ++ match rr_dc rr with
       | Some dc => " (DC " ++ py_str dc ++ ")"
       | None =>
           match rr_ac rr with
           | Some ac => " (AC " ++ py_str ac ++ ")"
           | None => ""
           end
       end ++ ".".
Proof. unfold heuristic_response. now intros ->. Qed.

Lemma resolve_from before t after st :
  Forall (fun h => assistant_text h = None) after ->
  (List.length after < 8)%nat ->
  scan_turn t scan_init = (st, Break) ->
  resolve_pending_roll (before ++ t :: after) = default_targets st.
Proof.
  intros Hafter Hlen Ht. unfold resolve_pending_roll.
  rewrite (scan_history_from before t after Hafter Hlen).
  cbn [scan_loop]. now rewrite Ht.
Qed.

(** The first request of the classifier: of initiative, of an attack, of a
    check of a skill of the list, of an "Ability check" or of a save. *)
Lemma first_request_cases message rr rest :
  let dc := mention re_dc_i (lower message) in
  classify_new_request message = rr :: rest ->
  rr = initiative_request
  \/ rr = attack_request
  \/ (exists s, In s skill_list /\ rr = check_request (title s ++ " check") dc)
  \/ rr = check_request "Ability check" dc
  \/ rr = save_request dc.
Proof.
  cbv zeta. rewrite classify_normal_form. cbv zeta.
  destruct (contains "initiative" (lower message));
    [cbn [app]; intros H; inversion H; now left|].
  destruct (contains "attack" (lower message));
    [cbn [app]; intros H; inversion H; right; now left|].
  cbn [app].
  destruct (check_part_names (lower message) (mention re_dc_i (lower message)))
    as [->|[->|(s & Hs & ->)]]; cbn [app]; intros H.
  - destruct (contains "save" (lower message)); inversion H.
    now repeat right.
  - inversion H. right; right; right; now left.
  - inversion H. right; right; left. now exists s.
Qed.

(** The body of the loop on the sentence of [heuristic_response], by its
    first request. *)
Lemma asked_scanned inline_options req rr rest :
  classify_new_request (message req) = rr :: rest ->
  let dc := mention re_dc_i (lower (message req)) in
  let entry := asked inline_options req in
  (rr = initiative_request ->
   scan_turn entry scan_init
   = (mkScan (Some "initiative") None None None, Break))
  /\ (rr = attack_request ->
      scan_turn entry scan_init
      = (mkScan (Some "attack") None None (Some 13%Z), Break))
  /\ (forall s, In s skill_list ->
        rr = check_request (title s ++ " check") dc ->
        scan_turn entry scan_init
        = (mkScan (Some "check") (Some s) dc None, Break)).
Proof.
  intros Hcls. cbv zeta.
  pose proof (heuristic_text_first inline_options req rr rest Hcls) as Htext.
  unfold asked. rewrite Htext. split; [|split].
  - intros ->. reflexivity.
  - intros ->. reflexivity.
  - intros s Hs ->.
    pose proof skill_sentences as Htab. rewrite Forall_forall in Htab.
    destruct (Htab s Hs) as (Hsmall & Hcl & Hplain).
    assert (Hp : truthy (Some (title s ++ " check")) = true).
    { unfold title. now destruct s. }
    cbn [rr_purpose rr_dc rr_ac rr_type check_request].
    unfold or_default. rewrite Hp. cbn [or_empty].
    destruct (mention re_dc_i (lower (message req))) as [d|] eqn:Hd.
    + rewrite (scan_turn_request _ d (mention_nonneg _ _ _ Hd) Hsmall).
      now rewrite Hcl.
    + exact Hplain.
Qed.

(** X19: the service understands its own requests for initiative, for an
    attack and for a check of a named skill.  The first request of the
    classifier is always of one of five forms.  When the answer of
    [heuristic_response] is sent back as the last assistant entry of the
    history, followed by fewer than 8 entries of other roles, the resolver
    finds the roll that was asked for, whatever the history before, in
    three of them: initiative without a target; an attack against AC 13; a
    check of the skill with the DC that the message of the player stated,
    as written in the sentence and read back from it, and DC 12 when it
    stated none. *)
Theorem own_request_is_resolved (inline_options : option string)
    (req : DMRequest) (before after : list Turn) (rr : RollRequest)
    (rest : list RollRequest) :
  Forall (fun h => assistant_text h = None) after ->
  (List.length after < 8)%nat ->
  classify_new_request (message req) = rr :: rest ->
  let dc := mention re_dc_i (lower (message req)) in
  let ctx := resolve_pending_roll (before ++ asked inline_options req :: after) in
  (rr = initiative_request
   \/ rr = attack_request
   \/ (exists s, In s skill_list /\ rr = check_request (title s ++ " check") dc)
   \/ rr = check_request "Ability check" dc
   \/ rr = save_request dc)
  /\ (rr = initiative_request ->
      ctx = mkScan (Some "initiative") None None None)
  /\ (rr = attack_request ->
      ctx = mkScan (Some "attack") None None (Some 13%Z))
  /\ (forall s, In s skill_list ->
        rr = check_request (title s ++ " check") dc ->
        ctx = mkScan (Some "check") (Some s)
                (Some (match dc with Some d => d | None => 12%Z end)) None).
Proof.
  intros Hafter Hlen Hcls. cbv zeta.
  split; [exact (first_request_cases _ _ _ Hcls)|].
  destruct (asked_scanned inline_options req rr rest Hcls)
    as (Hinit & Hattack & Hcheck).
  split; [|split].
  - intros Hrr.
    now rewrite (resolve_from before _ after _ Hafter Hlen (Hinit Hrr)).
  - intros Hrr.
    now rewrite (resolve_from before _ after _ Hafter Hlen (Hattack Hrr)).
  - intros s Hs Hrr.
    rewrite (resolve_from before _ after _ Hafter Hlen (Hcheck s Hs Hrr)).
    now destruct (mention re_dc_i (lower (message req))).
Qed.

(** X19 on the request for a stealth check against DC 14. *)
Lemma own_request_is_resolved_witness :
  resolve_pending_roll
    ([player_sneaks] ++ asked None sneak_request :: [player_reports])
  = stealth_dc14.
Proof.
  refine (eq_trans
            (proj2 (proj2 (proj2
               (own_request_is_resolved None sneak_request
                  [player_sneaks] [player_reports]
                  (check_request "Stealth check" (Some 14%Z)) [] _ _ eq_refl)))
               "stealth" _ eq_refl) _).
  - repeat constructor.
  - cbn. lia.
  - now left.
  - reflexivity.
Defined.

(** The two sentences whose purpose names no skill, as the scan reads
    them. *)
Lemma unnamed_sentences :
  Forall (fun purpose =>
            all_chars small ("please roll " ++ lower purpose ++ " ") = true
            /\ classify ("please roll " ++ lower purpose ++ " ") = None
            /\ scan_turn
                 (mkTurn (Some "assistant")
                    (Some ("Please roll " ++ purpose ++ "" ++ ".")))
                 scan_init
               = (scan_init, Continue))
         ["Ability check"; "Saving throw"].
Proof.
  repeat (constructor; [vm_compute; repeat split; reflexivity|]).
  constructor.
Qed.

(** X20: the other requests of the service are lost on the next turn.
    When the first request is for an "Ability check" or for a save, the
    sentence of [heuristic_response] asks for an "Ability check" or for a
    "Saving throw", and the scan finds no kind in it: it only notes the DC
    and goes on to older entries.  If no older entry of the assistant is in
    the history, a total that the player reports is answered with "Roll
    total recorded" and the generic menu, without success or failure,
    although a DC was asked for. *)
Theorem own_request_is_lost (inline_options : option string)
    (req : DMRequest) (before after : list Turn) (rr : RollRequest)
    (rest : list RollRequest) :
  Forall (fun h => assistant_text h = None) after ->
  (List.length after < 8)%nat ->
  classify_new_request (message req) = rr :: rest ->
  let dc := mention re_dc_i (lower (message req)) in
  let sentence := text (heuristic_response inline_options req) in
  let history := (before ++ asked inline_options req :: after)%list in
  rr = check_request "Ability check" dc \/ rr = save_request dc ->
  (exists purpose,
     rr_purpose rr = Some purpose
     /\ sentence = "Please roll " ++ purpose
                   ++ match dc with
                      | Some d => " (DC " ++ py_str d ++ ")"
                      | None => ""
                      end ++ ".")
  /\ yields_kind (asked inline_options req) = false
  /\ (Forall (fun h => assistant_text h = None) before ->
      resolve_pending_roll history = mkScan None None dc None
      /\ forall reply result,
           history_of reply = history ->
           extract_roll_total (message reply) = Some result ->
           exists r,
             roll_followup_from_history reply = Some r
             /\ text r = ("Roll total recorded: " ++ py_str result ++ ".")
                         ++ " What do you do next?"
                         ++ build_lettered_options None None None).
Proof.
  intros Hafter Hlen Hcls. cbv zeta. intros Hrr.
  set (dc := mention re_dc_i (lower (message req))) in *.
  pose proof (heuristic_text_first inline_options req rr rest Hcls) as Htext0.
  assert (Htext : exists purpose,
             In purpose ["Ability check"; "Saving throw"]
             /\ rr_purpose rr = Some purpose
             /\ text (heuristic_response inline_options req)
                = "Please roll " ++ purpose
                  ++ match dc with
                     | Some d => " (DC " ++ py_str d ++ ")"
                     | None => ""
                     end ++ ".").
  { destruct Hrr as [-> | ->].
    - exists "Ability check". split; [now left|]. split; [reflexivity|].
      rewrite Htext0. cbn [rr_purpose rr_dc rr_ac rr_type check_request].
      now destruct dc.
    - exists "Saving throw". split; [right; now left|]. split; [reflexivity|].
      rewrite Htext0. cbn [rr_purpose rr_dc rr_ac rr_type save_request].
      now destruct dc. }
  destruct Htext as (purpose & Hin & Hpurpose & Htext).
  assert (Hturn : scan_turn (asked inline_options req) scan_init
                  = (mkScan None None dc None, Continue)).
  { pose proof unnamed_sentences as Htab. rewrite Forall_forall in Htab.
    destruct (Htab purpose Hin) as (Hsmall & Hcl & Hplain).
    unfold asked. rewrite Htext. destruct dc as [d|] eqn:Hd.
    - rewrite (scan_turn_request _ d (mention_nonneg _ _ _ Hd) Hsmall).
      now rewrite Hcl.
    - exact Hplain. }
  split; [now exists purpose|]. split.
  - unfold yields_kind. now rewrite Hturn.
  - intros Hbefore.
    assert (Hres : resolve_pending_roll
                     (before ++ asked inline_options req :: after)
                   = mkScan None None dc None).
    { unfold resolve_pending_roll.
      rewrite (scan_history_from before _ after Hafter Hlen).
      cbn [scan_loop]. rewrite Hturn.
      rewrite scan_loop_skip by now apply Forall_rev, Forall_last_n.
      now destruct dc. }
    split; [exact Hres|].
    intros reply result Hh Hx. unfold roll_followup_from_history.
    rewrite Hx, Hh, Hres. eexists. split; [reflexivity|].
    cbn [last_kind last_skill last_dc last_ac text].
    now destruct dc.
Qed.

(** X20 on a request for an ability check against DC 15 and on a request
    for a save: neither sentence yields a kind, and the DC 15 is all that
    the resolver keeps. *)
Lemma own_request_is_lost_witness :
  resolve_pending_roll
    ([] ++ asked None ability_check_request :: [player_reports])
  = mkScan None None (Some 15%Z) None
  /\ yields_kind (asked None save_only_request) = false.
Proof.
  split.
  - refine (proj1 (proj2 (proj2
              (own_request_is_lost None ability_check_request
                 [] [player_reports]
                 (check_request "Ability check" (Some 15%Z)) []
                 _ _ eq_refl (or_introl eq_refl))) _)).
    + repeat constructor.
    + cbn. lia.
    + constructor.
  - refine (proj1 (proj2
              (own_request_is_lost None save_only_request
                 [] [player_reports] (save_request None) []
                 _ _ eq_refl (or_intror eq_refl)))).
    + repeat constructor.
    + cbn. lia.
Defined.

(** * The conversation goes on: the follow-up in the history *)

(** ** A text with a number in it *)

Lemma plain_keyword p :
  plain p = true -> all_chars small p = true /\ p <> EmptyString.
Proof.
  unfold plain. intros H.
  apply andb_prop in H. destruct H as [H _].
  apply andb_prop in H. destruct H as [Hp Hne].
  apply negb_true_iff in Hne. apply String.eqb_neq in Hne. now split.
Qed.

Lemma contains_after_digits p ds b :
  all_chars small p = true -> p <> EmptyString ->
  all_chars is_digit ds = true ->
  contains p (ds ++ b) = contains p b.
Proof.
  intros Hp Hne. induction ds as [|d ds IH]; cbn [all_chars append];
    [reflexivity|].
  intros H. apply andb_prop in H. destruct H as [Hd Hds].
  pose proof (contains_split d p EmptyString (ds ++ b) Hne
                (all_chars_avoid small p d Hp (small_digit d Hd))) as Hs.
  cbn [append] in Hs. rewrite Hs. cbn [contains].
  rewrite (prefix_empty_r p Hne). now apply IH.
Qed.

(** A keyword occurs in a text with a number in it when it occurs before
    the number or after it. *)
Lemma contains_around_digits p a ds b :
  plain p = true -> all_chars is_digit ds = true -> ds <> EmptyString ->
  contains p (a ++ ds ++ b) = contains p a || contains p b.
Proof.
  intros Hplain Hds Hne. destruct (plain_keyword p Hplain) as [Hp Hp0].
  destruct ds as [|d ds]; [congruence|].
  cbn [all_chars] in Hds. apply andb_prop in Hds. destruct Hds as [Hd Hds].
  cbn [append].
  rewrite (contains_split d p a (ds ++ b) Hp0
             (all_chars_avoid small p d Hp (small_digit d Hd))).
  now rewrite (contains_after_digits p ds b Hp Hp0 Hds).
Qed.

(** The keyword tests of the scan do not depend on the number. *)
Lemma classify_digits a ds b :
  all_chars is_digit ds = true -> ds <> EmptyString ->
  classify (a ++ ds ++ b) = classify (a ++ "0" ++ b).
Proof.
  intros Hds Hne. unfold classify, find_skill, find_save, skill_list, saves.
  cbn [existsb find].
  rewrite !(contains_around_digits _ a ds b) by first [assumption | reflexivity].
  rewrite !(contains_around_digits _ a "0" b)
    by first [reflexivity | discriminate].
  reflexivity.
Qed.

(** ** The two patterns of the targets on a text with a number in it *)

Lemma digit_is_not c d : is_digit d = true -> is_digit c = false ->
  Ascii.eqb c d = false.
Proof.
  intros Hd Hc. destruct (Ascii.eqb_spec c d) as [->|_]; [congruence|reflexivity].
Qed.

Lemma run_re_dc_digit {A : Type}
    (k : option ascii -> string -> list string -> option A) prev d rest gs :
  is_digit d = true -> run re_dc k prev (String d rest) gs = None.
Proof.
  intros Hd. unfold re_dc. cbn [seqs lit chr run].
  rewrite (digit_is_not "d" d Hd eq_refl).
  now destruct (at_boundary prev (String d rest)).
Qed.

Lemma run_re_ac_digit {A : Type}
    (k : option ascii -> string -> list string -> option A) prev d rest gs :
  is_digit d = true -> run re_ac k prev (String d rest) gs = None.
Proof.
  intros Hd. unfold re_ac. cbn [seqs lit chr run].
  rewrite (digit_is_not "a" d Hd eq_refl).
  now destruct (at_boundary prev (String d rest)).
Qed.

Lemma run_re_dc_prev {A : Type}
    (k : option ascii -> string -> list string -> option A) p1 p2 s gs :
  word_before p1 = word_before p2 ->
  run re_dc k p1 s gs = run re_dc k p2 s gs.
Proof.
  intros H. unfold re_dc. cbn [seqs run]. unfold at_boundary. rewrite H.
  destruct (xorb (word_before p2) (word_after s)); [|reflexivity].
  destruct s; reflexivity.
Qed.

Lemma run_re_ac_prev {A : Type}
    (k : option ascii -> string -> list string -> option A) p1 p2 s gs :
  word_before p1 = word_before p2 ->
  run re_ac k p1 s gs = run re_ac k p2 s gs.
Proof.
  intros H. unfold re_ac. cbn [seqs run]. unfold at_boundary. rewrite H.
  destruct (xorb (word_before p2) (word_after s)); [|reflexivity].
  destruct s; reflexivity.
Qed.

(** A pattern that does not start on a digit and that sees of the
    character before it only whether it is a word character. *)
Section Targets.

Variable r : regex.
Hypothesis r_digit :
  forall prev d rest, is_digit d = true ->
    run r (fun _ _ g => Some g) prev (String d rest) [] = None.
Hypothesis r_prev :
  forall p1 p2 s, word_before p1 = word_before p2 ->
    run r (fun _ _ g => Some g) p1 s [] = run r (fun _ _ g => Some g) p2 s [].

Lemma search_from_prev p1 p2 s :
  word_before p1 = word_before p2 -> search_from r p1 s = search_from r p2 s.
Proof.
  intros H. destruct s as [|c s]; cbn [search_from];
    now rewrite (r_prev p1 p2 _ H).
Qed.

Lemma search_from_digits ds : forall prev b,
  all_chars is_digit ds = true -> word_before prev = true ->
  search_from r prev (ds ++ b) = search_from r (Some "0"%char) b.
Proof.
  induction ds as [|d ds IH]; intros prev b Hds Hprev; cbn [append].
  - now apply search_from_prev.
  - cbn [all_chars] in Hds. apply andb_prop in Hds. destruct Hds as [Hd Hds].
    cbn [search_from]. rewrite (r_digit prev d _ Hd).
    apply IH; [exact Hds|]. cbn [word_before]. now apply digit_word.
Qed.

(** The search in [a ++ ds ++ b], given where the search in [a] leads. *)
Lemma search_number a ds b p0 :
  (forall c rest, search_from r None (a ++ String c rest)
                  = search_from r (Some p0) (String c rest)) ->
  all_chars is_digit ds = true -> ds <> EmptyString ->
  search_from r (Some "0"%char) b = None ->
  search r (a ++ ds ++ b) = None.
Proof.
  intros Ha Hds Hne Hb. unfold search.
  destruct ds as [|d ds]; [congruence|].
  cbn [all_chars] in Hds. apply andb_prop in Hds. destruct Hds as [Hd Hds].
  cbn [append]. rewrite Ha. cbn [search_from]. rewrite (r_digit _ d _ Hd).
  rewrite search_from_digits; [exact Hb | exact Hds|].
  cbn [word_before]. now apply digit_word.
Qed.

End Targets.

Lemma lower_around_digits A ds B :
  all_chars is_digit ds = true ->
  lower (A ++ ds ++ B) = lower A ++ ds ++ lower B.
Proof. intros H. now rewrite !lower_app, (lower_digits ds H). Qed.

(** The body of the loop on an entry whose text has one number [ds], no
    target before it and none after it: only the keywords count. *)
Lemma scan_turn_number A ds B p0 p1 :
  all_chars is_digit ds = true -> ds <> EmptyString ->
  (forall c rest, search_from re_dc None (lower A ++ String c rest)
                  = search_from re_dc (Some p0) (String c rest)) ->
  (forall c rest, search_from re_ac None (lower A ++ String c rest)
                  = search_from re_ac (Some p1) (String c rest)) ->
  search_from re_dc (Some "0"%char) (lower B) = None ->
  search_from re_ac (Some "0"%char) (lower B) = None ->
  scan_turn (mkTurn (Some "assistant") (Some (A ++ ds ++ B))) scan_init
  = match classify (lower A ++ "0" ++ lower B) with
    | Some (k, sk) => (mkScan (Some k) sk None None, Break)
    | None => (scan_init, Continue)
    end.
Proof.
  intros Hds Hne Hdc Hac Bdc Bac. rewrite scan_turn_spec by reflexivity.
  unfold assistant_text. cbn [role content is_str or_empty].
  change ("assistant" =? "assistant") with true. cbv iota.
  rewrite (lower_around_digits A ds B Hds). cbv zeta.
  rewrite (classify_digits _ ds _ Hds Hne).
  unfold note_targets, mention.
  rewrite (search_number re_dc (fun p d rest => run_re_dc_digit _ p d rest [])
             (fun p1 p2 s => run_re_dc_prev _ p1 p2 s [])
             (lower A) ds (lower B) p0 Hdc Hds Hne Bdc).
  rewrite (search_number re_ac (fun p d rest => run_re_ac_digit _ p d rest [])
             (fun p1 p2 s => run_re_ac_prev _ p1 p2 s [])
             (lower A) ds (lower B) p1 Hac Hds Hne Bac).
  destruct (classify _) as [[k [s|]]|]; reflexivity.
Qed.

(** ** The follow-up, case by case *)

Lemma search_from_step r prev c s :
  run r (fun _ _ g => Some g) prev (String c s) [] = None ->
  search_from r prev (String c s) = search_from r (Some c) s.
Proof. intros H. cbn [search_from]. now rewrite H. Qed.

(** The search over the characters of a text that are known. *)
Ltac peel :=
  repeat match goal with
  | |- search_from ?r ?p (String ?x ?s) = _ =>
      lazymatch x with
      | Ascii _ _ _ _ _ _ _ _ =>
          rewrite (search_from_step r p x s) by (vm_compute; reflexivity)
      end
  end.

Ltac head_of T :=
  lazymatch T with
  | py_str _ ++ _ => constr:(EmptyString)
  | ?x ++ ?rest => let h := head_of rest in constr:(x ++ h)
  end.

Ltac quiet_head :=
  intros;
  match goal with
  | |- search_from _ None (lower ?A ++ _) = _ =>
      let v := eval vm_compute in (lower A) in change (lower A) with v
  end;
  cbn [append]; peel; reflexivity.

(** The scan of the text of a follow-up, once the kind, the skill and the
    verdict are known. *)
Ltac scan_followup Hdigits Hne :=
  unfold outcome_line;
  cbv [is_str String.eqb Ascii.eqb Bool.eqb or_default truthy negb or_empty];
  rewrite !app_string_assoc;
  match goal with
  | |- scan_turn (mkTurn _ (Some ?T)) _ = _ =>
      match T with
      | context [py_str ?n ++ ?B] =>
          let A := head_of T in
          change T with (A ++ py_str n ++ B)
      end
  end;
  etransitivity;
  [ eapply scan_turn_number;
    [ exact Hdigits | exact Hne | quiet_head | quiet_head
    | vm_compute; reflexivity | vm_compute; reflexivity ]
  | vm_compute; reflexivity ].

Lemma check_followup_scanned s d ac flag result :
  In s skill_list -> (0 <= result)%Z ->
  flag = Some (geb result d) ->
  scan_turn
    (mkTurn (Some "assistant")
       (Some (outcome_line (Some "check") (Some s) (Some d) ac result
              ++ " " ++ "What do you do next?"
              ++ build_lettered_options (Some "check") (Some s) flag)))
    scan_init
  = (mkScan (Some "check") (Some s) None None, Break).
Proof.
  intros Hs Hres ->.
  destruct (py_int_py_str result Hres) as (_ & Hdigits & Hne).
  unfold outcome_line. cbn in Hs.
  repeat (destruct Hs as [<-|Hs];
          [destruct (geb result d); scan_followup Hdigits Hne|]).
  destruct Hs.
Qed.

Lemma save_followup_scanned s d ac flag result :
  In s saves -> (0 <= result)%Z ->
  flag = Some (geb result d) ->
  scan_turn
    (mkTurn (Some "assistant")
       (Some (outcome_line (Some "save") (Some s) (Some d) ac result
              ++ " " ++ "What do you do next?"
              ++ build_lettered_options (Some "save") (Some s) flag)))
    scan_init
  = (scan_init, Continue).
Proof.
  intros Hs Hres ->.
  destruct (py_int_py_str result Hres) as (_ & Hdigits & Hne).
  unfold outcome_line. cbn in Hs.
  repeat (destruct Hs as [<-|Hs];
          [destruct (geb result d); scan_followup Hdigits Hne|]).
  destruct Hs.
Qed.

Lemma attack_followup_scanned dc a flag result :
  (0 <= result)%Z ->
  flag = Some (geb result a) ->
  scan_turn
    (mkTurn (Some "assistant")
       (Some (outcome_line (Some "attack") None dc (Some a) result
              ++ " " ++ "What do you do next?"
              ++ build_lettered_options (Some "attack") None flag)))
    scan_init
  = (mkScan (Some "attack") None None None, Break).
Proof.
  intros Hres ->.
  destruct (py_int_py_str result Hres) as (_ & Hdigits & Hne).
  unfold outcome_line.
  destruct (geb result a); scan_followup Hdigits Hne.
Qed.

Lemma initiative_followup_scanned dc ac flag result :
  (0 <= result)%Z ->
  scan_turn
    (mkTurn (Some "assistant")
       (Some (outcome_line (Some "initiative") None dc ac result
              ++ " " ++ "What do you do next?"
              ++ build_lettered_options (Some "initiative") None flag)))
    scan_init
  = (mkScan (Some "initiative") None None None, Break).
Proof.
  intros Hres.
  destruct (py_int_py_str result Hres) as (_ & Hdigits & Hne).
  scan_followup Hdigits Hne.
Qed.

Lemma unknown_followup_scanned dc ac flag result :
  (0 <= result)%Z ->
  scan_turn
    (mkTurn (Some "assistant")
       (Some (outcome_line None None dc ac result
              ++ " " ++ "What do you do next?"
              ++ build_lettered_options None None flag)))
    scan_init
  = (scan_init, Continue).
Proof.
  intros Hres.
  destruct (py_int_py_str result Hres) as (_ & Hdigits & Hne).
  scan_followup Hdigits Hne.
Qed.

Lemma success_flag_dc kind d ac result :
  kind = Some "check" \/ kind = Some "save" ->
  success_flag kind (Some d) ac result = Some (geb result d).
Proof. intros [-> | ->]; destruct ac; reflexivity. Qed.

Lemma success_flag_ac dc a result :
  success_flag (Some "attack") dc (Some a) result = Some (geb result a).
Proof. destruct dc; reflexivity. Qed.

(** The targets that an entry states, read off the body of the loop. *)
Lemma scan_turn_targets role0 text0 st f :
  scan_turn (mkTurn (Some "assistant") (Some text0)) scan_init = (st, f) ->
  role0 = Some "assistant" ->
  dc_of (mkTurn role0 (Some text0)) = last_dc st
  /\ ac_of (mkTurn role0 (Some text0)) = last_ac st.
Proof.
  intros H ->. rewrite scan_turn_spec in H by reflexivity.
  unfold dc_of, ac_of.
  destruct (assistant_text _) as [c|] eqn:Ha; [|discriminate].
  cbv zeta in H.
  pose proof (note_targets_dc c scan_init) as Hd.
  pose proof (note_targets_ac c scan_init) as Hc.
  cbn [last_dc last_ac scan_init] in Hd, Hc.
  destruct (classify c) as [[k [s|]]|]; inversion H; subst st f;
    cbn [set_kind set_skill last_dc last_ac]; rewrite Hd, Hc;
    now destruct (mention re_dc c), (mention re_ac c).
Qed.

(** The body of the loop on the text of a follow-up. *)
Lemma followup_scanned history result :
  (0 <= result)%Z ->
  let ctx := resolve_pending_roll history in
  let flag := success_flag (last_kind ctx) (last_dc ctx) (last_ac ctx) result in
  scan_turn
    (mkTurn (Some "assistant")
       (Some (outcome_line (last_kind ctx) (last_skill ctx) (last_dc ctx)
                (last_ac ctx) result
              ++ " " ++ "What do you do next?"
              ++ build_lettered_options (last_kind ctx) (last_skill ctx) flag)))
    scan_init
  = if is_str (last_kind ctx) "save" || is_none (last_kind ctx)
    then (scan_init, Continue)
    else (mkScan (last_kind ctx) (last_skill ctx) None None, Break).
Proof.
  intros Hres. cbv zeta.
  pose proof (resolve_shape history) as Hshape. unfold resolved_shape in Hshape.
  pose proof (resolved_targets_present history) as [Hdc Hac]. cbv zeta in Hdc, Hac.
  destruct (resolve_pending_roll history) as [kind skill dc ac].
  cbn [last_kind last_skill last_dc last_ac] in *.
  destruct Hshape as [[-> ->]|[[-> ->]|[[-> ->]|[[-> (s & -> & Hs)]|[-> (s & -> & Hs)]]]]].
  - now apply unknown_followup_scanned.
  - now apply initiative_followup_scanned.
  - destruct (Hac eq_refl) as [a ->].
    apply attack_followup_scanned; [exact Hres | apply success_flag_ac].
  - destruct (Hdc (or_introl eq_refl)) as [d ->].
    apply check_followup_scanned; [exact Hs | exact Hres |].
    apply success_flag_dc. now left.
  - destruct (Hdc (or_intror eq_refl)) as [d ->].
    apply save_followup_scanned; [exact Hs | exact Hres |].
    apply success_flag_dc. now right.
Qed.

Lemma extract_roll_total_nonneg message v :
  extract_roll_total message = Some v -> (0 <= v)%Z.
Proof.
  intros H. apply first_total_mention in H. destruct H as (p & _ & Hm).
  now apply mention_nonneg in Hm.
Qed.

(** X21: an answer to a reported roll is itself read as a request.  The
    text of a follow-up states no DC and no AC.  When it is sent back as the
    last assistant entry of the history, followed by fewer than 8 entries of
    other roles, the scan of a further reported total stops at it if it
    answered initiative, an attack or a check: the pending roll is then of
    the same kind and skill as before, but against the default target, AC
    13 or DC 12, whatever target the first roll was judged against and
    whatever older entries state.  If it answered a save or a roll of no
    known kind, the scan finds no kind in it and goes on to older
    entries. *)
Theorem followup_is_read_as_request (req : DMRequest) (result : Z)
    (before after : list Turn) :
  extract_roll_total (message req) = Some result ->
  Forall (fun h => assistant_text h = None) after ->
  (List.length after < 8)%nat ->
  let ctx := resolve_pending_roll (history_of req) in
  exists r,
    roll_followup_from_history req = Some r
    /\ let answer := mkTurn (Some "assistant") (Some (text r)) in
       let next := resolve_pending_roll (before ++ answer :: after) in
       dc_of answer = None /\ ac_of answer = None
       /\ (last_kind ctx = Some "initiative" ->
           next = mkScan (Some "initiative") None None None)
       /\ (last_kind ctx = Some "attack" ->
           next = mkScan (Some "attack") None None (Some 13%Z))
       /\ (last_kind ctx = Some "check" ->
           next = mkScan (Some "check") (last_skill ctx) (Some 12%Z) None)
       /\ (last_kind ctx = Some "save" \/ last_kind ctx = None ->
           yields_kind answer = false).
Proof.
  intros Hx Hafter Hlen. cbv zeta.
  unfold roll_followup_from_history. rewrite Hx.
  eexists. split; [reflexivity|]. cbn [text].
  pose proof (followup_scanned (history_of req) result
                (extract_roll_total_nonneg _ _ Hx)) as Hscan.
  cbv zeta in Hscan.
  pose proof (resolve_shape (history_of req)) as Hshape.
  unfold resolved_shape in Hshape.
  set (ctx := resolve_pending_roll (history_of req)) in *.
  destruct (is_str (last_kind ctx) "save" || is_none (last_kind ctx)) eqn:E.
  - destruct (scan_turn_targets _ _ _ _ Hscan eq_refl) as [Hd Ha].
    split; [exact Hd|]. split; [exact Ha|].
    repeat split; try (intros H; rewrite H in E; discriminate).
    intros _. unfold yields_kind. now rewrite Hscan.
  - destruct (scan_turn_targets _ _ _ _ Hscan eq_refl) as [Hd Ha].
    split; [exact Hd|]. split; [exact Ha|].
    split; [|split; [|split]].
    + intros H. rewrite (resolve_from before _ after _ Hafter Hlen Hscan).
      destruct Hshape as [[Hk Hs]|[[Hk Hs]|[[Hk Hs]|[[Hk _]|[Hk _]]]]];
        try congruence.
      now rewrite H, Hs.
    + intros H. rewrite (resolve_from before _ after _ Hafter Hlen Hscan).
      destruct Hshape as [[Hk Hs]|[[Hk Hs]|[[Hk Hs]|[[Hk _]|[Hk _]]]]];
        try congruence.
      now rewrite H, Hs.
    + intros H. rewrite (resolve_from before _ after _ Hafter Hlen Hscan).
      now rewrite H.
    + intros [H|H]; rewrite H in E; discriminate.
Qed.

(** X21 on the example of the specification: after the answer to the
    stealth check against DC 14, a second total is judged against DC 12. *)
Lemma followup_is_read_as_request_witness :
  exists r,
    roll_followup_from_history reported_16 = Some r
    /\ resolve_pending_roll
         ([stealth_request]
          ++ mkTurn (Some "assistant") (Some (text r)) :: [player_reports])
       = mkScan (Some "check") (Some "stealth") (Some 12%Z) None.
Proof.
  destruct (followup_is_read_as_request reported_16 16
              [stealth_request] [player_reports] eq_refl)
    as (r & Hr & _ & _ & _ & _ & Hc & _).
  - repeat constructor.
  - cbn. lia.
  - exists r. split; [exact Hr|]. exact (Hc eq_refl).
Defined.

(** * From the request to the verdict *)

(** X22: the loop closes on the stated DC.  When the sentence of
    [heuristic_response] is the last assistant entry of the history of the
    next request, followed by fewer than 8 entries of other roles, and that
    request reports a total, the follow-up judges the total against the
    roll that was asked for: initiative is noted; an attack hits exactly
    when the total is at least 13; a check of a skill succeeds exactly when
    the total is at least the DC that the player's first message stated, or
    12 when it stated none, and the answer names the skill and offers the
    menu of that skill and verdict. *)
Theorem stated_dc_decides_verdict (inline_options : option string)
    (req reply : DMRequest) (before after : list Turn) (rr : RollRequest)
    (rest : list RollRequest) (total : Z) :
  classify_new_request (message req) = rr :: rest ->
  history_of reply = (before ++ asked inline_options req :: after)%list ->
  Forall (fun h => assistant_text h = None) after ->
  (List.length after < 8)%nat ->
  extract_roll_total (message reply) = Some total ->
  let dc := mention re_dc_i (lower (message req)) in
  exists r,
    roll_followup_from_history reply = Some r
    /\ roll_requests r = Some []
    /\ (rr = initiative_request ->
        text r = ("Initiative noted: " ++ py_str total ++ ".")
                 ++ " What do you do next?"
                 ++ build_lettered_options (Some "initiative") None None)
    /\ (rr = attack_request ->
        text r = ("Your attack roll is " ++ py_str total ++ " "
                  ++ (if (13 <=? total)%Z then "(hit)" else "(miss)") ++ ".")
                 ++ " What do you do next?"
                 ++ build_lettered_options (Some "attack") None
                      (Some (13 <=? total)%Z))
    /\ (forall s, In s skill_list ->
          rr = check_request (title s ++ " check") dc ->
          let d := match dc with Some d => d | None => 12%Z end in
          text r = ("Your " ++ s ++ " check is " ++ py_str total ++ " "
                    ++ (if (d <=? total)%Z then "(success)" else "(failure)")
                    ++ ".")
                   ++ " What do you do next?"
                   ++ build_lettered_options (Some "check") (Some s)
                        (Some (d <=? total)%Z)).
Proof.
  intros Hcls Hhist Hafter Hlen Hx. cbv zeta.
  unfold roll_followup_from_history. rewrite Hx, Hhist.
  eexists. split; [reflexivity|]. split; [reflexivity|].
  cbn [text].
  destruct (asked_scanned inline_options req rr rest Hcls)
    as (Hinit & Hattack & Hcheck).
  split; [|split].
  - intros Hrr.
    now rewrite (resolve_from before _ after _ Hafter Hlen (Hinit Hrr)).
  - intros Hrr.
    now rewrite (resolve_from before _ after _ Hafter Hlen (Hattack Hrr)).
  - intros s Hs Hrr.
    rewrite (resolve_from before _ after _ Hafter Hlen (Hcheck s Hs Hrr)).
    assert (Hne : truthy (Some s) = true)
      by (apply skill_names_not_empty; now left).
    destruct (mention re_dc_i (lower (message req))) as [d|];
      match goal with
      | |- context [default_targets ?st] =>
          let v := eval vm_compute in (default_targets st) in
          change (default_targets st) with v
      end;
      cbn [last_kind last_skill last_dc last_ac];
      unfold outcome_line, success_flag, or_default, geb;
      cbv [is_str String.eqb Ascii.eqb Bool.eqb orb];
      rewrite Hne; reflexivity.
Qed.

(** X22 on the request for a stealth check against DC 14, answered by a
    total of 15 and by a total of 13. *)
Lemma stated_dc_decides_verdict_witness :
  (exists r,
     roll_followup_from_history
       (mkDMRequest None "I rolled 15" None
          (Some [player_sneaks; asked None sneak_request])) = Some r
     /\ prefix "Your stealth check is 15 (success)." (text r) = true)
  /\ (exists r,
        roll_followup_from_history
          (mkDMRequest None "I rolled 13" None
             (Some [player_sneaks; asked None sneak_request])) = Some r
        /\ prefix "Your stealth check is 13 (failure)." (text r) = true).
Proof.
  split.
  - destruct (stated_dc_decides_verdict None sneak_request
                (mkDMRequest None "I rolled 15" None
                   (Some [player_sneaks; asked None sneak_request]))
                [player_sneaks] []
                (check_request "Stealth check" (Some 14%Z)) [] 15
                eq_refl eq_refl (Forall_nil _))
      as (r & Hr & _ & _ & _ & Hc).
    + cbn. lia.
    + reflexivity.
    + exists r. split; [exact Hr|].
      rewrite (Hc "stealth" (or_introl eq_refl) eq_refl). reflexivity.
  - destruct (stated_dc_decides_verdict None sneak_request
                (mkDMRequest None "I rolled 13" None
                   (Some [player_sneaks; asked None sneak_request]))
                [player_sneaks] []
                (check_request "Stealth check" (Some 14%Z)) [] 13
                eq_refl eq_refl (Forall_nil _))
      as (r & Hr & _ & _ & _ & Hc).
    + cbn. lia.
    + reflexivity.
    + exists r. split; [exact Hr|].
      rewrite (Hc "stealth" (or_introl eq_refl) eq_refl). reflexivity.
Defined.
